(** * Tatum ChainLens: the MCP supervisor, the tool client, the intent
      classifier and the fallback responder of the main server

    A shallow embedding of class [TatumMCPServer] and of the gas route of
    the main server file, and of the address handling of the Telegram
    bot and of the web page, with the properties of its specification.

    Conventions of the embedding.
    - JavaScript numbers that count (retry counter, request id, array
      lengths) are [Z]; the one place where the 53-bit precision of a
      JavaScript number is reachable, [++this.requestId], is written out.
    - Dollar values and gas prices are rationals ([Q]): the formulas are
      those of the source, evaluated without rounding error.
    - Strings are [string] over 8-bit characters; [toLowerCase] maps the
      letters A-Z and leaves every other character alone.
    - A field of a response body on which the code branches or throws
      according to the kind of JSON value it finds is typed by those
      kinds ([UsdValue], [NftBody]); the other fields are typed as the
      code uses them.
    - The event loop is explicit: a [Runtime] holds the server object, the
      pending timers, the child processes and the registered listeners, and
      every callback of the source is a function on it. *)

From Stdlib Require Import ZArith QArith Qround Qabs Qminmax Lqa List Sorted Permutation String Ascii
  DecimalString Bool Lia.
Import ListNotations.

Local Open Scope string_scope.
Local Open Scope list_scope.
Local Open Scope Z_scope.

(* ================================================================== *)
(** * Process supervisor and tool client                               *)
(* ================================================================== *)

Module Supervisor.

(** A child process handle: [spawn] returns a fresh one, [kill()] sets
    its [killed] flag. *)
Record ChildProcess := mkChild {
  pid : nat;
  killed : bool
}.

(** The fields set by the constructor of [TatumMCPServer]. *)
Record TatumMCPServer := mkServer {
  isConnected : bool;
  mcpProcess : option ChildProcess;
  requestId : Z;
  retryCount : Z;
  maxRetries : Z;
  healthCheckInterval : bool;      (* an interval is registered / null *)
  fallbackMode : bool;
  connectionAttempts : Z;
  maxConnectionAttempts : Z;
  lastError : option string
}.

(** [constructor()] *)
Definition constructor : TatumMCPServer :=
  {| isConnected := false;
     mcpProcess := None;
     requestId := 0;
     retryCount := 0;
     maxRetries := 3;
     healthCheckInterval := false;
     fallbackMode := false;
     connectionAttempts := 0;
     maxConnectionAttempts := 20;
     lastError := None |}.

(** Callbacks handed to [setTimeout]. *)
Inductive Timer :=
| RestartTimer                 (* setTimeout(() => this.start(), 5000) *)
| ConnectionMonitor            (* the 10000 ms check registered by start() *)
| ToolTimeout (id : Z).        (* the 15000 ms timeout of callMcpTool *)

Definition Timer_eqb (a b : Timer) : bool :=
  match a, b with
  | RestartTimer, RestartTimer => true
  | ConnectionMonitor, ConnectionMonitor => true
  | ToolTimeout i, ToolTimeout j => i =? j
  | _, _ => false
  end.

(** How the promise returned by [callMcpTool] was settled. *)
Inductive Settlement :=
| Resolved
| Rejected (message : string).

(** The server object together with what the Node event loop holds for it. *)
Record Runtime := mkRuntime {
  server : TatumMCPServer;
  timers : list Timer;              (* pending setTimeout callbacks *)
  running : list nat;               (* children whose 'close' has not fired *)
  spawned : nat;                    (* children spawned so far *)
  startCalls : nat;                 (* invocations of start() so far *)
  dataListeners : list (nat * Z);   (* onData of callMcpTool: child, request.id *)
  promises : list (Z * Settlement)  (* settled callMcpTool promises *)
}.

Definition boot : Runtime :=
  {| server := constructor; timers := []; running := []; spawned := 0;
     startCalls := 0; dataListeners := []; promises := [] |}.

(** ** Field updates *)

Definition on_server (f : TatumMCPServer -> TatumMCPServer) (r : Runtime) : Runtime :=
  {| server := f (server r); timers := timers r; running := running r;
     spawned := spawned r; startCalls := startCalls r;
     dataListeners := dataListeners r; promises := promises r |}.

Definition set_isConnected (b : bool) (s : TatumMCPServer) : TatumMCPServer :=
  {| isConnected := b; mcpProcess := mcpProcess s; requestId := requestId s;
     retryCount := retryCount s; maxRetries := maxRetries s;
     healthCheckInterval := healthCheckInterval s; fallbackMode := fallbackMode s;
     connectionAttempts := connectionAttempts s;
     maxConnectionAttempts := maxConnectionAttempts s; lastError := lastError s |}.

Definition set_mcpProcess (p : option ChildProcess) (s : TatumMCPServer) : TatumMCPServer :=
  {| isConnected := isConnected s; mcpProcess := p; requestId := requestId s;
     retryCount := retryCount s; maxRetries := maxRetries s;
     healthCheckInterval := healthCheckInterval s; fallbackMode := fallbackMode s;
     connectionAttempts := connectionAttempts s;
     maxConnectionAttempts := maxConnectionAttempts s; lastError := lastError s |}.

Definition set_requestId (n : Z) (s : TatumMCPServer) : TatumMCPServer :=
  {| isConnected := isConnected s; mcpProcess := mcpProcess s; requestId := n;
     retryCount := retryCount s; maxRetries := maxRetries s;
     healthCheckInterval := healthCheckInterval s; fallbackMode := fallbackMode s;
     connectionAttempts := connectionAttempts s;
     maxConnectionAttempts := maxConnectionAttempts s; lastError := lastError s |}.

Definition set_retryCount (n : Z) (s : TatumMCPServer) : TatumMCPServer :=
  {| isConnected := isConnected s; mcpProcess := mcpProcess s; requestId := requestId s;
     retryCount := n; maxRetries := maxRetries s;
     healthCheckInterval := healthCheckInterval s; fallbackMode := fallbackMode s;
     connectionAttempts := connectionAttempts s;
     maxConnectionAttempts := maxConnectionAttempts s; lastError := lastError s |}.

Definition set_healthCheckInterval (b : bool) (s : TatumMCPServer) : TatumMCPServer :=
  {| isConnected := isConnected s; mcpProcess := mcpProcess s; requestId := requestId s;
     retryCount := retryCount s; maxRetries := maxRetries s;
     healthCheckInterval := b; fallbackMode := fallbackMode s;
     connectionAttempts := connectionAttempts s;
     maxConnectionAttempts := maxConnectionAttempts s; lastError := lastError s |}.

Definition set_fallbackMode (b : bool) (s : TatumMCPServer) : TatumMCPServer :=
  {| isConnected := isConnected s; mcpProcess := mcpProcess s; requestId := requestId s;
     retryCount := retryCount s; maxRetries := maxRetries s;
     healthCheckInterval := healthCheckInterval s; fallbackMode := b;
     connectionAttempts := connectionAttempts s;
     maxConnectionAttempts := maxConnectionAttempts s; lastError := lastError s |}.

Definition set_lastError (e : option string) (s : TatumMCPServer) : TatumMCPServer :=
  {| isConnected := isConnected s; mcpProcess := mcpProcess s; requestId := requestId s;
     retryCount := retryCount s; maxRetries := maxRetries s;
     healthCheckInterval := healthCheckInterval s; fallbackMode := fallbackMode s;
     connectionAttempts := connectionAttempts s;
     maxConnectionAttempts := maxConnectionAttempts s; lastError := e |}.

Definition set_timers (ts : list Timer) (r : Runtime) : Runtime :=
  {| server := server r; timers := ts; running := running r;
     spawned := spawned r; startCalls := startCalls r;
     dataListeners := dataListeners r; promises := promises r |}.

Definition set_running (ps : list nat) (r : Runtime) : Runtime :=
  {| server := server r; timers := timers r; running := ps;
     spawned := spawned r; startCalls := startCalls r;
     dataListeners := dataListeners r; promises := promises r |}.

Definition set_spawned (n : nat) (r : Runtime) : Runtime :=
  {| server := server r; timers := timers r; running := running r;
     spawned := n; startCalls := startCalls r;
     dataListeners := dataListeners r; promises := promises r |}.

Definition set_startCalls (n : nat) (r : Runtime) : Runtime :=
  {| server := server r; timers := timers r; running := running r;
     spawned := spawned r; startCalls := n;
     dataListeners := dataListeners r; promises := promises r |}.

Definition set_dataListeners (ls : list (nat * Z)) (r : Runtime) : Runtime :=
  {| server := server r; timers := timers r; running := running r;
     spawned := spawned r; startCalls := startCalls r;
     dataListeners := ls; promises := promises r |}.

Definition set_promises (ps : list (Z * Settlement)) (r : Runtime) : Runtime :=
  {| server := server r; timers := timers r; running := running r;
     spawned := spawned r; startCalls := startCalls r;
     dataListeners := dataListeners r; promises := ps |}.

(** ** Event-loop primitives *)

Definition setTimeout (t : Timer) (r : Runtime) : Runtime :=
  set_timers (timers r ++ [t]) r.

(** Remove the first occurrence of a timer: [clearTimeout], and also what
    the event loop does to a timer when it fires. *)
Fixpoint remove_timer (t : Timer) (ts : list Timer) : list Timer :=
  match ts with
  | [] => []
  | u :: ts' => if Timer_eqb t u then ts' else u :: remove_timer t ts'
  end.

Definition clearTimeout (t : Timer) (r : Runtime) : Runtime :=
  set_timers (remove_timer t (timers r)) r.

Definition listener_eqb (a b : nat * Z) : bool :=
  Nat.eqb (fst a) (fst b) && (snd a =? snd b).

Fixpoint remove_listener (l : nat * Z) (ls : list (nat * Z)) : list (nat * Z) :=
  match ls with
  | [] => []
  | u :: ls' => if listener_eqb l u then ls' else u :: remove_listener l ls'
  end.

Fixpoint settled (id : Z) (ps : list (Z * Settlement)) : option Settlement :=
  match ps with
  | [] => None
  | (j, o) :: ps' => if id =? j then Some o else settled id ps'
  end.

(** [resolve]/[reject]: only the first settlement of a promise counts. *)
Definition settle (id : Z) (o : Settlement) (r : Runtime) : Runtime :=
  match settled id (promises r) with
  | Some _ => r
  | None => set_promises (promises r ++ [(id, o)]) r
  end.

(** ** Methods of the class *)

(** [stopHealthCheck()] *)
Definition stopHealthCheck (r : Runtime) : Runtime :=
  on_server (set_healthCheckInterval false) r.

(** [startHealthCheck()]: clears any existing interval, registers one. *)
Definition startHealthCheck (r : Runtime) : Runtime :=
  on_server (set_healthCheckInterval true) (stopHealthCheck r).

(** [enableFallbackMode(reason)] *)
Definition enableFallbackMode (reason : string) (r : Runtime) : Runtime :=
  on_server (fun s => set_lastError (Some reason)
                        (set_isConnected false (set_fallbackMode true s))) r.

(** [handleConnectionLoss()] *)
Definition handleConnectionLoss (r : Runtime) : Runtime :=
  if retryCount (server r) <? maxRetries (server r) then
    setTimeout RestartTimer
      (on_server (set_retryCount (retryCount (server r) + 1)) r)
  else
    enableFallbackMode "Max retries reached" r.

(** What [spawn] did: returned a handle, or threw. *)
Inductive SpawnResult :=
| Spawned
| SpawnThrows (message : string).

(** [start()], up to the point where it starts polling: the polling loop
    only reads [isConnected].  When [spawn] throws, the assignment to
    [this.mcpProcess] does not happen and no handler or timer is
    registered. *)
Definition start (sp : SpawnResult) (r : Runtime) : Runtime :=
  let r := set_startCalls (S (startCalls r)) r in
  match sp with
  | SpawnThrows message =>
      enableFallbackMode ("Spawn error: " ++ message)%string r
  | Spawned =>
      let p := spawned r in
      let r := on_server (set_mcpProcess (Some (mkChild p false))) r in
      let r := set_running (running r ++ [p]) (set_spawned (S p) r) in
      setTimeout ConnectionMonitor r
  end.

(** [restart()] *)
Definition restart (sp : SpawnResult) (r : Runtime) : Runtime :=
  let r := stopHealthCheck r in
  let r := match mcpProcess (server r) with
           | Some c => on_server (set_mcpProcess (Some (mkChild (pid c) true))) r
           | None => r
           end in
  let r := on_server (set_isConnected false) r in
  let r := on_server (set_retryCount 0) r in
  start sp r.

(** [++this.requestId] on a JavaScript number: exact below 2^53; at 2^53
    the sum 2^53 + 1 rounds back to 2^53.  The counter starts at 0 and
    moves only through this function, so it never leaves [0, 2^53]. *)
Definition increment (n : Z) : Z :=
  if n <? 2 ^ 53 then n + 1 else n.

Inductive CallResult :=
| NotConnected             (* throw new Error('MCP server not connected') *)
| Issued (id : Z).         (* a promise for request.id was returned *)

(** [callMcpTool(toolName, params)]: the state after the call returns its
    promise, and what the call did. *)
Definition callMcpTool (toolName : string) (r : Runtime) : Runtime * CallResult :=
  if negb (isConnected (server r)) then (r, NotConnected)
  else
    let id := increment (requestId (server r)) in
    let r := on_server (set_requestId id) r in
    let r := setTimeout (ToolTimeout id) r in
    match mcpProcess (server r) with
    | Some c => (set_dataListeners (dataListeners r ++ [(pid c, id)]) r, Issued id)
    | None => (settle id (Rejected "TypeError") r, Issued id)
    end.

(** A chunk of child output: whether it contains the readiness marker,
    and, when [JSON.parse] accepts it, its [id] and [error.message]. *)
Record Chunk := mkChunk {
  containsReady : bool;
  parsed : option (Z * option string)
}.

(** The [stdout] 'data' handler registered inside the inner [try] of
    [start()] (also the [stderr] one). *)
Definition onReadyInner (c : Chunk) (r : Runtime) : Runtime :=
  if containsReady c then
    startHealthCheck
      (on_server (fun s => set_retryCount 0 (set_fallbackMode false (set_isConnected true s))) r)
  else r.

(** The 'data' handler registered after the inner [try]. *)
Definition onReadyOuter (c : Chunk) (r : Runtime) : Runtime :=
  if containsReady c then
    startHealthCheck
      (on_server (fun s => set_retryCount 0 (set_isConnected true s)) r)
  else r.

(** [onData] of the call with [request.id = rid]. *)
Definition onData (rid : Z) (c : Chunk) (r : Runtime) : Runtime :=
  match parsed c with
  | Some (id, err) =>
      if id =? rid then
        let r := clearTimeout (ToolTimeout rid) r in
        let r := match mcpProcess (server r) with
                 | Some cur => set_dataListeners
                                 (remove_listener (pid cur, rid) (dataListeners r)) r
                 | None => r
                 end in
        match err with
        | Some message => settle rid (Rejected message) r
        | None => settle rid Resolved r
        end
      else r
  | None => r         (* catch: non-JSON data is ignored *)
  end.

(** The [onData] listeners registered on the stdout of child [p], in
    registration order; [emit] iterates over a copy taken beforehand. *)
Definition listeners_of (p : nat) (ls : list (nat * Z)) : list Z :=
  map snd (filter (fun l => Nat.eqb (fst l) p) ls).

Definition onStdout (p : nat) (c : Chunk) (r : Runtime) : Runtime :=
  let r := onReadyOuter c (onReadyInner c r) in
  fold_left (fun r rid => onData rid c r) (listeners_of p (dataListeners r)) r.

Definition onStderr (c : Chunk) (r : Runtime) : Runtime :=
  onReadyOuter c (onReadyInner c r).

(** The two 'close' handlers of a child, in registration order. *)
Definition onCloseInner (r : Runtime) : Runtime :=
  handleConnectionLoss (on_server (set_isConnected false) r).

Definition onCloseOuter (r : Runtime) : Runtime :=
  let r := stopHealthCheck (on_server (set_isConnected false) r) in
  if retryCount (server r) <? maxRetries (server r) then
    on_server (set_retryCount (retryCount (server r) + 1))
      (setTimeout RestartTimer r)
  else r.

Definition remove_pid (p : nat) (ps : list nat) : list nat :=
  filter (fun q => negb (Nat.eqb q p)) ps.

Definition onClose (p : nat) (r : Runtime) : Runtime :=
  onCloseOuter (onCloseInner (set_running (remove_pid p (running r)) r)).

(** The two 'error' handlers of a child. *)
Definition onError (message : string) (r : Runtime) : Runtime :=
  let r := enableFallbackMode ("Process error: " ++ message)%string r in
  stopHealthCheck (on_server (set_isConnected false) r).

(** The connection monitor registered by [start()]. *)
Definition onConnectionMonitor (r : Runtime) : Runtime :=
  if negb (isConnected (server r)) then enableFallbackMode "Connection timeout" r
  else r.

(** The timeout callback of [callMcpTool]. *)
Definition onToolTimeout (id : Z) (r : Runtime) : Runtime :=
  settle id (Rejected "MCP request timeout") r.

(** The interval callback of [startHealthCheck()]. *)
Definition onHealthCheck (sp : SpawnResult) (r : Runtime) : Runtime :=
  match mcpProcess (server r) with
  | Some c => if killed c then start sp (on_server (set_isConnected false) r) else r
  | None => r
  end.

(** [getStatus()] *)
Record Status := mkStatus {
  st_isConnected : bool;
  st_fallbackMode : bool;
  st_lastError : option string;
  st_retryCount : Z;
  st_maxRetries : Z;
  st_hasProcess : bool;
  st_processKilled : bool;
  st_connectionAttempts : Z;
  st_maxConnectionAttempts : Z
}.

Definition getStatus (s : TatumMCPServer) : Status :=
  {| st_isConnected := isConnected s;
     st_fallbackMode := fallbackMode s;
     st_lastError := lastError s;
     st_retryCount := retryCount s;
     st_maxRetries := maxRetries s;
     st_hasProcess := match mcpProcess s with Some _ => true | None => false end;
     st_processKilled := match mcpProcess s with Some c => killed c | None => true end;
     st_connectionAttempts := connectionAttempts s;
     st_maxConnectionAttempts := maxConnectionAttempts s |}.

(** ** Events of the event loop *)

Inductive Event :=
| Boot (sp : SpawnResult)                (* mcpServer.start() at load *)
| Close (p : nat)                        (* 'close' of child p *)
| Stdout (p : nat) (c : Chunk)           (* 'data' on the stdout of p *)
| Stderr (p : nat) (c : Chunk)           (* 'data' on the stderr of p *)
| ProcError (p : nat) (message : string) (* 'error' of child p *)
| FireRestart (sp : SpawnResult)         (* a RestartTimer fires *)
| FireConnectionMonitor
| FireToolTimeout (id : Z)
| HealthTick (sp : SpawnResult)          (* the 30000 ms interval fires *)
| Restart (sp : SpawnResult)             (* POST /api/mcp-restart *)
| EnableFallback (reason : string)       (* enableFallbackMode from a route or getAIResponse *)
| CallTool (toolName : string).          (* callMcpTool *)

Definition step (r : Runtime) (e : Event) : Runtime :=
  match e with
  | Boot sp => start sp r
  | Close p => onClose p r
  | Stdout p c => onStdout p c r
  | Stderr _ c => onStderr c r
  | ProcError _ message => onError message r
  | FireRestart sp => start sp (clearTimeout RestartTimer r)
  | FireConnectionMonitor => onConnectionMonitor (clearTimeout ConnectionMonitor r)
  | FireToolTimeout id => onToolTimeout id (clearTimeout (ToolTimeout id) r)
  | HealthTick sp => onHealthCheck sp r
  | Restart sp => restart sp r
  | EnableFallback reason => enableFallbackMode reason r
  | CallTool toolName => fst (callMcpTool toolName r)
  end.

Definition mem_timer (t : Timer) (ts : list Timer) : bool := existsb (Timer_eqb t) ts.
Definition mem_pid (p : nat) (ps : list nat) : bool := existsb (Nat.eqb p) ps.

(** When the event loop can deliver an event. *)
Definition enabled (r : Runtime) (e : Event) : bool :=
  match e with
  | Boot _ => Nat.eqb (startCalls r) 0
  | Close p | Stdout p _ | Stderr p _ | ProcError p _ => mem_pid p (running r)
  | FireRestart _ => mem_timer RestartTimer (timers r)
  | FireConnectionMonitor => mem_timer ConnectionMonitor (timers r)
  | FireToolTimeout id => mem_timer (ToolTimeout id) (timers r)
  | HealthTick _ => healthCheckInterval (server r)
  | Restart _ | EnableFallback _ | CallTool _ => true
  end.

Definition run (r : Runtime) (tr : list Event) : Runtime := fold_left step tr r.

(** Every event of the trace is enabled when its turn comes. *)
Fixpoint feasible (r : Runtime) (tr : list Event) : bool :=
  match tr with
  | [] => true
  | e :: tr' => enabled r e && feasible (step r e) tr'
  end.

Inductive Reachable : Runtime -> Prop :=
| reach_boot : Reachable boot
| reach_step r e : Reachable r -> enabled r e = true -> Reachable (step r e).

(** The retry budget is within its bound. *)
Definition budget_ok (s : TatumMCPServer) : Prop :=
  0 <= retryCount s <= maxRetries s /\ maxRetries s = 3.

(** Number of scheduled [start()] calls that have not fired yet. *)
Definition pending_restarts (r : Runtime) : nat :=
  List.length (filter (Timer_eqb RestartTimer) (timers r)).

(** Events that set [retryCount] back to 0: [restart()] and output that
    contains the readiness marker. *)
Definition resets_budget (e : Event) : bool :=
  match e with
  | Restart _ => true
  | Stdout _ c | Stderr _ c => containsReady c
  | _ => false
  end.

Definition is_restart (e : Event) : bool :=
  match e with Restart _ => true | _ => false end.

(** Events that are neither an exit of a child nor a reset of the budget. *)
Definition quiet (e : Event) : bool :=
  match e with
  | Close _ => false
  | _ => negb (resets_budget e)
  end.

(** What [callMcpTool] assigns as [request.id], if the event is a call
    that gets one. *)
Definition issued (r : Runtime) (e : Event) : option Z :=
  match e with
  | CallTool toolName =>
      match snd (callMcpTool toolName r) with
      | Issued id => Some id
      | NotConnected => None
      end
  | _ => None
  end.

(** The correlation ids assigned along a trace, oldest first. *)
Fixpoint correlationIds (r : Runtime) (tr : list Event) : list Z :=
  match tr with
  | [] => []
  | e :: tr' =>
      match issued r e with
      | Some id => id :: correlationIds (step r e) tr'
      | None => correlationIds (step r e) tr'
      end
  end.

(** The reading of the specification in which an exhausted budget stays
    exhausted until [restart()]: once [retryCount] has reached
    [maxRetries], no exit of a child schedules [start()] unless a
    [restart()] came in between. *)
Definition exhausted_budget_is_permanent : Prop :=
  forall (tr1 tr2 : list Event) (p : nat),
    feasible boot (tr1 ++ tr2 ++ [Close p]) = true ->
    forallb (fun e => negb (is_restart e)) tr2 = true ->
    retryCount (server (run boot tr1)) = maxRetries (server (run boot tr1)) ->
    pending_restarts (run boot (tr1 ++ tr2 ++ [Close p]))
    = pending_restarts (run boot (tr1 ++ tr2)).

Definition ready : Chunk := {| containsReady := true; parsed := None |}.

(** A connected supervisor: the child printed the readiness marker. *)
Definition connected : Runtime := run boot [Boot Spawned; Stdout 0%nat ready].

End Supervisor.

(* ================================================================== *)
(** * JavaScript string operations used by the classifier              *)
(* ================================================================== *)

Module JSString.

Definition in_range (lo hi : N) (c : ascii) : bool :=
  (lo <=? N_of_ascii c)%N && (N_of_ascii c <=? hi)%N.

(** [toLowerCase] on one character: A-Z (65-90) move to a-z. *)
Definition lower_char (c : ascii) : ascii :=
  if in_range 65 90 c then ascii_of_N (N_of_ascii c + 32) else c.

(** [String.prototype.toLowerCase] *)
Fixpoint toLowerCase (s : string) : string :=
  match s with
  | EmptyString => EmptyString
  | String c s' => String (lower_char c) (toLowerCase s')
  end.

(** A string [toLowerCase] leaves as it is. *)
Definition lowered (s : string) : Prop := toLowerCase s = s.

Definition upper_char (c : ascii) : ascii :=
  if in_range 97 122 c then ascii_of_N (N_of_ascii c - 32) else c.

(** [String.prototype.toUpperCase] *)
Fixpoint toUpperCase (s : string) : string :=
  match s with
  | EmptyString => EmptyString
  | String c s' => String (upper_char c) (toUpperCase s')
  end.

(** [String.prototype.includes] *)
Fixpoint includes (s sub : string) : bool :=
  if prefix sub s then true
  else match s with
       | EmptyString => false
       | String _ s' => includes s' sub
       end.

(** The character class [[a-fA-F0-9]]. *)
Definition hex_digit (c : ascii) : bool :=
  in_range 97 102 c || in_range 65 70 c || in_range 48 57 c.

(** [[a-fA-F0-9]{n}] at the start of [s]: the characters it consumes. *)
Fixpoint take_hex (n : nat) (s : string) : option string :=
  match n with
  | O => Some EmptyString
  | S n' =>
      match s with
      | String c s' =>
          if hex_digit c then
            match take_hex n' s' with
            | Some h => Some (String c h)
            | None => None
            end
          else None
      | EmptyString => None
      end
  end.

(** The pattern [/0x[a-fA-F0-9]{40}/] anchored at the start of [s]. *)
Definition address_here (s : string) : option string :=
  match s with
  | String "0" (String "x" s') =>
      match take_hex 40 s' with
      | Some h => Some (String "0" (String "x" h))
      | None => None
      end
  | _ => None
  end.

(** [s.match(/0x[a-fA-F0-9]{40}/)]: the leftmost match, [null] if none. *)
Fixpoint match_address (s : string) : option string :=
  match address_here s with
  | Some a => Some a
  | None =>
      match s with
      | EmptyString => None
      | String _ s' => match_address s'
      end
  end.

(** [s] without its first [k] characters. *)
Fixpoint drop (k : nat) (s : string) : string :=
  match k, s with
  | O, _ => s
  | S k', String _ s' => drop k' s'
  | S _, EmptyString => EmptyString
  end.

Fixpoint all_hex (s : string) : bool :=
  match s with
  | EmptyString => true
  | String c s' => hex_digit c && all_hex s'
  end.

(** A valid address as a caller writes it: [0x] and 40 hexadecimal
    digits of either case. *)
Definition is_address (a : string) : bool :=
  match a with
  | String "0" (String "x" h) => Nat.eqb (String.length h) 40 && all_hex h
  | _ => false
  end.

End JSString.

(* ================================================================== *)
(** * Intent classifier                                                *)
(* ================================================================== *)

Module Classifier.
Import JSString.

Inductive ContextType :=
| portfolio | nft | wallet | chain | gas | chain_info | general.

(** The object literal returned by [getBlockchainContext]; a field the
    literal does not mention is [None]. *)
Record Context := mkContext {
  needsData : bool;
  ctx_chain : option string;
  type : ContextType;
  address : option string;
  multiChain : option bool
}.

(** [getBlockchainContext(message)] *)
Definition getBlockchainContext (message : string) : Context :=
  let lowerMessage := toLowerCase message in
  let isMultiChain :=
    includes lowerMessage "all chain" ||
    includes lowerMessage "multi-chain" ||
    includes lowerMessage "multi chain" ||
    includes lowerMessage "across all" ||
    includes lowerMessage "every chain" ||
    includes lowerMessage "all networks" ||
    includes lowerMessage "multi" ||
    includes lowerMessage "all chains" in
  match match_address lowerMessage with
  | Some address =>
      if includes lowerMessage "portfolio" || includes lowerMessage "portofolio" ||
         includes lowerMessage "analyze portfolio" ||
         includes lowerMessage "portfolio analysis" then
        mkContext true (Some "ethereum") portfolio (Some address)
          (Some (isMultiChain || includes lowerMessage "portfolio"))
      else if includes lowerMessage "nft" || includes lowerMessage "nft analysis" ||
              includes lowerMessage "nft gallery" ||
              includes lowerMessage "nft collection" ||
              includes lowerMessage "collection" then
        mkContext true (Some "ethereum") nft (Some address)
          (Some (isMultiChain || includes lowerMessage "nft"))
      else if includes lowerMessage "wallet" || includes lowerMessage "balance" ||
              includes lowerMessage "analysis" || includes lowerMessage "check" ||
              includes lowerMessage "analyze" ||
              includes lowerMessage "wallet analysis" then
        mkContext true (Some "ethereum") wallet (Some address)
          (Some (isMultiChain || includes lowerMessage "wallet"))
      else
        mkContext true (Some "ethereum") wallet (Some address) (Some isMultiChain)
  | None =>
      if includes lowerMessage "ethereum" || includes lowerMessage "eth" then
        mkContext true (Some "ethereum") chain None None
      else if includes lowerMessage "polygon" || includes lowerMessage "matic" then
        mkContext true (Some "polygon") chain None None
      else if includes lowerMessage "bsc" || includes lowerMessage "bnb" then
        mkContext true (Some "bsc") chain None None
      else if includes lowerMessage "arbitrum" || includes lowerMessage "arb" then
        mkContext true (Some "arbitrum") chain None None
      else if includes lowerMessage "base" then
        mkContext true (Some "base") chain None None
      else if includes lowerMessage "optimism" || includes lowerMessage "op" then
        mkContext true (Some "optimism") chain None None
      else if includes lowerMessage "gas" || includes lowerMessage "fee" ||
              includes lowerMessage "gas price" || includes lowerMessage "gas cost" then
        mkContext true (Some "ethereum") gas None None
      else if includes lowerMessage "chains" || includes lowerMessage "chain info" ||
              includes lowerMessage "supported chains" ||
              includes lowerMessage "blockchain info" ||
              includes lowerMessage "chain" then
        mkContext false (Some "ethereum") chain_info None None
      else if includes lowerMessage "nft" || includes lowerMessage "token" ||
              includes lowerMessage "collection" ||
              includes lowerMessage "total nft value" then
        mkContext true (Some "ethereum") nft None (Some isMultiChain)
      else if includes lowerMessage "wallet" || includes lowerMessage "balance" ||
              includes lowerMessage "hold" || includes lowerMessage "checker" then
        mkContext true (Some "ethereum") wallet None (Some isMultiChain)
      else if includes lowerMessage "portfolio" || includes lowerMessage "portofolio" then
        mkContext true (Some "ethereum") portfolio None (Some isMultiChain)
      else
        mkContext false None general None None
  end.

(** The message of the specification's scenario. *)
Definition scenario_message : string :=
  "portfolio 0xABCDEF0123456789ABCDEF0123456789ABCDEF01".

End Classifier.

(* ================================================================== *)
(** * Fallback responder                                               *)
(* ================================================================== *)

Module Fallback.

(** How an awaited call or a block of statements ends. *)
Inductive Completion (A : Type) : Type :=
| Normal (a : A)
| Throw (message : string).
Arguments Normal {A} a.
Arguments Throw {A} message.

(** [promise.catch(handler)] with a handler that returns a default. *)
Definition catch {A : Type} (c : Completion A) (handler : string -> A) : A :=
  match c with
  | Normal a => a
  | Throw message => handler message
  end.

(** The requests sent to the External Data Source. *)
Inductive Request :=
| Get_account_balance (chainEndpoint address : string)
    (* GET /v3/${chainEndpoint}/account/balance/${address} *)
| Get_wallet_balances (chain address : string)
    (* GET /v4/data/wallet/balances?chain=..&addresses=.. *)
| Get_blockchain_balance (chain address : string)
    (* GET /v3/blockchain/balance/${chain.toUpperCase()}/${address} *)
| Get_token_balance (chain address : string)
    (* GET /v3/blockchain/token/balance/${chain}/${address} *)
| Get_blockchain_gas (chain : string).
    (* GET /v3/blockchain/gas/${chain} *)

(** [response.data] of a balance request, as far as the code reads it;
    [usdValue] is 0 when the field is absent ([usdValue || 0]). *)
Record NativeBalance := mkNative {
  balance : option string;
  usdValue : Q
}.

(** The field [usdValue] of the body of an account-balance request, by
    what [usdValue || 0], [nativeValue + tokenValue] and [toFixed] make
    of the JSON value. *)
Inductive UsdValue :=
| UsdNumber (value : Q)
    (* a number; an absent or otherwise falsy field counts as 0 *)
| UsdTrue
    (* [true]: [true + 0] is the number 1; [true] has no [toFixed] *)
| UsdText (greater : bool).
    (* a non-empty string, an array or an object: [usdValue + 0] is a
       string, which has no [toFixed]; [greater] is what
       [chainTotal > 0] gives on that string *)

(** [response.data] of an account-balance request, as far as the code
    reads it. *)
Record AccountBalance := mkAccount {
  ab_balance : option string;
  ab_usdValue : UsdValue
}.

(** An entry of [response.data.result] of the wallet-balances request. *)
Record WalletToken := mkWalletToken {
  tokenAddress : option string;
  wt_balance : option string
}.

(** An entry of [response.data] of the token-balance request. *)
Record PortfolioToken := mkPortfolioToken {
  pt_symbol : string;
  pt_balance : string;
  pt_usdValue : Q
}.

(** A field of the gas response: absent (or falsy), or a number. *)
Inductive GasField :=
| Absent
| Gwei (value : Q).

Record GasBody := mkGasBody {
  gb_slow : GasField;
  gb_standard : GasField;
  gb_fast : GasField
}.

(** The External Data Source: what each request completes with.  A
    balance response without [data] is [Normal None]; a token response
    whose list is absent is [Normal []] ([data?.result || []],
    [data || []]). *)
Record DataSource := mkSource {
  account_balance : string -> string -> Completion (option AccountBalance);
  wallet_balances : string -> string -> Completion (list WalletToken);
  blockchain_balance : string -> string -> Completion (option NativeBalance);
  token_balance : string -> string -> Completion (list PortfolioToken);
  blockchain_gas : string -> Completion GasBody
}.

Definition chains : list string :=
  ["ethereum"; "polygon"; "bsc"; "arbitrum"; "base"; "optimism"].

(** [chainMapping[chainEndpoint] || chainEndpoint] *)
Definition chainMapping (chainEndpoint : string) : string :=
  if String.eqb chainEndpoint "ethereum" then "ethereum-mainnet"
  else if String.eqb chainEndpoint "polygon" then "polygon-mainnet"
  else if String.eqb chainEndpoint "bsc" then "bsc-mainnet"
  else if String.eqb chainEndpoint "arbitrum" then "arbitrum-one-mainnet"
  else if String.eqb chainEndpoint "base" then "base-mainnet"
  else if String.eqb chainEndpoint "optimism" then "optimism-mainnet"
  else chainEndpoint.

(** [balance || '0'] on an optional string; the empty string is falsy. *)
Definition orZero (balance : option string) : string :=
  match balance with
  | Some b => if String.eqb b "" then "0" else b
  | None => "0"
  end.

(** [x > 0] on numbers. *)
Definition positive (x : Q) : bool := negb (Qle_bool x 0).

(** ** Rendering numbers *)

Definition nl : string := String "010" EmptyString.

(** An integer in a template literal. *)
Definition decimal (n : Z) : string := NilZero.string_of_int (Z.to_int n).

Definition two_digits (n : Z) : string :=
  if n <? 10 then ("0" ++ decimal n)%string else decimal n.

(** [x.toFixed(2)]: the nearest multiple of 0.01, halves away from zero. *)
Definition toFixed2 (x : Q) : string :=
  let cents := Qfloor (Qabs x * 100 + 1 / 2)%Q in
  let digits := (decimal (cents / 100) ++ "." ++ two_digits (cents mod 100))%string in
  if positive (- x) then ("-" ++ digits)%string else digits.

(** [x.toFixed(1)]: the nearest multiple of 0.1, halves away from zero. *)
Definition toFixed1 (x : Q) : string :=
  let tenths := Qfloor (Qabs x * 10 + 1 / 2)%Q in
  let digits := (decimal (tenths / 10) ++ "." ++ decimal (tenths mod 10))%string in
  if positive (- x) then ("-" ++ digits)%string else digits.

(** ** Multi-chain wallet analysis *)

(** [nativeValue] in the object a callback returns: a number, or
    [true]. *)
Inductive NativeValue :=
| NativeNumber (value : Q)
| NativeTrue.

(** The number [nativeValue] stands for in a sum: [true + 0] is 1. *)
Definition nativeNumber (v : NativeValue) : Q :=
  match v with
  | NativeNumber value => value
  | NativeTrue => 1%Q
  end.

(** The object a per-chain callback of [getMultiChainWalletFallback]
    returns. *)
Record WalletChain := mkWalletChain {
  wc_chain : string;
  wc_nativeBalance : string;
  wc_nativeValue : NativeValue;
  wc_tokens : list WalletToken;
  wc_tokenValue : Q;
  wc_totalValue : Q
}.

(** The counters the callbacks share, and the requests sent so far. *)
Record Fanout := mkFanout {
  activeChains : Z;
  apiErrors : Z;
  sent : list Request
}.

Definition send (q : Request) (f : Fanout) : Fanout :=
  mkFanout (activeChains f) (apiErrors f) (sent f ++ [q]).

(** [if (chainTotal > 0 || tokenCount > 0) activeChains++] *)
Definition countActive (greater : bool) (tokenCount : Z) (f : Fanout) : Fanout :=
  if greater || (0 <? tokenCount)%Z
  then mkFanout (activeChains f + 1) (apiErrors f) (sent f)
  else f.

(** The [catch] of the callback: [apiErrors++] and the zero result. *)
Definition chainError (chain : string) (f : Fanout) : WalletChain * Fanout :=
  (mkWalletChain chain "0" (NativeNumber 0) [] 0 0,
   mkFanout (activeChains f) (apiErrors f + 1) (sent f)).

(** The callback of [chains.map] in [getMultiChainWalletFallback].  Each
    request has its own [.catch], which puts a default body in the place
    of a failed request; the [try] around the body catches what the body
    itself throws: the read of [usdValue] on a response without [data],
    before anything is counted, and [chainTotal.toFixed(2)] in the log
    line on a [chainTotal] that is not a number, after [activeChains]
    has been counted. *)
Definition walletChain (src : DataSource) (address chain : string) (f : Fanout)
  : WalletChain * Fanout :=
  let chainEndpoint := if String.eqb chain "ethereum" then "ethereum" else chain in
  let f := send (Get_account_balance chainEndpoint address) f in
  let nativeBalance :=
    catch (account_balance src chainEndpoint address)
          (fun _ => Some (mkAccount (Some "0") (UsdNumber 0))) in
  let f := send (Get_wallet_balances (chainMapping chainEndpoint) address) f in
  let tokens := catch (wallet_balances src (chainMapping chainEndpoint) address)
                      (fun _ => []) in
  match nativeBalance with
  | Some data =>
      let tokenValue := 0%Q in
      let tokenCount := Z.of_nat (List.length tokens) in
      match ab_usdValue data with
      | UsdNumber nativeValue =>
          let chainTotal := (nativeValue + tokenValue)%Q in
          let f := countActive (positive chainTotal) tokenCount f in
          (mkWalletChain chain (orZero (ab_balance data))
             (NativeNumber nativeValue) tokens tokenValue chainTotal, f)
      | UsdTrue =>
          let chainTotal := (1 + tokenValue)%Q in
          let f := countActive (positive chainTotal) tokenCount f in
          (mkWalletChain chain (orZero (ab_balance data))
             NativeTrue tokens tokenValue chainTotal, f)
      | UsdText greater =>
          (* counted, then [chainTotal.toFixed] throws *)
          chainError chain (countActive greater tokenCount f)
      end
  | None => chainError chain f
  end.

(** [Promise.all(chains.map(...))]: the callbacks only add to the
    counters, so the order in which they finish does not matter; they are
    run here in the order of [chains]. *)
Fixpoint walletChains (src : DataSource) (address : string) (cs : list string)
  (f : Fanout) : list WalletChain * Fanout :=
  match cs with
  | [] => ([], f)
  | c :: cs' =>
      let (r, f1) := walletChain src address c f in
      let (rs, f2) := walletChains src address cs' f1 in
      (r :: rs, f2)
  end.

(** What the response is built from. *)
Record WalletAnalysis := mkWalletAnalysis {
  wa_results : list WalletChain;
  wa_totalPortfolioValue : Q;
  wa_totalTokens : Z;
  wa_activeChains : Z;
  wa_apiErrors : Z
}.

Definition analyseWallet (src : DataSource) (address : string)
  : WalletAnalysis * list Request :=
  let (results, f) := walletChains src address chains (mkFanout 0 0 []) in
  (mkWalletAnalysis results
     (fold_left (fun total r => (total + wc_totalValue r)%Q) results 0%Q)
     (fold_left (fun total r => (total + Z.of_nat (List.length (wc_tokens r)))%Z) results 0%Z)
     (activeChains f) (apiErrors f),
   sent f).

(** The note added when [apiErrors > 0]. *)
Definition apiErrorsNote (a : WalletAnalysis) : option string :=
  if (0 <? wa_apiErrors a)%Z
  then Some ("**API Errors:** " ++ decimal (wa_apiErrors a) ++ "/6 chains" ++ nl)%string
  else None.

(** The head of the response, up to the chain breakdown. *)
Definition walletHeader (address : string) (a : WalletAnalysis) : string :=
  ("💰 **Multi-Chain Wallet Analysis (Fallback Mode)**" ++ nl ++ nl ++
   "**Address:** `" ++ address ++ "`" ++ nl ++
   "**Total Portfolio Value:** $" ++ toFixed2 (wa_totalPortfolioValue a) ++ nl ++
   "**Active Chains:** " ++ decimal (wa_activeChains a) ++ "/6" ++ nl ++
   "**Total Tokens:** " ++ decimal (wa_totalTokens a) ++ nl ++
   match apiErrorsNote a with Some note => note | None => "" end ++
   nl)%string.

(** The paragraph added when [apiErrors >= 3], and the closing line. *)
Definition walletFooter (a : WalletAnalysis) : string :=
  ((if (3 <=? wa_apiErrors a)%Z then
      nl ++ "⚠️ **API Issues Detected:**" ++ nl ++
      "• " ++ decimal (wa_apiErrors a) ++ "/6 chains failed to respond" ++ nl ++
      "• Please check your API key configuration" ++ nl ++
      "• Get a free API key from: https://tatum.io/" ++ nl
    else "") ++
   nl ++ "*This comprehensive analysis was generated using fallback mode with real blockchain data from all supported chains.*")%string.

(** [getMockWalletResponse(address)] *)
Definition getMockWalletResponse (address : string) : string :=
  ("💰 **Multi-Chain Wallet Analysis (Mock Data)**" ++ nl ++ nl ++
   "**Address:** `" ++ address ++ "`" ++ nl ++
   "**Total Portfolio Value:** $0.00" ++ nl ++
   "**Active Chains:** 0/6" ++ nl ++
   "**Total Tokens:** 0" ++ nl ++ nl ++
   "**Chain Breakdown:**" ++ nl ++
   "• No active chains found" ++ nl ++ nl ++
   "⚠️ **API Key Not Configured:**" ++ nl ++
   "• Please set TATUM_API_KEY in your .env file" ++ nl ++
   "• Get a free API key from: https://tatum.io/" ++ nl ++
   "• Example: TATUM_API_KEY=your_api_key_here" ++ nl ++ nl ++
   "*This is mock data. Configure your API key for real blockchain data.*")%string.

(** [!process.env.TATUM_API_KEY || process.env.TATUM_API_KEY ===
    'your_tatum_api_key_here'] *)
Definition apiKeyMissing (TATUM_API_KEY : option string) : bool :=
  match TATUM_API_KEY with
  | None => true
  | Some key => String.eqb key "" || String.eqb key "your_tatum_api_key_here"
  end.

(** The text returned by [getMultiChainWalletFallback]: the mock text,
    the analysis with its head and its closing lines, or the 'Fallback
    Error' text of the outer [catch] with the message of what was
    thrown.  The paragraphs between head and closing lines (the
    per-chain breakdown and the five largest holdings) list the entries
    of [wa_results]; they are carried here as data. *)
Inductive WalletReply :=
| MockData (text : string)
| Analysis (header : string) (details : WalletAnalysis) (footer : string)
| WalletError (message : string).

(** The filter of the chain breakdown: [chain.totalValue > 0 ||
    chain.tokens.length > 0]. *)
Definition walletChainActive (r : WalletChain) : bool :=
  positive (wc_totalValue r) || (0 <? Z.of_nat (List.length (wc_tokens r)))%Z.

(** The chain breakdown prints [chain.nativeValue.toFixed(2)] for every
    chain that passes its filter; this throws on [true]. *)
Definition breakdownThrows (a : WalletAnalysis) : bool :=
  existsb (fun r => walletChainActive r &&
                    match wc_nativeValue r with
                    | NativeTrue => true
                    | NativeNumber _ => false
                    end)
          (wa_results a).

(** [getMultiChainWalletFallback(address)]: how the call completes and
    the requests it sent. *)
Definition getMultiChainWalletFallback
  (TATUM_API_KEY : option string) (src : DataSource) (address : string)
  : Completion WalletReply * list Request :=
  if apiKeyMissing TATUM_API_KEY then
    (Normal (MockData (getMockWalletResponse address)), [])
  else
    let (a, requests) := analyseWallet src address in
    if breakdownThrows a then
      (Normal (WalletError "chain.nativeValue.toFixed is not a function"), requests)
    else
      (Normal (Analysis (walletHeader address a) a (walletFooter a)), requests).

(** The chains for which both requests failed. *)
Definition chainFailed (src : DataSource) (address chain : string) : bool :=
  let chainEndpoint := if String.eqb chain "ethereum" then "ethereum" else chain in
  match account_balance src chainEndpoint address,
        wallet_balances src (chainMapping chainEndpoint) address with
  | Throw _, Throw _ => true
  | _, _ => false
  end.

Definition failedChains (src : DataSource) (address : string) : Z :=
  Z.of_nat (List.length (filter (chainFailed src address) chains)).

(** The chains that answer both requests and have something on them: a
    number as [usdValue], and a positive value or at least one token. *)
Definition chainHolds (src : DataSource) (address chain : string) : bool :=
  let chainEndpoint := if String.eqb chain "ethereum" then "ethereum" else chain in
  match account_balance src chainEndpoint address,
        wallet_balances src (chainMapping chainEndpoint) address with
  | Normal (Some data), Normal tokens =>
      match ab_usdValue data with
      | UsdNumber value => positive value || (0 <? Z.of_nat (List.length tokens))%Z
      | _ => false
      end
  | _, _ => false
  end.

(** A source on which both requests for Ethereum fail and the other
    chains hold nothing. *)
Definition ethereumDown : DataSource :=
  mkSource
    (fun chainEndpoint _ =>
       if String.eqb chainEndpoint "ethereum"
       then Throw "Request failed with status code 500"
       else Normal (Some (mkAccount (Some "0") (UsdNumber 0))))
    (fun chain _ =>
       if String.eqb chain "ethereum-mainnet"
       then Throw "timeout of 10000ms exceeded"
       else Normal [])
    (fun _ _ => Throw "Request failed with status code 500")
    (fun _ _ => Throw "Request failed with status code 500")
    (fun _ => Throw "Request failed with status code 500").

(** The same, the other five chains holding one token each. *)
Definition ethereumDownOthersActive : DataSource :=
  mkSource
    (account_balance ethereumDown)
    (fun chain _ =>
       if String.eqb chain "ethereum-mainnet"
       then Throw "timeout of 10000ms exceeded"
       else Normal [mkWalletToken
                      (Some "0xdac17f958d2ee523a2206206994597c13d831ec7") (Some "25")])
    (blockchain_balance ethereumDown)
    (token_balance ethereumDown)
    (blockchain_gas ethereumDown).

Definition sampleAddress : string := "0x00000000219ab540356cbb839cbe05303d7705fa".

(** ** Multi-chain portfolio analysis *)

(** [CHAIN_CONFIGS[chain]?.name || chain] and [...?.symbol ||
    chain.toUpperCase()] for the six chains. *)
Definition configName (chain : string) : string :=
  if String.eqb chain "ethereum" then "Ethereum"
  else if String.eqb chain "polygon" then "Polygon"
  else if String.eqb chain "bsc" then "BNB Smart Chain"
  else if String.eqb chain "arbitrum" then "Arbitrum"
  else if String.eqb chain "base" then "Base"
  else if String.eqb chain "optimism" then "Optimism"
  else chain.

Definition configSymbol (chain : string) : string :=
  if String.eqb chain "polygon" then "MATIC"
  else if String.eqb chain "bsc" then "BNB"
  else if String.eqb chain "ethereum" || String.eqb chain "arbitrum"
          || String.eqb chain "base" || String.eqb chain "optimism" then "ETH"
  else JSString.toUpperCase chain.

(** An entry of [portfolioData.chains]. *)
Record PortfolioChain := mkPortfolioChain {
  pc_name : string;
  pc_symbol : string;
  pc_nativeBalance : string;
  pc_nativeValue : Q;
  pc_tokens : list (PortfolioToken * string);
  pc_tokenValue : Q;
  pc_totalValue : Q
}.

Record RiskAnalysis := mkRisk {
  diversification : Q;
  concentration : Q;
  stability : Q
}.

(** [portfolioData]; [pd_chains] lists the entries of the object in
    insertion order, as [Object.values] returns them. *)
Record PortfolioData := mkPortfolioData {
  totalValue : Q;
  totalTokens : Z;
  pd_activeChains : Z;
  pd_chains : list (string * PortfolioChain);
  allTokens : list (PortfolioToken * string);
  riskAnalysis : RiskAnalysis
}.

Definition emptyPortfolio : PortfolioData :=
  mkPortfolioData 0 0 0 [] [] (mkRisk 0 0 0).

(** The callback of [chains.map] in [getMultiChainPortfolioFallback].
    The body throws, before it has changed [portfolioData], when the
    balance response has no [data]; the [catch] then leaves
    [portfolioData] as it is. *)
Definition portfolioChain (src : DataSource) (address chain : string) (pd : PortfolioData)
  : PortfolioData :=
  let nativeBalance :=
    catch (blockchain_balance src (JSString.toUpperCase chain) address)
          (fun _ => Some (mkNative (Some "0") 0)) in
  let tokens := catch (token_balance src chain address) (fun _ => []) in
  match nativeBalance with
  | Some data =>
      let nativeValue := usdValue data in
      let tokenValue := fold_left (fun sum token => (sum + pt_usdValue token)%Q) tokens 0%Q in
      let chainTotal := (nativeValue + tokenValue)%Q in
      let tagged := map (fun token => (token, chain)) tokens in
      mkPortfolioData
        (totalValue pd + chainTotal)%Q
        (totalTokens pd + Z.of_nat (List.length tokens))%Z
        (if positive chainTotal then pd_activeChains pd + 1 else pd_activeChains pd)%Z
        (pd_chains pd ++
           [(chain, mkPortfolioChain (configName chain) (configSymbol chain)
                      (orZero (balance data))
                      nativeValue tagged tokenValue chainTotal)])
        (allTokens pd ++ tagged)
        (riskAnalysis pd)
  | None => pd
  end.

(** [Math.max(...values)]; [None] stands for [-Infinity], the value on an
    empty list. *)
Fixpoint Math_max (values : list Q) : option Q :=
  match values with
  | [] => None
  | v :: values' =>
      match Math_max values' with
      | Some m => Some (Qmax v m)
      | None => Some v
      end
  end.

(** The three assignments to [portfolioData.riskAnalysis].  With no entry
    in [chains] the maximum is [-Infinity], but then [totalValue] is 0
    and the maximum is not used. *)
Definition assessRisk (pd : PortfolioData) : RiskAnalysis :=
  let chainValues := map (fun c => pc_totalValue (snd c)) (pd_chains pd) in
  let maxChainValue := Math_max chainValues in
  {| concentration :=
       if positive (totalValue pd) then
         match maxChainValue with
         | Some m => (m / totalValue pd * 100)%Q
         | None => 0%Q
         end
       else 0%Q;
     diversification :=
       (inject_Z (pd_activeChains pd) / inject_Z (Z.of_nat (List.length chains)) * 100)%Q;
     stability :=
       if (0 <? totalTokens pd)%Z
       then Qmin 100 (inject_Z (totalTokens pd) / 10 * 100)%Q
       else 0%Q |}.

(** [portfolioData] as [getMultiChainPortfolioFallback] has it when it
    starts to build the response. *)
Definition analysePortfolio (src : DataSource) (address : string) : PortfolioData :=
  let pd := fold_left (fun pd chain => portfolioChain src address chain pd)
                      chains emptyPortfolio in
  mkPortfolioData (totalValue pd) (totalTokens pd) (pd_activeChains pd)
    (pd_chains pd) (allTokens pd) (assessRisk pd).

Definition chainValues (pd : PortfolioData) : list Q :=
  map (fun c => pc_totalValue (snd c)) (pd_chains pd).

(** The sum of a list of values. *)
Definition sumQ (values : list Q) : Q := fold_right Qplus 0%Q values.

(** What the per-chain callbacks keep true of [portfolioData]. *)
Definition consistent (pd : PortfolioData) : Prop :=
  (totalValue pd == sumQ (chainValues pd))%Q
  /\ pd_activeChains pd = Z.of_nat (List.length (filter positive (chainValues pd)))
  /\ (0 <= totalTokens pd)%Z.

(** A source on which Ethereum alone holds value. *)
Definition onlyEthereum : DataSource :=
  mkSource
    (fun _ _ => Normal (Some (mkAccount (Some "0") (UsdNumber 0))))
    (fun _ _ => Normal [])
    (fun chain _ =>
       if String.eqb chain "ETHEREUM"
       then Normal (Some (mkNative (Some "1.5") 4200))
       else Normal (Some (mkNative (Some "0") 0)))
    (fun chain _ =>
       if String.eqb chain "ethereum"
       then Normal [mkPortfolioToken "USDT" "25" 25; mkPortfolioToken "DAI" "10" 10]
       else if String.eqb chain "bsc" then Throw "Request failed with status code 429"
       else Normal [])
    (fun _ => Normal (mkGasBody (Gwei 12.5) (Gwei 20) (Gwei 30))).

(** A source on which Ethereum alone holds a value, a negative one. *)
Definition ethereumInDebt : DataSource :=
  mkSource
    (fun _ _ => Normal (Some (mkAccount (Some "0") (UsdNumber 0))))
    (fun _ _ => Normal [])
    (fun chain _ =>
       if String.eqb chain "ETHEREUM"
       then Normal (Some (mkNative (Some "0") (-5)))
       else Normal (Some (mkNative (Some "0") 0)))
    (fun _ _ => Normal [])
    (fun _ => Normal (mkGasBody (Gwei 12.5) (Gwei 20) (Gwei 30))).

(** A source on which Ethereum holds 10 and Polygon -20. *)
Definition polygonInDebt : DataSource :=
  mkSource
    (fun _ _ => Normal (Some (mkAccount (Some "0") (UsdNumber 0))))
    (fun _ _ => Normal [])
    (fun chain _ =>
       if String.eqb chain "ETHEREUM"
       then Normal (Some (mkNative (Some "1") 10))
       else if String.eqb chain "POLYGON"
       then Normal (Some (mkNative (Some "0") (-20)))
       else Normal (Some (mkNative (Some "0") 0)))
    (fun _ _ => Normal [])
    (fun _ => Normal (mkGasBody (Gwei 12.5) (Gwei 20) (Gwei 30))).

(** ** Gas prices *)

(** [Math.round]: the nearest integer, halves up. *)
Definition Math_round (x : Q) : Z := Qfloor (x + 1 / 2)%Q.

(** The [gasPrice] object of the route [GET /api/gas/:chain]. *)
Record GasPrice := mkGasPrice {
  slow : Z;
  standard : Z;
  fast : Z;
  baseFee : Z
}.

(** The object the gas route computes from [gasPriceValue], the fetched
    price in Gwei as [toFixed(2)] and [parseFloat] left it. *)
Definition gasRoute (gasPriceValue : Q) : GasPrice :=
  {| slow := Math_round (gasPriceValue * 0.8)%Q;
     standard := Math_round gasPriceValue;
     fast := Math_round (gasPriceValue * 1.2)%Q;
     baseFee := Math_round (gasPriceValue * 0.9)%Q |}.

(** What a template hole [${field || 'N/A'}] shows. *)
Inductive Shown :=
| NA
| Value (v : Q).

Definition orNA (f : GasField) : Shown :=
  match f with
  | Absent => NA
  | Gwei v => if Qeq_bool v 0 then NA else Value v
  end.

(** The text of [getGasDataFallback]: the chain and its three holes, or
    the 'Fallback Error' text with the message of the failure. *)
Inductive GasReply :=
| GasPrices (chain : string) (slow standard fast : Shown)
| GasError (message : string).

(** [getGasDataFallback(chain)] *)
Definition getGasDataFallback (src : DataSource) (chain : string) : Completion GasReply :=
  match blockchain_gas src chain with
  | Normal data =>
      Normal (GasPrices chain (orNA (gb_slow data)) (orNA (gb_standard data))
                (orNA (gb_fast data)))
  | Throw message => Normal (GasError message)
  end.

End Fallback.

(* ================================================================== *)
(** * Fallback responder: recommendations, NFTs, single-chain wallet   *)
(* ================================================================== *)

Module Responder.
Import Fallback.

(** The requests of the wallet fan-out: two per chain, in the order of
    [chains]. *)
Definition walletRequests (address : string) : list Request :=
  flat_map (fun chain => [Get_account_balance chain address;
                          Get_wallet_balances (chainMapping chain) address])
           chains.

(** The lines under 'Portfolio Recommendations' of
    [getMultiChainPortfolioFallback]. *)
Inductive Recommendation :=
| DiversifyChains      (* Consider diversifying across more chains *)
| Rebalance            (* High concentration risk - consider rebalancing *)
| AddTokens            (* Consider adding more tokens for better diversification *)
| GoodDiversification. (* Good multi-chain diversification! *)

Definition recommendations (pd : PortfolioData) : list Recommendation :=
  (if positive (50 - diversification (riskAnalysis pd)) then [DiversifyChains] else [])
  ++ (if positive (concentration (riskAnalysis pd) - 70) then [Rebalance] else [])
  ++ (if (totalTokens pd <? 5)%Z then [AddTokens] else [])
  ++ (if (4 <=? pd_activeChains pd)%Z then [GoodDiversification] else []).

(** An entry of [response.data] of the NFT balance request. *)
Record NFT := mkNFT {
  contractAddress : option string;
  nft_name : option string;
  tokenId : option string
}.

(** [{ ...nft, chain, collectionAddress: nft.contractAddress ||
    'unknown' }] *)
Record ChainNFT := mkChainNFT {
  cn_nft : NFT;
  cn_chain : string;
  collectionAddress : string
}.

Definition orUnknown (contractAddress : option string) : string :=
  match contractAddress with
  | Some a => if String.eqb a "" then "unknown" else a
  | None => "unknown"
  end.

(** [nftData]; [collections] is the [Set] in insertion order. *)
Record NftData := mkNftData {
  totalNFTs : Z;
  nft_activeChains : Z;
  nft_chains : list (string * list ChainNFT);
  allNFTs : list ChainNFT;
  collections : list string
}.

Definition emptyNftData : NftData := mkNftData 0 0 [] [] [].

(** [Set.prototype.add] *)
Definition set_add (key : string) (s : list string) : list string :=
  if existsb (String.eqb key) s then s else s ++ [key].

(** The key [`${nft.collectionAddress}-${chain}`]. *)
Definition collectionKey (nft : ChainNFT) : string :=
  (collectionAddress nft ++ "-" ++ cn_chain nft)%string.

(** [response.data] of the NFT balance request, as [nfts.length] and
    [nfts.map] find it. *)
Inductive NftBody :=
| NftList (nfts : list NFT)
    (* an array of entries; a falsy body, which [|| []] makes empty *)
| NftUnusable (nonEmpty : bool).
    (* a body on which [nfts.map] throws: a string, a number, an object,
       an array holding [null]; [nonEmpty] is what [nfts.length > 0]
       gives on it *)

(** The callback of [chains.map] in [getMultiChainNFTFallback];
    [nft_balance] is the NFT balance request of the External Data
    Source, a failure of which is caught as an empty list.
    [activeChains] is counted before [nfts.map]; when that throws, the
    [catch] of the callback leaves [nftData] with the counter moved and
    nothing else changed. *)
Definition nftChain (nft_balance : string -> string -> Completion NftBody)
  (address chain : string) (d : NftData) : NftData :=
  match catch (nft_balance chain address) (fun _ => NftList []) with
  | NftList nfts =>
      let chainNFTs :=
        map (fun nft => mkChainNFT nft chain (orUnknown (contractAddress nft))) nfts in
      mkNftData
        (totalNFTs d + Z.of_nat (List.length chainNFTs))%Z
        (if (0 <? Z.of_nat (List.length nfts))%Z
         then nft_activeChains d + 1 else nft_activeChains d)%Z
        (nft_chains d ++ [(chain, chainNFTs)])
        (allNFTs d ++ chainNFTs)
        (fold_left (fun s nft => set_add (collectionKey nft) s) chainNFTs (collections d))
  | NftUnusable nonEmpty =>
      mkNftData
        (totalNFTs d)
        (if nonEmpty then nft_activeChains d + 1 else nft_activeChains d)%Z
        (nft_chains d) (allNFTs d) (collections d)
  end.

(** [nftData] when [getMultiChainNFTFallback] starts to build the
    response. *)
Definition analyseNFTs (nft_balance : string -> string -> Completion NftBody)
  (address : string) : NftData :=
  fold_left (fun d chain => nftChain nft_balance address chain d) chains emptyNftData.

(** The paragraph under 'NFT Portfolio Insights'. *)
Inductive Insight :=
| NoNFTs                 (* No NFTs found across all chains *)
| SmallCollection        (* Small NFT collection - consider expanding *)
| WellDiversified        (* Well-diversified NFT portfolio across multiple chains! *)
| FocusOn (chains : Z).  (* Current focus on N chain(s) *)

Definition insight (d : NftData) : Insight :=
  if (totalNFTs d =? 0)%Z then NoNFTs
  else if (totalNFTs d <? 5)%Z then SmallCollection
  else if (3 <=? nft_activeChains d)%Z then WellDiversified
  else FocusOn (nft_activeChains d).

(** [tokenAddress.substring(0, 6) + '...' +
    tokenAddress.substring(tokenAddress.length - 4)] *)
Definition abbreviate (tokenAddress : string) : string :=
  (substring 0 6 tokenAddress ++ "..."
   ++ substring (String.length tokenAddress - 4) 4 tokenAddress)%string.

(** What [getWalletDataFallback] returns: the analysis with the native
    balance, the holdings (symbol, balance) and, when there are
    holdings, the total value it prints; or the 'Fallback Error' text
    with the message of what was thrown. *)
Inductive WalletDataReply :=
| WalletReport (address chain nativeBalance : string)
    (holdings : list (string * string)) (totalValue : option string)
| FallbackError (message : string).

Definition holding (token : WalletToken) : string * string :=
  (abbreviate (match tokenAddress token with
               | Some a => if String.eqb a "" then "Unknown" else a
               | None => "Unknown"
               end),
   orZero (wt_balance token)).

(** [getWalletDataFallback(address, chain)]: the two requests are
    awaited one after the other inside one [try]; the sum of the USD
    values it prints adds 0 for every token. *)
Definition getWalletDataFallback (src : DataSource) (address chain : string)
  : WalletDataReply * list Request :=
  let chainEndpoint := if String.eqb chain "ethereum" then "ethereum" else chain in
  let first := Get_account_balance chainEndpoint address in
  match account_balance src chainEndpoint address with
  | Throw message => (FallbackError message, [first])
  | Normal nativeBalance =>
      let second := Get_wallet_balances (chainMapping chainEndpoint) address in
      match wallet_balances src (chainMapping chainEndpoint) address with
      | Throw message => (FallbackError message, [first; second])
      | Normal tokens =>
          match nativeBalance with
          | None =>
              (FallbackError "Cannot read properties of undefined (reading 'balance')",
               [first; second])
          | Some data =>
              let totalValue :=
                fold_left (fun total _ => (total + 0)%Q) tokens 0%Q in
              (WalletReport address chain (orZero (ab_balance data))
                 (map holding tokens)
                 (match tokens with
                  | [] => None
                  | _ => Some (toFixed2 totalValue)
                  end),
               [first; second])
          end
      end
  end.

(** [tokens.sort((a, b) => (b.usdValue || 0) - (a.usdValue || 0))]: the
    sort is stable and puts the larger value first; [insertByValue] puts
    a token in front of the sorted tokens that followed it. *)
Fixpoint insertByValue (token : PortfolioToken) (sorted : list PortfolioToken)
  : list PortfolioToken :=
  match sorted with
  | [] => [token]
  | other :: rest =>
      if positive (pt_usdValue other - pt_usdValue token)
      then other :: insertByValue token rest
      else token :: other :: rest
  end.

Definition sortByValue (tokens : list PortfolioToken) : list PortfolioToken :=
  fold_right insertByValue [] tokens.

(** A line under 'Token Holdings' of [getPortfolioDataFallback];
    [percentage] is the text that is printed. *)
Record PortfolioLine := mkPortfolioLine {
  pl_token : PortfolioToken;
  percentage : string
}.

(** The body of [sortedTokens.forEach]: [totalValue] grows before the
    percentage is taken. *)
Definition portfolioLine (state : list PortfolioLine * Q) (token : PortfolioToken)
  : list PortfolioLine * Q :=
  let usdValue := pt_usdValue token in
  let totalValue := (snd state + usdValue)%Q in
  (fst state ++
     [mkPortfolioLine token
        (if positive totalValue then toFixed1 (usdValue / totalValue * 100)%Q
         else "0.0")],
   totalValue).

(** What [getPortfolioDataFallback] returns: the report with the native
    balance and value, the token lines and, when there are tokens, the
    total it prints; or the 'Fallback Error' text with the message of
    what was thrown. *)
Inductive PortfolioReply :=
| PortfolioReport (address chain nativeBalance : string) (nativeValue : Q)
    (lines : list PortfolioLine) (totalValue : option Q)
| PortfolioError (message : string).

(** [getPortfolioDataFallback(address, chain)] *)
Definition getPortfolioDataFallback (src : DataSource) (address chain : string)
  : PortfolioReply * list Request :=
  let first := Get_blockchain_balance (JSString.toUpperCase chain) address in
  match blockchain_balance src (JSString.toUpperCase chain) address with
  | Throw message => (PortfolioError message, [first])
  | Normal nativeBalance =>
      let second := Get_token_balance chain address in
      match token_balance src chain address with
      | Throw message => (PortfolioError message, [first; second])
      | Normal tokens =>
          match nativeBalance with
          | None =>
              (PortfolioError "Cannot read properties of undefined (reading 'usdValue')",
               [first; second])
          | Some data =>
              let nativeValue := usdValue data in
              let sortedTokens := sortByValue tokens in
              let result := fold_left portfolioLine sortedTokens ([], nativeValue) in
              (PortfolioReport address chain (orZero (balance data)) nativeValue
                 (fst result)
                 (match tokens with
                  | [] => None
                  | _ => Some (snd result)
                  end),
               [first; second])
          end
      end
  end.

(** The chains the 'NFT Distribution by Chain' lists: the entries of
    [nftData.chains] with [count > 0]. *)
Definition listedChains (d : NftData) : list (string * list ChainNFT) :=
  filter (fun c => (0 <? Z.of_nat (List.length (snd c)))%Z) (nft_chains d).

(** What every step of the multi-chain NFT analysis keeps. *)
Definition nft_invariant (d : NftData) : Prop :=
  totalNFTs d = Z.of_nat (List.length (allNFTs d))
  /\ (0 <= nft_activeChains d)%Z
  /\ (nft_activeChains d = 0 -> totalNFTs d = 0)%Z
  /\ (Z.of_nat (List.length (listedChains d)) <= nft_activeChains d)%Z
  /\ NoDup (collections d)
  /\ forall k, In k (collections d) <-> In k (map collectionKey (allNFTs d)).

(** No token is listed under one of smaller value. *)
Definition largest_first (tokens : list PortfolioToken) : Prop :=
  StronglySorted (fun a b => (pt_usdValue b <= pt_usdValue a)%Q) tokens.

(** A line whose percentage is printed from a quotient that lies
    between 0 and 100 and is at least the share of the token in
    [whole]. *)
Definition overstated (whole : Q) (line : PortfolioLine) : Prop :=
  exists quotient : Q,
    percentage line = toFixed1 quotient
    /\ (0 <= quotient /\ quotient <= 100
        /\ pt_usdValue (pl_token line) * 100 <= quotient * whole)%Q.

End Responder.

(* ================================================================== *)
(** * Dispatch of a chat message                                       *)
(* ================================================================== *)

Module Dispatch.
Import JSString Classifier Supervisor.

(** The context object as [getFallbackResponse] reads it: the fields of
    the classifier's literal, and [tokenAddress] and [tokenIds], which no
    literal of [getBlockchainContext] sets. *)
Record FallbackContext := mkFallbackContext {
  base : Context;
  tokenAddress : option string;
  tokenIds : option string
}.

Definition fromClassifier (context : Context) : FallbackContext :=
  mkFallbackContext context None None.

(** The method [getFallbackResponse] awaits, with its arguments; a
    [chain] argument left [undefined] takes the default 'ethereum'. *)
Inductive FallbackCall :=
| MultiChainWallet (address : string)
| WalletData (address chain : string)
| MultiChainPortfolio (address : string)
| PortfolioData (address chain : string)
| MultiChainNFT (address : string)
| NFTData (tokenAddress : string) (tokenIds : option string) (chain : string)
| ChainData (chain : string)
| ChainInfo
| GasData (chain : string)
| General (message : string).

(** A string in a condition: [undefined] and the empty string are
    falsy. *)
Definition truthy (s : option string) : bool :=
  match s with
  | Some s => negb (String.eqb s "")
  | None => false
  end.

Definition text (s : option string) : string :=
  match s with Some s => s | None => "" end.

(** A flag in a condition. *)
Definition set (b : option bool) : bool :=
  match b with Some true => true | _ => false end.

Definition orEthereum (chain : option string) : string :=
  match chain with Some c => c | None => "ethereum" end.

Definition is_type (a b : ContextType) : bool :=
  match a, b with
  | portfolio, portfolio | nft, nft | wallet, wallet | chain, chain
  | gas, gas | chain_info, chain_info | general, general => true
  | _, _ => false
  end.

(** [getFallbackResponse(message, context)]: the call it awaits. *)
Definition getFallbackResponse (message : string) (context : FallbackContext)
  : FallbackCall :=
  let lower := toLowerCase message in
  let c := base context in
  if is_type (type c) wallet && truthy (address c) then
    if set (multiChain c) || includes lower "all chain" || includes lower "multi-chain"
    then MultiChainWallet (text (address c))
    else WalletData (text (address c)) (orEthereum (ctx_chain c))
  else if is_type (type c) portfolio && truthy (address c) then
    if set (multiChain c) || includes lower "all chain" || includes lower "multi-chain"
       || includes lower "portfolio"
    then MultiChainPortfolio (text (address c))
    else PortfolioData (text (address c)) (orEthereum (ctx_chain c))
  else if is_type (type c) nft && truthy (address c) then
    if set (multiChain c) || includes lower "all chain" || includes lower "multi-chain"
       || includes lower "nft"
    then MultiChainNFT (text (address c))
    else if truthy (tokenAddress context)
    then NFTData (text (tokenAddress context)) (tokenIds context) (orEthereum (ctx_chain c))
    else MultiChainNFT (text (address c))
  else if is_type (type c) chain then ChainData (orEthereum (ctx_chain c))
  else if is_type (type c) chain_info then ChainInfo
  else if is_type (type c) gas then GasData (orEthereum (ctx_chain c))
  else General message.

(** The tool [getAIResponse] asks for, by type of context. *)
Definition toolFor (t : ContextType) : string :=
  match t with
  | wallet | portfolio => "get_wallet_portfolio"
  | nft => "get_tokens"
  | chain => "gateway_get_supported_chains"
  | _ => "get_wallet_portfolio"
  end.

(** The formatter applied to the result of the tool. *)
Inductive Formatter :=
| formatMCPWalletResponse
| formatMCPPortfolioResponse
| formatMCPNFTResponse
| formatMCPChainResponse
| generalTemplate.

Definition formatterFor (t : ContextType) : Formatter :=
  match t with
  | wallet => formatMCPWalletResponse
  | portfolio => formatMCPPortfolioResponse
  | nft => formatMCPNFTResponse
  | chain => formatMCPChainResponse
  | _ => formatMCPWalletResponse
  end.

(** Where the text of the answer comes from. *)
Inductive Answer :=
| FromTool (formatter : Formatter)
| FromFallback (call : FallbackCall).

(** [getAIResponse] has answered, or it awaits the promise of a tool
    call. *)
Inductive Progress :=
| Answered (a : Answer)
| Awaiting (id : Z) (toolName : string).

(** [getAIResponse(message)] up to its first [await] on a tool call. *)
Definition getAIResponse (message : string) (r : Runtime) : Runtime * Progress :=
  let r := if negb (isConnected (server r)) && negb (fallbackMode (server r))
           then enableFallbackMode "Auto-enable fallback due to MCP unavailability" r
           else r in
  let context := getBlockchainContext message in
  if needsData context then
    match callMcpTool (toolFor (type context)) r with
    | (r', Issued id) => (r', Awaiting id (toolFor (type context)))
    | (r', NotConnected) =>
        (enableFallbackMode "MCP tool error: MCP server not connected" r',
         Answered (FromFallback (getFallbackResponse message (fromClassifier context))))
    end
  else if isConnected (server r) then
    match callMcpTool "gateway_get_supported_chains" r with
    | (r', Issued id) => (r', Awaiting id "gateway_get_supported_chains")
    | (r', NotConnected) =>
        (enableFallbackMode "MCP general error: MCP server not connected" r',
         Answered (FromFallback (General message)))
    end
  else (r, Answered (FromFallback (General message))).

(** [getAIResponse] from the point where the promise of its tool call is
    settled: a result is formatted, a rejection switches to fallback
    mode and to the fallback responder. *)
Definition getAIResponse_settled (message : string) (o : Settlement) (r : Runtime)
  : Runtime * Answer :=
  let context := getBlockchainContext message in
  if needsData context then
    match o with
    | Resolved => (r, FromTool (formatterFor (type context)))
    | Rejected error =>
        (enableFallbackMode ("MCP tool error: " ++ error)%string r,
         FromFallback (getFallbackResponse message (fromClassifier context)))
    end
  else
    match o with
    | Resolved => (r, FromTool generalTemplate)
    | Rejected error =>
        (enableFallbackMode ("MCP general error: " ++ error)%string r,
         FromFallback (General message))
    end.

(** The address check of the Telegram commands and of the web page,
    [/^0x[a-fA-F0-9]{40}$/]. *)
Definition isValidAddress (address : string) : bool := is_address address.

(** The chat messages the Telegram commands [/analyze], [/portfolio] and
    [/nft] send to [POST /api/chat]. *)
Definition analyzeCommand (address : string) : string :=
  ("Analyze wallet " ++ address)%string.
Definition portfolioCommand (address : string) : string :=
  ("Portfolio analysis " ++ address)%string.
Definition nftCommand (address : string) : string :=
  ("NFT analysis " ++ address)%string.

(** [extractWalletAddress] of the Telegram bot: the first match of
    [/0x[a-fA-F0-9]{40}/g] in the message as written, [null] if none. *)
Definition extractWalletAddress (message : string) : option string :=
  match_address message.

End Dispatch.

(* ================================================================== *)
(** * Kinds of events and state conditions of the supervisor           *)
(* ================================================================== *)

Module Traces.
Import Supervisor.

(** Output without the readiness marker; every other event. *)
Definition no_ready (e : Event) : bool :=
  match e with
  | Stdout _ c | Stderr _ c => negb (containsReady c)
  | _ => true
  end.

(** [spawn] does not throw in this event. *)
Definition spawn_succeeds (e : Event) : bool :=
  match e with
  | Boot sp | FireRestart sp | HealthTick sp | Restart sp =>
      match sp with Spawned => true | SpawnThrows _ => false end
  | _ => true
  end.

(** The events that run on their own between two resets of the budget:
    everything but the first [start()], the health check, [restart()]
    and output with the readiness marker. *)
Definition automatic (e : Event) : bool :=
  match e with
  | Boot _ | HealthTick _ | Restart _ => false
  | _ => no_ready e
  end.

(** The current handle, if any, has not been through [kill()]. *)
Definition handle_alive (r : Runtime) : Prop :=
  match mcpProcess (server r) with
  | Some c => killed c = false
  | None => True
  end.

(** A connected supervisor has a handle and a registered health check;
    a child that can still emit events implies a handle. *)
Definition connection_ok (r : Runtime) : Prop :=
  (isConnected (server r) = true ->
     mcpProcess (server r) <> None /\ healthCheckInterval (server r) = true)
  /\ (running r <> [] -> mcpProcess (server r) <> None).

(** [start()] calls made or still scheduled, less the retries used. *)
Definition restart_balance (r : Runtime) : Z :=
  Z.of_nat (startCalls r) + Z.of_nat (pending_restarts r) - retryCount (server r).

(** A settlement, once there, stays. *)
(** What the event loop holds for the call with request id [rid] is the
    same in both states: its settlement, its timeout and its listeners. *)
Definition same_call (rid : Z) (r r' : Runtime) : Prop :=
  settled rid (promises r') = settled rid (promises r)
  /\ mem_timer (ToolTimeout rid) (timers r') = mem_timer (ToolTimeout rid) (timers r)
  /\ forall q, In (q, rid) (dataListeners r') <-> In (q, rid) (dataListeners r).

Definition keeps_settlements (ps ps' : list (Z * Settlement)) : Prop :=
  forall id o, settled id ps = Some o -> settled id ps' = Some o.

(** What the server goes through: events of the event loop and chat
    messages, in any order. *)
Inductive Activity :=
| Happens (e : Event)
| Asks (message : string).

(** The state after the activities and, in their order, how far
    [getAIResponse] came with each message. *)
Fixpoint session (r : Runtime) (acts : list Activity) : Runtime * list Dispatch.Progress :=
  match acts with
  | [] => (r, [])
  | Happens e :: acts' => session (step r e) acts'
  | Asks message :: acts' =>
      let (r1, progress) := Dispatch.getAIResponse message r in
      let (r2, rest) := session r1 acts' in
      (r2, progress :: rest)
  end.

(** No output with the readiness marker among the activities. *)
Definition without_ready (acts : list Activity) : bool :=
  forallb (fun a => match a with
                    | Happens e => no_ready e
                    | Asks _ => true
                    end) acts.

End Traces.

(* ================================================================== *)
(** * Properties of the supervisor                                     *)
(* ================================================================== *)

Section SupervisorProperties.
Import Supervisor.

Ltac unfold_methods :=
  unfold step, onClose, onCloseOuter, onCloseInner, handleConnectionLoss,
    onStderr, onReadyOuter, onReadyInner, onError, onConnectionMonitor,
    onToolTimeout, onHealthCheck, restart, start, callMcpTool,
    enableFallbackMode, startHealthCheck, stopHealthCheck, settle,
    setTimeout, clearTimeout in *.

Ltac split_ifs :=
  repeat match goal with
  | |- context [if ?x <? ?y then _ else _] => destruct (Z.ltb_spec x y)
  | |- context [if ?b then _ else _] => destruct b eqn:?
  | |- context [match ?x with _ => _ end] => destruct x eqn:?
  end.

Lemma server_onData rid c r : server (onData rid c r) = server r.
Proof.
  unfold onData, settle, clearTimeout.
  split_ifs; reflexivity.
Qed.

Lemma server_fold_onData c ids r :
  server (fold_left (fun r rid => onData rid c r) ids r) = server r.
Proof.
  revert r; induction ids as [|i ids IH]; intro r; simpl; [reflexivity|].
  rewrite IH. apply server_onData.
Qed.

Lemma server_onStdout p c r : server (onStdout p c r) = server (onStderr c r).
Proof. unfold onStdout. apply server_fold_onData. Qed.

Lemma step_budget_ok r e : budget_ok (server r) -> budget_ok (server (step r e)).
Proof.
  unfold budget_ok. intros [Hrc Hmax].
  destruct e; try (simpl step; rewrite server_onStdout);
    unfold_methods; split_ifs; simpl in *; lia.
Qed.

Lemma reachable_budget_ok r : Reachable r -> budget_ok (server r).
Proof.
  induction 1 as [|r e _ IH _].
  - unfold budget_ok; simpl; lia.
  - apply step_budget_ok, IH.
Qed.

Lemma feasible_reachable tr : forall r,
  Reachable r -> feasible r tr = true -> Reachable (run r tr).
Proof.
  induction tr as [|e tr IH]; intros r Hr Hf; simpl in *; [exact Hr|].
  apply andb_prop in Hf. destruct Hf as [He Hf].
  apply IH; [apply reach_step; assumption | exact Hf].
Qed.

(** An exit of a child when the budget is used up: nothing is scheduled,
    [start()] is not called, the counter stays. *)
Lemma close_when_exhausted r p :
  retryCount (server r) = maxRetries (server r) ->
  pending_restarts (step r (Close p)) = pending_restarts r
  /\ startCalls (step r (Close p)) = startCalls r
  /\ retryCount (server (step r (Close p))) = retryCount (server r)
  /\ maxRetries (server (step r (Close p))) = maxRetries (server r).
Proof.
  intro H. unfold pending_restarts. unfold_methods. simpl. rewrite H.
  rewrite Z.ltb_irrefl. simpl. rewrite H, Z.ltb_irrefl. simpl. auto.
Qed.

(** Only [restart()] and the readiness marker lower [retryCount]. *)
Lemma only_resets_lower_budget r e :
  retryCount (server (step r e)) < retryCount (server r) -> resets_budget e = true.
Proof.
  destruct e; try (simpl step; rewrite server_onStdout); simpl resets_budget;
    unfold_methods; split_ifs; simpl in *; intros; try reflexivity; try lia.
Qed.

Lemma restart_resets r sp :
  retryCount (server (restart sp r)) = 0
  /\ startCalls (restart sp r) = S (startCalls r).
Proof. unfold_methods; split_ifs; simpl; auto. Qed.

(** C1 (amended).  In every reachable state [getStatus()] reports
    [retryCount <= maxRetries = 3].  While [retryCount] equals
    [maxRetries], an exit of the child schedules no [start()], calls none
    and leaves the counter where it is.  The counter goes down only by
    [restart()], which sets it to 0 and calls [start()], and by output
    carrying the readiness marker, which sets it to 0 as well. *)
Theorem retry_budget_bounded :
  forall r, Reachable r ->
    (st_retryCount (getStatus (server r)) <= st_maxRetries (getStatus (server r))
     /\ 0 <= st_retryCount (getStatus (server r))
     /\ st_maxRetries (getStatus (server r)) = 3)
    /\ (retryCount (server r) = maxRetries (server r) ->
        forall p, pending_restarts (step r (Close p)) = pending_restarts r
                  /\ startCalls (step r (Close p)) = startCalls r
                  /\ retryCount (server (step r (Close p))) = maxRetries (server r))
    /\ (forall e, retryCount (server (step r e)) < retryCount (server r) ->
                  resets_budget e = true)
    /\ (forall sp, retryCount (server (step r (Restart sp))) = 0
                   /\ startCalls (step r (Restart sp)) = S (startCalls r))
    /\ (forall p c, containsReady c = true ->
                    retryCount (server (step r (Stdout p c))) = 0
                    /\ retryCount (server (step r (Stderr p c))) = 0).
Proof.
  intros r Hr. pose proof (reachable_budget_ok r Hr) as [Hrc Hmax].
  split; [|split; [|split; [|split]]].
  - simpl. lia.
  - intros Hex p. destruct (close_when_exhausted r p Hex) as (H1 & H2 & H3 & _).
    repeat split; [exact H1 | exact H2 | lia].
  - apply only_resets_lower_budget.
  - intro sp. apply restart_resets.
  - intros p c Hc. simpl step. rewrite server_onStdout.
    unfold_methods. rewrite Hc. simpl. auto.
Qed.

Lemma retry_budget_bounded_witness :
  let r := run boot [Boot Spawned; Close 0%nat; FireRestart Spawned;
                     FireRestart Spawned; Close 1%nat] in
  retryCount (server r) = maxRetries (server r)
  /\ forall p, pending_restarts (step r (Close p)) = pending_restarts r.
Proof.
  intro r. split; [reflexivity|]. intro p.
  destruct (retry_budget_bounded r) as (_ & H & _).
  - apply feasible_reachable; [apply reach_boot | reflexivity].
  - apply (H eq_refl p).
Defined.

(** C1, as stated, fails: the exit that takes [retryCount] to
    [maxRetries] schedules a [start()] itself; the child it spawns prints
    the readiness marker, the counter is back at 0 without any
    [restart()], and the next exit schedules [start()] again. *)
Lemma exhausted_budget_not_permanent : ~ exhausted_budget_is_permanent.
Proof.
  intro H.
  specialize (H [Boot Spawned; Close 0%nat; FireRestart Spawned;
                 FireRestart Spawned; Close 1%nat]
                [FireRestart Spawned; Stdout 3%nat ready] 3%nat
                eq_refl eq_refl eq_refl).
  vm_compute in H. discriminate H.
Qed.

Lemma quiet_keeps_budget r e :
  quiet e = true ->
  retryCount (server (step r e)) = retryCount (server r)
  /\ maxRetries (server (step r e)) = maxRetries (server r).
Proof.
  destruct e; try (simpl step; rewrite server_onStdout); simpl quiet;
    unfold_methods; intro Hq; try discriminate Hq;
    try (apply negb_true_iff in Hq; rewrite Hq);
    split_ifs; simpl in *; auto.
Qed.

Lemma run_quiet_keeps_budget tr : forall r,
  forallb quiet tr = true ->
  retryCount (server (run r tr)) = retryCount (server r)
  /\ maxRetries (server (run r tr)) = maxRetries (server r).
Proof.
  induction tr as [|e tr IH]; intros r Hq; simpl in *; [auto|].
  apply andb_prop in Hq. destruct Hq as [He Hq].
  destruct (IH (step r e) Hq) as [H1 H2].
  destruct (quiet_keeps_budget r e He) as [H3 H4].
  split; congruence.
Qed.

(** One exit runs both 'close' handlers: the counter moves up by two, as
    far as [maxRetries] lets it. *)
Lemma close_counts_twice r p :
  budget_ok (server r) ->
  retryCount (server (step r (Close p))) = Z.min 3 (retryCount (server r) + 2)
  /\ maxRetries (server (step r (Close p))) = 3.
Proof.
  intros [Hrc Hmax]. unfold_methods. split_ifs; simpl in *; lia.
Qed.

Lemma close_when_exhausted_falls_back r p :
  retryCount (server r) = maxRetries (server r) ->
  fallbackMode (server (step r (Close p))) = true
  /\ isConnected (server (step r (Close p))) = false
  /\ lastError (server (step r (Close p))) = Some "Max retries reached".
Proof.
  intro H. unfold_methods. simpl. rewrite H, Z.ltb_irrefl. simpl.
  rewrite H, Z.ltb_irrefl. simpl. auto.
Qed.

Lemma run_cons r e tr : run r (e :: tr) = run (step r e) tr.
Proof. reflexivity. Qed.

Lemma run_app r tr1 tr2 : run r (tr1 ++ tr2) = run (run r tr1) tr2.
Proof. apply fold_left_app. Qed.

Lemma two_exits_exhaust r t1 t2 p1 p2 :
  budget_ok (server r) ->
  forallb quiet t1 = true -> forallb quiet t2 = true ->
  let b := run (step (run (step r (Close p1)) t1) (Close p2)) t2 in
  retryCount (server b) = maxRetries (server b).
Proof.
  intros Hok Q1 Q2 b. assert (Hok0 := Hok). destruct Hok0 as [Hrc Hmax].
  destruct (close_counts_twice r p1 Hok) as [Ha1 Ma1].
  destruct (run_quiet_keeps_budget t1 (step r (Close p1)) Q1) as [Hb1 Mb1].
  assert (Hokb1 : budget_ok (server (run (step r (Close p1)) t1)))
    by (unfold budget_ok; lia).
  destruct (close_counts_twice _ p2 Hokb1) as [Ha2 Ma2].
  destruct (run_quiet_keeps_budget t2 (step (run (step r (Close p1)) t1) (Close p2)) Q2)
    as [Hb2 Mb2].
  unfold b. lia.
Qed.

(** C2.  From any reachable state, three exits of the child in a row (no
    readiness marker and no [restart()] in between; timers may fire and
    the scheduled [start()] calls may run) leave the supervisor in
    fallback mode, disconnected, with [lastError] "Max retries reached";
    a fourth exit then schedules no further [start()] and calls none. *)
Theorem three_exits_enter_fallback :
  forall r t1 t2 t3 p1 p2 p3 p4,
    Reachable r ->
    forallb quiet t1 = true -> forallb quiet t2 = true -> forallb quiet t3 = true ->
    let r3 := run r (Close p1 :: t1 ++ Close p2 :: t2 ++ [Close p3]) in
    let r4 := run r3 t3 in
    (fallbackMode (server r3) = true
     /\ isConnected (server r3) = false
     /\ lastError (server r3) = Some "Max retries reached")
    /\ pending_restarts (step r4 (Close p4)) = pending_restarts r4
    /\ startCalls (step r4 (Close p4)) = startCalls r4.
Proof.
  intros r t1 t2 t3 p1 p2 p3 p4 Hr Q1 Q2 Q3 r3 r4.
  pose proof (two_exits_exhaust r t1 t2 p1 p2 (reachable_budget_ok r Hr) Q1 Q2) as Hex.
  assert (E3 : r3 = step (run (step (run (step r (Close p1)) t1) (Close p2)) t2) (Close p3)).
  { unfold r3. rewrite run_cons, run_app, run_cons, run_app. reflexivity. }
  destruct (close_when_exhausted _ p3 Hex) as (_ & _ & Hc3 & Mc3).
  rewrite <- E3 in Hc3, Mc3.
  destruct (run_quiet_keeps_budget t3 r3 Q3) as [Hb3 Mb3]. fold r4 in Hb3, Mb3.
  assert (Hex4 : retryCount (server r4) = maxRetries (server r4)) by congruence.
  destruct (close_when_exhausted r4 p4 Hex4) as (Hp & Hs & _).
  split; [rewrite E3; apply close_when_exhausted_falls_back, Hex | auto].
Qed.

Lemma three_exits_enter_fallback_witness :
  let r3 := run (step boot (Boot Spawned))
              (Close 0%nat :: [FireRestart Spawned; FireRestart Spawned] ++ Close 1%nat
                 :: [] ++ [Close 2%nat]) in
  fallbackMode (server r3) = true
  /\ isConnected (server r3) = false
  /\ lastError (server r3) = Some "Max retries reached".
Proof.
  apply (three_exits_enter_fallback (step boot (Boot Spawned))
           [FireRestart Spawned; FireRestart Spawned] [] [FireRestart Spawned]
           0%nat 1%nat 2%nat 3%nat).
  - apply reach_step; [apply reach_boot | reflexivity].
  - reflexivity.
  - reflexivity.
  - reflexivity.
Defined.

(** Only [callMcpTool] writes [requestId]. *)
Lemma requestId_step r e :
  requestId (server (step r e))
  = match issued r e with Some id => id | None => requestId (server r) end.
Proof.
  destruct e; try (simpl step; rewrite server_onStdout); simpl issued;
    unfold_methods; split_ifs; simpl in *; congruence.
Qed.

Lemma issued_increment r e id :
  issued r e = Some id -> id = increment (requestId (server r)).
Proof.
  destruct e; simpl; try discriminate.
  unfold callMcpTool.
  destruct (negb (isConnected (server r))); [simpl; discriminate|].
  simpl. destruct (mcpProcess (server r)); simpl; congruence.
Qed.

Lemma correlationIds_sorted tr : forall r,
  requestId (server r) + Z.of_nat (List.length (correlationIds r tr)) <= 2 ^ 53 ->
  StronglySorted Z.lt (correlationIds r tr)
  /\ Forall (fun id => requestId (server r) < id) (correlationIds r tr).
Proof.
  induction tr as [|e tr IH]; intros r Hb; simpl in *.
  - split; constructor.
  - pose proof (requestId_step r e) as Hs.
    destruct (issued r e) as [id|] eqn:Hi.
    + apply issued_increment in Hi. unfold increment in Hi.
      simpl List.length in Hb. rewrite Nat2Z.inj_succ in Hb.
      destruct (Z.ltb_spec (requestId (server r)) (2 ^ 53)); [|lia].
      destruct (IH (step r e)) as [S1 F1]; [lia|].
      rewrite Hs in F1.
      split.
      * constructor; [exact S1 | exact F1].
      * constructor; [lia|].
        eapply Forall_impl; [|exact F1]. simpl. intros; lia.
    + rewrite <- Hs. apply IH. lia.
Qed.

(** C4.  Along every trace of events (calls, exits, timers, [restart()]
    included) the ids assigned by [callMcpTool] are strictly increasing:
    each is greater than every id assigned before it, so none is used
    twice; [restart()] leaves the counter alone.  The counter is a
    JavaScript number, exact up to 2^53: the statement covers the traces
    that stay in this range. *)
Theorem correlation_ids_strictly_increase :
  forall r tr,
    requestId (server r) + Z.of_nat (List.length (correlationIds r tr)) <= 2 ^ 53 ->
    StronglySorted Z.lt (correlationIds r tr)
    /\ NoDup (correlationIds r tr)
    /\ Forall (fun id => requestId (server r) < id) (correlationIds r tr)
    /\ forall sp, requestId (server (restart sp r)) = requestId (server r).
Proof.
  intros r tr Hb. destruct (correlationIds_sorted tr r Hb) as [HS HF].
  split; [exact HS|]. split; [|split; [exact HF|]].
  - clear Hb HF. induction HS as [|a l HS IH HF]; constructor; [|exact IH].
    intro Hin. rewrite Forall_forall in HF. specialize (HF a Hin). lia.
  - intro sp. unfold_methods. split_ifs; reflexivity.
Qed.

Lemma correlation_ids_strictly_increase_witness :
  let tr := [Boot Spawned; Stdout 0%nat ready; CallTool "get_tokens";
             Restart Spawned; Stdout 1%nat ready; CallTool "get_wallet_portfolio";
             CallTool "get_tokens"] in
  correlationIds boot tr = [1; 2; 3]
  /\ StronglySorted Z.lt (correlationIds boot tr).
Proof.
  intro tr. split; [reflexivity|].
  apply (correlation_ids_strictly_increase boot tr).
  vm_compute. discriminate.
Defined.

Lemma tool_timeout_frame r id :
  dataListeners (step r (FireToolTimeout id)) = dataListeners r.
Proof. unfold_methods. split_ifs; reflexivity. Qed.

(** C5 on the code.  A call that times out is rejected with
    'MCP request timeout' and its timer is gone, but its [onData]
    listener is still registered on the child's stdout; the path on which
    the response arrives does remove it. *)
Theorem tool_timeout_keeps_listener :
  let called := callMcpTool "get_tokens" connected in
  let timed_out := step (fst called) (FireToolTimeout 1) in
  let answered := step (fst called)
                    (Stdout 0%nat {| containsReady := false; parsed := Some (1, None) |}) in
  snd called = Issued 1
  /\ dataListeners (fst called) = [(0%nat, 1)]
  /\ settled 1 (promises timed_out) = Some (Rejected "MCP request timeout")
  /\ mem_timer (ToolTimeout 1) (timers timed_out) = false
  /\ dataListeners timed_out = [(0%nat, 1)]
  /\ settled 1 (promises answered) = Some Resolved
  /\ dataListeners answered = [].
Proof. vm_compute. repeat split; reflexivity. Qed.

End SupervisorProperties.

(* ================================================================== *)
(** * Properties of the classifier                                     *)
(* ================================================================== *)

Section ClassifierProperties.
Import JSString Classifier.

Lemma toLowerCase_app s1 s2 :
  toLowerCase (s1 ++ s2)%string = (toLowerCase s1 ++ toLowerCase s2)%string.
Proof. induction s1 as [|c s1 IH]; simpl; [reflexivity | rewrite IH; reflexivity]. Qed.

Lemma lower_char_idem c : lower_char (lower_char c) = lower_char c.
Proof. destruct c as [[] [] [] [] [] [] [] []]; reflexivity. Qed.

Lemma toLowerCase_lowered s : lowered (toLowerCase s).
Proof.
  unfold lowered. induction s as [|c s IH]; simpl; [reflexivity|].
  rewrite lower_char_idem, IH. reflexivity.
Qed.

Lemma hex_digit_lower c : hex_digit c = true -> hex_digit (lower_char c) = true.
Proof. destruct c as [[] [] [] [] [] [] [] []]; vm_compute; intro H; congruence. Qed.

Lemma lowered_cons c s : lowered (String c s) -> lower_char c = c /\ lowered s.
Proof. unfold lowered. simpl. intro H. inversion H as [[H1 H2]]. rewrite H1, H2. auto. Qed.

Lemma take_hex_lower h : forall rest,
  all_hex h = true ->
  take_hex (String.length h) (toLowerCase h ++ rest)%string = Some (toLowerCase h).
Proof.
  induction h as [|c h IH]; intros rest Hh; simpl in *; [reflexivity|].
  apply andb_prop in Hh. destruct Hh as [Hc Hh].
  rewrite (hex_digit_lower c Hc), (IH rest Hh). reflexivity.
Qed.

Lemma take_hex_sound n : forall s h,
  take_hex n s = Some h ->
  String.length h = n /\ all_hex h = true /\ (lowered s -> lowered h).
Proof.
  induction n as [|n IH]; intros s h H; simpl in H.
  - inversion H. repeat split; reflexivity.
  - destruct s as [|c s]; [discriminate|].
    destruct (hex_digit c) eqn:Hc; [|discriminate].
    destruct (take_hex n s) as [h'|] eqn:Ht; [|discriminate].
    inversion H; subst h. destruct (IH s h' Ht) as (Hl & Ha & Hlow).
    simpl. rewrite Hl, Hc, Ha. repeat split.
    intro Hs. apply lowered_cons in Hs. destruct Hs as [H1 H2].
    unfold lowered. simpl. rewrite H1. f_equal. apply Hlow, H2.
Qed.

Lemma address_here_lower a rest :
  is_address a = true ->
  address_here (toLowerCase a ++ rest)%string = Some (toLowerCase a).
Proof.
  unfold is_address.
  destruct a as [|c0 a]; [discriminate|].
  destruct c0 as [[] [] [] [] [] [] [] []]; try discriminate.
  destruct a as [|c1 h]; [discriminate|].
  destruct c1 as [[] [] [] [] [] [] [] []]; try discriminate.
  intro H. apply andb_prop in H. destruct H as [Hl Hh].
  apply Nat.eqb_eq in Hl.
  change (toLowerCase (String "0" (String "x" h)))
    with (String "0" (String "x" (toLowerCase h))).
  change (address_here (String "0" (String "x" (toLowerCase h)) ++ rest)%string)
    with (match take_hex 40 (toLowerCase h ++ rest)%string with
          | Some h' => Some (String "0" (String "x" h'))
          | None => None
          end).
  rewrite <- Hl, (take_hex_lower h rest Hh). reflexivity.
Qed.

Lemma address_here_sound s a :
  address_here s = Some a -> is_address a = true /\ (lowered s -> lowered a).
Proof.
  unfold address_here.
  destruct s as [|c0 s]; [discriminate|].
  destruct c0 as [[] [] [] [] [] [] [] []]; try discriminate.
  destruct s as [|c1 s]; [discriminate|].
  destruct c1 as [[] [] [] [] [] [] [] []]; try discriminate.
  destruct (take_hex 40 s) as [h|] eqn:Ht; [|discriminate].
  intro H. inversion H; subst a.
  destruct (take_hex_sound 40 s h Ht) as (Hl & Ha & Hlow).
  split.
  - simpl. rewrite Hl, Ha. reflexivity.
  - intro Hs. apply lowered_cons in Hs. destruct Hs as [_ Hs].
    apply lowered_cons in Hs. destruct Hs as [_ Hs].
    unfold lowered. simpl. f_equal. f_equal. apply Hlow, Hs.
Qed.

Lemma match_address_unfold c s :
  match_address (String c s)
  = match address_here (String c s) with
    | Some a => Some a
    | None => match_address s
    end.
Proof. reflexivity. Qed.

Lemma match_address_here s a : address_here s = Some a -> match_address s = Some a.
Proof.
  intro H. destruct s as [|c s]; [discriminate H|].
  rewrite match_address_unfold, H. reflexivity.
Qed.

Lemma match_address_step c s :
  address_here (String c s) = None -> match_address (String c s) = match_address s.
Proof. intro H. rewrite match_address_unfold, H. reflexivity. Qed.

Lemma match_address_sound s : forall a,
  match_address s = Some a -> is_address a = true /\ (lowered s -> lowered a).
Proof.
  induction s as [|c s IH]; intros a H.
  - simpl in H. discriminate.
  - destruct (address_here (String c s)) as [b|] eqn:Hb.
    + rewrite (match_address_here _ _ Hb) in H. inversion H; subst b.
      apply address_here_sound, Hb.
    + rewrite (match_address_step c s Hb) in H.
      destruct (IH a H) as [H1 H2]. split; [exact H1|].
      intro Hs. apply lowered_cons in Hs. apply H2, Hs.
Qed.

(** A match somewhere in the string makes [match] succeed. *)
Lemma match_address_finds pre : forall t a,
  address_here t = Some a -> exists a', match_address (pre ++ t)%string = Some a'.
Proof.
  induction pre as [|c pre IH]; intros t a H.
  - exists a. apply match_address_here, H.
  - destruct (address_here (String c pre ++ t)%string) as [b|] eqn:Hb.
    + exists b. apply match_address_here, Hb.
    + simpl append in *. rewrite (match_address_step _ _ Hb). apply (IH t a H).
Qed.

(** Positions without a match are skipped. *)
Lemma match_address_skips pre : forall t,
  (forall k, (k < String.length pre)%nat -> address_here (drop k (pre ++ t)%string) = None) ->
  match_address (pre ++ t)%string = match_address t.
Proof.
  induction pre as [|c pre IH]; intros t H; [reflexivity|].
  simpl append. rewrite match_address_step.
  - apply IH. intros k Hk. apply (H (S k)). simpl. lia.
  - apply (H O). simpl. lia.
Qed.

(** What the address branch of [getBlockchainContext] returns. *)
Lemma context_of_match message a :
  match_address (toLowerCase message) = Some a ->
  address (getBlockchainContext message) = Some a
  /\ needsData (getBlockchainContext message) = true
  /\ (type (getBlockchainContext message) = portfolio
      \/ type (getBlockchainContext message) = nft
      \/ type (getBlockchainContext message) = wallet).
Proof.
  intro H. unfold getBlockchainContext. rewrite H.
  repeat match goal with
  | |- context [if ?b then _ else _] => destruct b
  end; simpl; auto.
Qed.

(** C6 (amended).  A message that contains a valid address is classified
    as portfolio, nft or wallet, never as general, and carries an address
    in lower case; when the address is the leftmost match of the pattern
    in the lower-cased message, the address field is its lower-cased
    form. *)
Theorem address_is_extracted_in_lower_case :
  forall pre a post,
    is_address a = true ->
    let message := (pre ++ a ++ post)%string in
    let context := getBlockchainContext message in
    type context <> general
    /\ (type context = portfolio \/ type context = nft \/ type context = wallet)
    /\ (exists a', address context = Some a' /\ is_address a' = true
                   /\ toLowerCase a' = a')
    /\ ((forall k, (k < String.length pre)%nat ->
                   address_here (drop k (toLowerCase message)) = None) ->
        address context = Some (toLowerCase a)).
Proof.
  intros pre a post Ha message context.
  assert (Hlow : toLowerCase message
                 = (toLowerCase pre ++ (toLowerCase a ++ toLowerCase post))%string).
  { unfold message. rewrite !toLowerCase_app. reflexivity. }
  pose proof (address_here_lower a (toLowerCase post) Ha) as Hhere.
  destruct (match_address_finds (toLowerCase pre) _ _ Hhere) as [a' Ha'].
  rewrite <- Hlow in Ha'.
  destruct (context_of_match message a' Ha') as (Haddr & _ & Hty).
  fold context in Haddr, Hty.
  destruct (match_address_sound _ _ Ha') as [Hv Hl].
  split; [|split; [exact Hty | split]].
  - destruct Hty as [E|[E|E]]; rewrite E; discriminate.
  - exists a'. repeat split; [exact Haddr | exact Hv |].
    apply Hl, toLowerCase_lowered.
  - intro Hfirst. rewrite Haddr. f_equal.
    assert (Hlen : String.length (toLowerCase pre) = String.length pre).
    { clear. induction pre as [|c pre IH]; simpl; [reflexivity | rewrite IH; reflexivity]. }
    rewrite Hlow in Ha', Hfirst.
    rewrite match_address_skips in Ha' by (rewrite Hlen; exact Hfirst).
    rewrite (match_address_here _ _ Hhere) in Ha'. congruence.
Qed.

Lemma address_is_extracted_in_lower_case_witness :
  address (getBlockchainContext
             ("check " ++ "0xDe0B295669a9FD93d5F28D9Ec85E40f4cb697BAe" ++ " now")%string)
  = Some "0xde0b295669a9fd93d5f28d9ec85e40f4cb697bae".
Proof.
  apply (address_is_extracted_in_lower_case
           "check " "0xDe0B295669a9FD93d5F28D9Ec85E40f4cb697BAe" " now" eq_refl).
  intros k Hk.
  do 6 (destruct k as [|k]; [reflexivity|]).
  simpl in Hk. lia.
Defined.

(** C6, as stated, fails: the address comes back in lower case, not as
    it appeared in the message. *)
Lemma address_case_is_not_preserved :
  let a := "0xDe0B295669a9FD93d5F28D9Ec85E40f4cb697BAe" in
  let message := ("check " ++ a ++ " now")%string in
  is_address a = true
  /\ includes message a = true
  /\ address (getBlockchainContext message) <> Some a.
Proof. vm_compute. repeat split; try reflexivity. discriminate. Qed.

(** C7 (amended).  The scenario message is classified as portfolio with
    [multiChain = true], set by the "portfolio" keyword alone (none of
    the multi-chain phrases occurs); the address field is the lower-cased
    address. *)
Theorem scenario_is_multichain_portfolio :
  getBlockchainContext scenario_message
  = mkContext true (Some "ethereum") portfolio
      (Some "0xabcdef0123456789abcdef0123456789abcdef01") (Some true)
  /\ includes (toLowerCase scenario_message) "multi" = false
  /\ includes (toLowerCase scenario_message) "all" = false
  /\ includes (toLowerCase scenario_message) "every chain" = false
  /\ includes (toLowerCase scenario_message) "portfolio" = true.
Proof. vm_compute. repeat split; reflexivity. Qed.

(** C7, as stated, fails on the address: it is not the string of the
    message. *)
Lemma scenario_address_differs :
  is_address "0xABCDEF0123456789ABCDEF0123456789ABCDEF01" = true
  /\ type (getBlockchainContext scenario_message) = portfolio
  /\ multiChain (getBlockchainContext scenario_message) = Some true
  /\ address (getBlockchainContext scenario_message)
     <> Some "0xABCDEF0123456789ABCDEF0123456789ABCDEF01".
Proof. vm_compute. repeat split; try reflexivity. discriminate. Qed.

End ClassifierProperties.

(* ================================================================== *)
(** * Properties of the fallback responder                             *)
(* ================================================================== *)

Section FallbackProperties.
Import JSString Fallback.

Lemma includes_cons c s sub : includes s sub = true -> includes (String c s) sub = true.
Proof.
  intro H. change (includes (String c s) sub)
    with (if prefix sub (String c s) then true else includes s sub).
  rewrite H. destruct (prefix sub (String c s)); reflexivity.
Qed.

Lemma includes_app p s sub : includes s sub = true -> includes (p ++ s)%string sub = true.
Proof.
  intro H. induction p as [|c p IH]; [exact H|].
  simpl append. apply includes_cons, IH.
Qed.

(** C10.  Without an API key (the variable unset, or set to the
    placeholder) [getMultiChainWalletFallback] returns the mock text,
    which depends on the address only and reports $0.00, 0/6 active
    chains and 0 tokens, and it sends no request. *)
Theorem mock_response_without_api_key :
  forall key src address,
    key = None \/ key = Some "your_tatum_api_key_here" ->
    getMultiChainWalletFallback key src address
    = (Normal (MockData (getMockWalletResponse address)), [])
    /\ includes (getMockWalletResponse address) "**Total Portfolio Value:** $0.00" = true
    /\ includes (getMockWalletResponse address) "**Active Chains:** 0/6" = true
    /\ includes (getMockWalletResponse address) "**Total Tokens:** 0" = true.
Proof.
  intros key src address Hkey.
  split.
  - destruct Hkey as [E|E]; subst key; reflexivity.
  - set (head := ("💰 **Multi-Chain Wallet Analysis (Mock Data)**" ++ nl ++ nl ++
                  "**Address:** `")%string).
    assert (E : exists tail,
               getMockWalletResponse address = (head ++ address ++ tail)%string
               /\ includes tail "**Total Portfolio Value:** $0.00" = true
               /\ includes tail "**Active Chains:** 0/6" = true
               /\ includes tail "**Total Tokens:** 0" = true).
    { eexists. split; [reflexivity|]. vm_compute. repeat split; reflexivity. }
    destruct E as (tail & -> & H1 & H2 & H3).
    repeat split; apply includes_app, includes_app; assumption.
Qed.

Lemma mock_response_without_api_key_witness :
  getMultiChainWalletFallback (Some "your_tatum_api_key_here") ethereumDown sampleAddress
  = (Normal (MockData (getMockWalletResponse sampleAddress)), [])
  /\ includes (getMockWalletResponse sampleAddress) "**Total Portfolio Value:** $0.00" = true
  /\ includes (getMockWalletResponse sampleAddress) "**Active Chains:** 0/6" = true
  /\ includes (getMockWalletResponse sampleAddress) "**Total Tokens:** 0" = true.
Proof.
  apply (mock_response_without_api_key
           (Some "your_tatum_api_key_here") ethereumDown sampleAddress).
  right. reflexivity.
Defined.

Lemma chainEndpoint_is_chain chain :
  (if String.eqb chain "ethereum" then "ethereum" else chain) = chain.
Proof.
  destruct (String.eqb chain "ethereum") eqn:E; [|reflexivity].
  apply String.eqb_eq in E. symmetry. exact E.
Qed.

(** The callback on a chain whose requests both failed: the default
    bodies of the two [.catch] give the zero result; no counter moves. *)
Lemma walletChain_failed src address chain f :
  chainFailed src address chain = true ->
  walletChain src address chain f
  = (mkWalletChain chain "0" (NativeNumber 0) [] 0 (0 + 0)%Q,
     mkFanout (activeChains f) (apiErrors f)
       (sent f ++ [Get_account_balance chain address;
                   Get_wallet_balances (chainMapping chain) address])).
Proof.
  unfold chainFailed, walletChain. rewrite chainEndpoint_is_chain.
  destruct (account_balance src chain address) as [b|m1]; [discriminate|].
  destruct (wallet_balances src (chainMapping chain) address) as [t|m2]; [discriminate|].
  intros _. unfold catch, send, countActive. cbn.
  rewrite <- app_assoc. reflexivity.
Qed.

(** The callback on a chain with something on it: the chain is
    counted as active and as nothing else. *)
Lemma walletChain_holds src address chain f :
  chainHolds src address chain = true ->
  let r := fst (walletChain src address chain f) in
  let f' := snd (walletChain src address chain f) in
  wc_chain r = chain
  /\ (exists value, wc_nativeValue r = NativeNumber value)
  /\ activeChains f' = (activeChains f + 1)%Z
  /\ apiErrors f' = apiErrors f.
Proof.
  unfold chainHolds, walletChain. rewrite chainEndpoint_is_chain.
  destruct (account_balance src chain address) as [[data|]|m1]; try discriminate.
  destruct (wallet_balances src (chainMapping chain) address) as [tokens|m2];
    try discriminate.
  unfold catch, send, countActive.
  destruct (ab_usdValue data) as [value| |greater]; try discriminate.
  intro H. cbn [fst snd wc_chain wc_nativeValue activeChains apiErrors].
  assert (E : positive (value + 0) = positive value).
  { unfold positive. f_equal.
    destruct (Qle_bool (value + 0) 0) eqn:E1; destruct (Qle_bool value 0) eqn:E2;
      try reflexivity.
    - apply Qle_bool_iff in E1.
      assert (Hle : (value <= 0)%Q) by lra.
      apply Qle_bool_iff in Hle. congruence.
    - apply Qle_bool_iff in E2.
      assert (Hle : (value + 0 <= 0)%Q) by lra.
      apply Qle_bool_iff in Hle. congruence. }
  rewrite E, H. cbn [fst snd wc_chain wc_nativeValue activeChains apiErrors].
  repeat split; try reflexivity. exists value. reflexivity.
Qed.

Lemma walletChains_failed_or_holding src address cs : forall f,
  forallb (fun chain => chainFailed src address chain || chainHolds src address chain) cs
  = true ->
  let rs := fst (walletChains src address cs f) in
  let f' := snd (walletChains src address cs f) in
  map wc_chain rs = cs
  /\ Forall (fun r => chainFailed src address (wc_chain r) = true ->
                      wc_nativeBalance r = "0" /\ (wc_totalValue r == 0)%Q
                      /\ wc_tokens r = [] /\ walletChainActive r = false) rs
  /\ Forall (fun r => exists value, wc_nativeValue r = NativeNumber value) rs
  /\ (activeChains f' + Z.of_nat (List.length (filter (chainFailed src address) cs))
      = activeChains f + Z.of_nat (List.length cs))%Z
  /\ apiErrors f' = apiErrors f.
Proof.
  induction cs as [|c cs IH]; intros f Hall.
  - simpl. repeat split; try constructor; lia.
  - simpl in Hall. apply andb_prop in Hall. destruct Hall as [Hc Hcs].
    simpl walletChains.
    destruct (chainFailed src address c) eqn:Hfail.
    + rewrite (walletChain_failed src address c f Hfail).
      specialize (IH (mkFanout (activeChains f) (apiErrors f)
                        (sent f ++ [Get_account_balance c address;
                                    Get_wallet_balances (chainMapping c) address])) Hcs).
      destruct (walletChains src address cs _) as [rs f2].
      cbn [fst snd activeChains apiErrors] in IH |- *.
      destruct IH as (In & IF & IN & Ia & Ie).
      split; [simpl; congruence|].
      split; [constructor; [|exact IF]|].
      { intros _. cbn. repeat split; reflexivity. }
      split; [constructor; [exists 0%Q; reflexivity | exact IN]|].
      split; [|exact Ie].
      simpl filter. rewrite Hfail. simpl List.length. lia.
    + simpl in Hc.
      pose proof (walletChain_holds src address c f Hc) as Hh.
      destruct (walletChain src address c f) as [r f1]. cbn [fst snd] in Hh.
      destruct Hh as (Hn & Hv & Ha & He).
      specialize (IH f1 Hcs).
      destruct (walletChains src address cs f1) as [rs f2].
      cbn [fst snd] in IH |- *.
      destruct IH as (In & IF & IN & Ia & Ie).
      split; [simpl; congruence|].
      split; [constructor; [|exact IF]|].
      { rewrite Hn, Hfail. discriminate. }
      split; [constructor; assumption|].
      split; [|congruence].
      simpl filter. rewrite Hfail. simpl List.length. lia.
Qed.

(** C3.  What the fan-out reports when requests fail.  With an API key
    configured, let both requests fail for some of the six chains and
    let every other chain answer with something on it.  The call
    returns the analysis text, that is, nothing is thrown past it; every
    failed chain has the zero-value result without tokens, and the
    number of active chains is 6 - K for the K failed chains.  The
    'API Errors' counter, however, is 0 and the note is not written,
    whatever K is: each request has its own [.catch], which puts a
    default body in the place of the failed response, so the [catch] of
    the callback with its [apiErrors++] is not reached. *)
Theorem failed_requests_leave_no_api_errors_note :
  forall key src address,
    apiKeyMissing key = false ->
    forallb (fun chain => chainFailed src address chain || chainHolds src address chain)
            chains = true ->
    let a := fst (analyseWallet src address) in
    getMultiChainWalletFallback key src address
    = (Normal (Analysis (walletHeader address a) a (walletFooter a)),
       snd (analyseWallet src address))
    /\ map wc_chain (wa_results a) = chains
    /\ Forall (fun r => chainFailed src address (wc_chain r) = true ->
                        wc_nativeBalance r = "0" /\ (wc_totalValue r == 0)%Q
                        /\ wc_tokens r = [] /\ walletChainActive r = false)
              (wa_results a)
    /\ wa_activeChains a = (6 - failedChains src address)%Z
    /\ wa_apiErrors a = 0%Z
    /\ apiErrorsNote a = None.
Proof.
  intros key src address Hkey Hall a.
  unfold getMultiChainWalletFallback. rewrite Hkey.
  unfold a, analyseWallet.
  pose proof (walletChains_failed_or_holding src address chains (mkFanout 0 0 []) Hall)
    as H.
  destruct (walletChains src address chains (mkFanout 0 0 [])) as [rs f].
  cbn [fst snd activeChains apiErrors] in H. destruct H as (Hn & HF & HN & Ha & He).
  change (Z.of_nat (List.length chains)) with 6%Z in Ha.
  cbn [fst snd].
  assert (Hb : breakdownThrows
                 (mkWalletAnalysis rs
                    (fold_left (fun total r => (total + wc_totalValue r)%Q) rs 0%Q)
                    (fold_left (fun total r =>
                                  (total + Z.of_nat (List.length (wc_tokens r)))%Z) rs 0%Z)
                    (activeChains f) (apiErrors f)) = false).
  { unfold breakdownThrows. cbn [wa_results]. clear -HN.
    induction HN as [|r rs [value Hv] _ IH]; [reflexivity|].
    simpl. rewrite Hv, andb_false_r. exact IH. }
  rewrite Hb.
  split; [reflexivity|].
  cbn [wa_results wa_activeChains wa_apiErrors]. unfold failedChains.
  split; [exact Hn|]. split; [exact HF|]. split; [lia|]. split; [exact He|].
  unfold apiErrorsNote. cbn [wa_apiErrors]. rewrite He. reflexivity.
Qed.

Lemma failed_requests_leave_no_api_errors_note_witness :
  failedChains ethereumDownOthersActive sampleAddress = 1%Z
  /\ let a := fst (analyseWallet ethereumDownOthersActive sampleAddress) in
     getMultiChainWalletFallback (Some "t-0123456789") ethereumDownOthersActive
       sampleAddress
     = (Normal (Analysis (walletHeader sampleAddress a) a (walletFooter a)),
        snd (analyseWallet ethereumDownOthersActive sampleAddress))
     /\ map wc_chain (wa_results a) = chains
     /\ Forall (fun r => chainFailed ethereumDownOthersActive sampleAddress (wc_chain r)
                         = true ->
                         wc_nativeBalance r = "0" /\ (wc_totalValue r == 0)%Q
                         /\ wc_tokens r = [] /\ walletChainActive r = false)
               (wa_results a)
     /\ wa_activeChains a = (6 - failedChains ethereumDownOthersActive sampleAddress)%Z
     /\ wa_apiErrors a = 0%Z
     /\ apiErrorsNote a = None.
Proof.
  split; [reflexivity|].
  apply (failed_requests_leave_no_api_errors_note
           (Some "t-0123456789") ethereumDownOthersActive sampleAddress);
    reflexivity.
Defined.

End FallbackProperties.

(* ================================================================== *)
(** * Properties of the portfolio risk analysis and of the gas tiers   *)
(* ================================================================== *)

Section RiskProperties.
Import Fallback.
Local Open Scope Q_scope.

Lemma positive_spec x : positive x = true <-> 0 < x.
Proof.
  unfold positive. rewrite negb_true_iff.
  destruct (Qle_bool x 0) eqn:E.
  - apply Qle_bool_iff in E. split; [discriminate | intro; lra].
  - split; [intros _ | reflexivity].
    destruct (Qlt_le_dec 0 x) as [H|H]; [exact H|].
    apply Qle_bool_iff in H. congruence.
Qed.

Lemma sumQ_app l1 l2 : sumQ (l1 ++ l2) == sumQ l1 + sumQ l2.
Proof. induction l1 as [|x l1 IH]; simpl; [lra | rewrite IH; lra]. Qed.

Lemma sumQ_zero l : Forall (fun x => x == 0) l -> sumQ l == 0.
Proof. induction 1 as [|x l Hx _ IH]; simpl; [lra | rewrite Hx, IH; lra]. Qed.

Lemma Math_max_zero l : Forall (fun x => x == 0) l ->
  forall m, Math_max l = Some m -> m == 0.
Proof.
  induction 1 as [|x l Hx _ IH]; intros m Hm; simpl in Hm; [discriminate|].
  destruct (Math_max l) as [m'|]; inversion Hm; subst m.
  - specialize (IH m' eq_refl). rewrite Hx, IH. apply Q.max_l. lra.
  - exact Hx.
Qed.

(** The largest value of a list in which one entry is positive and all
    others are zero is that entry. *)
Lemma Math_max_single before : forall v after,
  0 < v ->
  Forall (fun x => x == 0) before -> Forall (fun x => x == 0) after ->
  exists m, Math_max (before ++ v :: after) = Some m /\ m == v.
Proof.
  induction before as [|x before IH]; intros v after Hv Hb Ha.
  - simpl. destruct (Math_max after) as [m'|] eqn:E.
    + exists (Qmax v m'). split; [reflexivity|].
      pose proof (Math_max_zero after Ha m' E) as Hz.
      apply Q.max_l. lra.
    + exists v. split; [reflexivity | lra].
  - inversion Hb as [|? ? Hx Hb']; subst.
    destruct (IH v after Hv Hb' Ha) as (m & Hm & Em).
    simpl. rewrite Hm. exists (Qmax x m). split; [reflexivity|].
    rewrite Q.max_r; [exact Em | lra].
Qed.

Lemma portfolioChain_consistent src address chain pd :
  consistent pd ->
  consistent (portfolioChain src address chain pd)
  /\ (List.length (pd_chains (portfolioChain src address chain pd))
      <= S (List.length (pd_chains pd)))%nat.
Proof.
  intros (Ht & Ha & Hn). unfold portfolioChain, catch.
  destruct (blockchain_balance src (JSString.toUpperCase chain) address) as [[data|]|m1];
    destruct (token_balance src chain address) as [tokens|m2];
    unfold consistent, chainValues in *; cbn [totalValue pd_activeChains totalTokens pd_chains];
    try (split; [repeat split; assumption | lia]);
    (split; [|rewrite length_app; simpl; lia]);
    rewrite map_app, sumQ_app, filter_app, length_app; cbn [map snd pc_totalValue];
    (split; [simpl; rewrite Ht; lra | split; [|lia]]);
    cbn [filter]; rewrite Ha;
    match goal with |- context [positive ?x] => destruct (positive x) end;
    simpl List.length; lia.
Qed.

Lemma portfolio_fold_consistent src address cs : forall pd,
  consistent pd ->
  consistent (fold_left (fun pd chain => portfolioChain src address chain pd) cs pd)
  /\ (List.length (pd_chains
        (fold_left (fun pd chain => portfolioChain src address chain pd) cs pd))
      <= List.length cs + List.length (pd_chains pd))%nat.
Proof.
  induction cs as [|c cs IH]; intros pd Hpd; simpl.
  - split; [exact Hpd | lia].
  - destruct (portfolioChain_consistent src address c pd Hpd) as [Hc Hl].
    destruct (IH _ Hc) as [H1 H2]. split; [exact H1 | lia].
Qed.

Lemma filter_length_le {A} (f : A -> bool) l :
  (List.length (filter f l) <= List.length l)%nat.
Proof. induction l as [|x l IH]; simpl; [lia | destruct (f x); simpl; lia]. Qed.

(** [Math.max] returns an entry of the list, and no entry is larger. *)
Lemma Math_max_largest l : forall m,
  Math_max l = Some m -> In m l /\ Forall (fun v => v <= m) l.
Proof.
  induction l as [|v l IH]; intros m Hm; simpl in Hm; [discriminate|].
  destruct (Math_max l) as [m'|] eqn:E.
  - destruct (IH m' eq_refl) as [Hin Hle].
    inversion Hm; subst m; clear Hm.
    split.
    + unfold Qmax, GenericMinMax.gmax.
      destruct (v ?= m'); [left | right | left]; auto.
    + constructor; [apply Q.le_max_l|].
      eapply Forall_impl; [|exact Hle].
      intros a Ha. simpl in Ha. apply Qle_trans with m'; [exact Ha | apply Q.le_max_r].
  - inversion Hm; subst m; clear Hm.
    destruct l; [|simpl in E; destruct (Math_max l); discriminate].
    split; [left; reflexivity | constructor; [lra | constructor]].
Qed.

(** The token count is the number of tokens collected. *)
Lemma portfolio_tokens_counted src address cs : forall pd,
  totalTokens pd = Z.of_nat (List.length (allTokens pd)) ->
  totalTokens (fold_left (fun pd chain => portfolioChain src address chain pd) cs pd)
  = Z.of_nat (List.length
                (allTokens (fold_left (fun pd chain => portfolioChain src address chain pd)
                              cs pd))).
Proof.
  induction cs as [|c cs IH]; intros pd Hpd; [exact Hpd|].
  cbn [fold_left]. apply IH.
  unfold portfolioChain, catch.
  destruct (blockchain_balance src (JSString.toUpperCase c) address) as [[data|]|m1];
    destruct (token_balance src c address) as [tokens|m2];
    cbn [totalTokens allTokens]; try exact Hpd;
    rewrite length_app, ?length_map, Hpd; simpl List.length; lia.
Qed.

(** C8 (amended).  The risk analysis of the multi-chain portfolio, on
    what the analysis collected: the total value is the sum of the chain
    values, the active chains are the chains with a positive value
    (between 0 and 6 of them), the token count is the number of tokens
    collected.  Concentration is the largest chain value (an entry of
    the chain values that no entry exceeds) over the total, times 100,
    when the total is positive, and 0 otherwise; it is 100 when one
    chain holds a positive value and every other chain holds zero, and 0
    when that one value is negative.  Diversification is the number of
    active chains over 6, times 100.  Stability is the smaller of 100
    and the token count over 10, times 100. *)
Theorem portfolio_risk_formulas :
  forall src address,
    let pd := analysePortfolio src address in
    let risk := riskAnalysis pd in
    (totalValue pd == sumQ (chainValues pd)
     /\ pd_activeChains pd
        = Z.of_nat (List.length (filter positive (chainValues pd)))
     /\ (0 <= pd_activeChains pd <= 6)%Z
     /\ totalTokens pd = Z.of_nat (List.length (allTokens pd)))
    /\ (0 < totalValue pd ->
          exists largest,
            In largest (chainValues pd)
            /\ Forall (fun v => v <= largest) (chainValues pd)
            /\ concentration risk == largest / totalValue pd * 100)
    /\ (~ 0 < totalValue pd -> concentration risk == 0)
    /\ (forall before v after,
          chainValues pd = before ++ v :: after ->
          Forall (fun x => x == 0) before -> Forall (fun x => x == 0) after ->
          (0 < v -> concentration risk == 100)
          /\ (v < 0 -> concentration risk == 0))
    /\ diversification risk == inject_Z (pd_activeChains pd) / 6 * 100
    /\ stability risk == Qmin 100 (inject_Z (totalTokens pd) / 10 * 100).
Proof.
  intros src address pd risk.
  set (pd0 := fold_left (fun pd chain => portfolioChain src address chain pd)
                        chains emptyPortfolio).
  assert (Hc0 : consistent emptyPortfolio).
  { unfold consistent, chainValues; simpl. repeat split; first [lia | lra]. }
  destruct (portfolio_fold_consistent src address chains emptyPortfolio Hc0)
    as [(Ht & Ha & Hn) Hlen].
  pose proof (portfolio_tokens_counted src address chains emptyPortfolio eq_refl) as Hk.
  fold pd0 in Ht, Ha, Hn, Hlen, Hk.
  change (totalValue pd) with (totalValue pd0).
  change (chainValues pd) with (chainValues pd0).
  change (pd_activeChains pd) with (pd_activeChains pd0).
  change (totalTokens pd) with (totalTokens pd0).
  change (allTokens pd) with (allTokens pd0).
  change risk with (assessRisk pd0).
  unfold assessRisk; cbn [concentration diversification stability].
  fold (chainValues pd0).
  assert (Hzero : ~ 0 < totalValue pd0 -> positive (totalValue pd0) = false).
  { intro Hnp. destruct (positive (totalValue pd0)) eqn:Hb; [|reflexivity].
    apply positive_spec in Hb. contradiction. }
  split; [|split; [|split; [|split; [|split]]]].
  - split; [exact Ht|]. split; [exact Ha|]. split; [|exact Hk].
    rewrite Ha. pose proof (filter_length_le positive (chainValues pd0)) as Hf.
    unfold chainValues in Hf at 2. rewrite length_map in Hf.
    simpl in Hlen. lia.
  - intro Hpos. apply positive_spec in Hpos as Hb. rewrite Hb.
    destruct (Math_max (chainValues pd0)) as [m|] eqn:Em.
    + destruct (Math_max_largest _ m Em) as [Hin Hle].
      exists m. split; [exact Hin|]. split; [exact Hle | lra].
    + destruct (chainValues pd0); [|simpl in Em; destruct (Math_max l); discriminate].
      simpl in Ht. lra.
  - intro Hnp. rewrite (Hzero Hnp). lra.
  - intros before v after Hv Hbf Haf.
    rewrite Hv in Ht. rewrite sumQ_app in Ht. simpl in Ht.
    rewrite (sumQ_zero _ Hbf), (sumQ_zero _ Haf) in Ht.
    assert (Htv : totalValue pd0 == v) by lra.
    split; intro Hsign.
    + destruct (Math_max_single before v after Hsign Hbf Haf) as (m & Hm & Em).
      assert (Hb : positive (totalValue pd0) = true) by (apply positive_spec; lra).
      rewrite Hb, Hv, Hm, Htv, Em. field. lra.
    + rewrite Hzero; [lra|]. lra.
  - reflexivity.
  - destruct (Z.ltb_spec 0 (totalTokens pd0)) as [Hlt|Hge]; [reflexivity|].
    assert (E : totalTokens pd0 = 0%Z) by lia. rewrite E.
    rewrite Q.min_r; [reflexivity|]. unfold Qle; simpl; lia.
Qed.

Lemma portfolio_risk_formulas_witness :
  chainValues (analysePortfolio onlyEthereum sampleAddress) = [4235; 0; 0; 0; 0; 0]
  /\ concentration (riskAnalysis (analysePortfolio onlyEthereum sampleAddress)) == 100.
Proof.
  split; [reflexivity|].
  destruct (portfolio_risk_formulas onlyEthereum sampleAddress) as (_ & _ & _ & H & _).
  apply (H [] 4235 [0; 0; 0; 0; 0]).
  - reflexivity.
  - constructor.
  - repeat constructor.
  - reflexivity.
Defined.

(** C8, as stated, fails where the total is not positive.  Ethereum
    alone holds a value, -5, and every other chain holds zero: the
    concentration is 0, not 100.  Ethereum holds 10 and Polygon -20: the
    largest chain value over the total, times 100, is -100, and the
    concentration is 0. *)
Lemma concentration_needs_positive_total :
  (chainValues (analysePortfolio ethereumInDebt sampleAddress) = [-5; 0; 0; 0; 0; 0]
   /\ concentration (riskAnalysis (analysePortfolio ethereumInDebt sampleAddress)) == 0
   /\ ~ concentration (riskAnalysis (analysePortfolio ethereumInDebt sampleAddress))
        == 100)
  /\ (chainValues (analysePortfolio polygonInDebt sampleAddress) = [10; -20; 0; 0; 0; 0]
      /\ Math_max (chainValues (analysePortfolio polygonInDebt sampleAddress)) = Some 10
      /\ totalValue (analysePortfolio polygonInDebt sampleAddress) == -10
      /\ 10 / totalValue (analysePortfolio polygonInDebt sampleAddress) * 100 == -100
      /\ concentration (riskAnalysis (analysePortfolio polygonInDebt sampleAddress)) == 0).
Proof.
  vm_compute. repeat split; try reflexivity; discriminate.
Qed.

(** [Math.round] gives the integer nearest to [x], the upper one at a
    half. *)
Lemma Math_round_nearest x :
  inject_Z (Math_round x) - (1 # 2) <= x /\ x < inject_Z (Math_round x) + (1 # 2).
Proof.
  unfold Math_round. change (1 / 2) with (1 # 2).
  pose proof (Qfloor_le (x + (1 # 2))) as H1.
  pose proof (Qlt_floor (x + (1 # 2))) as H2.
  rewrite inject_Z_plus in H2. change (inject_Z 1) with 1 in H2.
  split; lra.
Qed.

(** C9 (amended).  The gas route returns, for the Gwei price [g] it
    fetched, the integers nearest to 0.8 g, g, 1.2 g and 0.9 g as slow,
    standard, fast and base fee.  The gas path of the fallback responder
    computes no tier and no base fee: it shows the slow, standard and fast
    fields of the upstream response as they are ('N/A' for an absent or
    zero field), or the message of the failed request. *)
Theorem gas_tiers_of_route_and_fallback :
  (forall g,
     gasRoute g = mkGasPrice (Math_round (g * 0.8)) (Math_round g)
                    (Math_round (g * 1.2)) (Math_round (g * 0.9))
     /\ (inject_Z (slow (gasRoute g)) - (1 # 2) <= 0.8 * g
         /\ 0.8 * g < inject_Z (slow (gasRoute g)) + (1 # 2))
     /\ (inject_Z (standard (gasRoute g)) - (1 # 2) <= g
         /\ g < inject_Z (standard (gasRoute g)) + (1 # 2))
     /\ (inject_Z (fast (gasRoute g)) - (1 # 2) <= 1.2 * g
         /\ 1.2 * g < inject_Z (fast (gasRoute g)) + (1 # 2))
     /\ (inject_Z (baseFee (gasRoute g)) - (1 # 2) <= 0.9 * g
         /\ 0.9 * g < inject_Z (baseFee (gasRoute g)) + (1 # 2)))
  /\ (forall src chain,
        getGasDataFallback src chain
        = match blockchain_gas src chain with
          | Normal data =>
              Normal (GasPrices chain (orNA (gb_slow data)) (orNA (gb_standard data))
                        (orNA (gb_fast data)))
          | Throw message => Normal (GasError message)
          end)
  /\ (forall v, ~ v == 0 -> orNA (Gwei v) = Value v).
Proof.
  split; [|split].
  - intro g. split; [reflexivity|].
    unfold gasRoute; cbn [slow standard fast baseFee].
    pose proof (Math_round_nearest (g * 0.8)) as H1.
    pose proof (Math_round_nearest g) as H2.
    pose proof (Math_round_nearest (g * 1.2)) as H3.
    pose proof (Math_round_nearest (g * 0.9)) as H4.
    repeat split; lra.
  - reflexivity.
  - intros v Hv. unfold orNA.
    destruct (Qeq_bool v 0) eqn:E; [|reflexivity].
    apply Qeq_bool_iff in E. contradiction.
Qed.

(** C9, as stated, fails on the fallback path.  The upstream response
    carries slow 12.5, standard 20, fast 30: the fallback shows them
    unchanged, 12.5 is not a whole number of Gwei, and the tiers of the
    route for 20 Gwei are 16, 20 and 24. *)
Lemma gas_fallback_shows_upstream_fields :
  getGasDataFallback onlyEthereum "ethereum"
  = Normal (GasPrices "ethereum" (Value 12.5) (Value 20) (Value 30))
  /\ (forall n : Z, ~ 12.5 == inject_Z n)
  /\ gasRoute 20 = mkGasPrice 16 20 24 18.
Proof.
  split; [reflexivity|]. split; [|reflexivity].
  intros n H. unfold Qeq in H. simpl in H. lia.
Qed.

End RiskProperties.

(* ================================================================== *)
(** * Further properties of the supervisor and of the tool client      *)
(* ================================================================== *)

Section SupervisorInvariants.
Import Supervisor Traces.

Ltac open_methods :=
  unfold step, onClose, onCloseOuter, onCloseInner, handleConnectionLoss,
    onStderr, onReadyOuter, onReadyInner, onError, onConnectionMonitor,
    onToolTimeout, onHealthCheck, restart, start, callMcpTool,
    enableFallbackMode, startHealthCheck, stopHealthCheck, settle,
    setTimeout, clearTimeout in *.

Ltac case_ifs :=
  repeat match goal with
  | |- context [if ?x <? ?y then _ else _] => destruct (Z.ltb_spec x y)
  | |- context [if ?b then _ else _] => destruct b eqn:?
  | |- context [match ?x with _ => _ end] => destruct x eqn:?
  end.

Ltac fields :=
  cbn [server timers running spawned startCalls dataListeners promises
       isConnected mcpProcess requestId retryCount maxRetries
       healthCheckInterval fallbackMode lastError
       on_server set_isConnected set_mcpProcess set_requestId set_retryCount
       set_healthCheckInterval set_fallbackMode set_lastError set_timers
       set_running set_spawned set_startCalls set_dataListeners set_promises].

Lemma onData_keeps_server rid c r : server (onData rid c r) = server r.
Proof. unfold onData, settle, clearTimeout. case_ifs; reflexivity. Qed.

Lemma onData_keeps_running rid c r :
  running (onData rid c r) = running r /\ startCalls (onData rid c r) = startCalls r.
Proof. unfold onData, settle, clearTimeout. case_ifs; split; reflexivity. Qed.

Lemma fold_onData_keeps c ids : forall r,
  let r' := fold_left (fun r rid => onData rid c r) ids r in
  server r' = server r /\ running r' = running r /\ startCalls r' = startCalls r.
Proof.
  induction ids as [|i ids IH]; intro r; simpl; [auto|].
  destruct (IH (onData i c r)) as (H1 & H2 & H3).
  destruct (onData_keeps_running i c r) as [H4 H5].
  rewrite H1, H2, H3, H4, H5, onData_keeps_server. auto.
Qed.

Lemma onStdout_keeps p c r :
  server (onStdout p c r) = server (onStderr c r)
  /\ running (onStdout p c r) = running (onStderr c r)
  /\ startCalls (onStdout p c r) = startCalls (onStderr c r).
Proof. unfold onStdout. apply fold_onData_keeps. Qed.

Lemma mem_pid_nonempty p ps : mem_pid p ps = true -> ps <> [].
Proof. destruct ps; [discriminate | discriminate]. Qed.

Lemma connection_ok_step r e :
  connection_ok r -> enabled r e = true -> connection_ok (step r e).
Proof.
  unfold connection_ok. intros [Hc Hr] He.
  destruct e; simpl in He;
    try (apply mem_pid_nonempty in He; specialize (Hr He));
    try (simpl step; destruct (onStdout_keeps p c r) as (-> & -> & _));
    open_methods; case_ifs; simpl in *;
    split; intros; repeat split; try congruence; try discriminate;
    try (apply Hc; congruence); try (apply Hr; congruence);
    try (destruct (Hc eq_refl); congruence);
    try (destruct Hc as [Hc1 Hc2]; [assumption|]; congruence);
    try (exfalso; apply (Hr ltac:(assumption)); reflexivity).
Qed.

Lemma reachable_connection_ok r : Reachable r -> connection_ok r.
Proof.
  induction 1 as [|r e _ IH He].
  - split; simpl; [discriminate | intro H; contradiction H; reflexivity].
  - apply connection_ok_step; assumption.
Qed.

(** X1.  In every reachable state a connected supervisor has a child
    handle and a registered health check, so a tool call made while
    connected always registers its listener on that child's stdout and
    its timeout, and leaves its promise pending. *)
Theorem connected_supervisor_can_call :
  forall r toolName,
    Reachable r ->
    isConnected (server r) = true ->
    healthCheckInterval (server r) = true
    /\ exists c,
         mcpProcess (server r) = Some c
         /\ snd (callMcpTool toolName r) = Issued (increment (requestId (server r)))
         /\ dataListeners (fst (callMcpTool toolName r))
            = dataListeners r ++ [(pid c, increment (requestId (server r)))]
         /\ timers (fst (callMcpTool toolName r))
            = timers r ++ [ToolTimeout (increment (requestId (server r)))]
         /\ promises (fst (callMcpTool toolName r)) = promises r.
Proof.
  intros r toolName Hr Hc.
  destruct (reachable_connection_ok r Hr) as [H _].
  destruct (H Hc) as [Hp Hh]. split; [exact Hh|].
  destruct (mcpProcess (server r)) as [c|] eqn:Ep; [|contradiction Hp; reflexivity].
  exists c. unfold callMcpTool. rewrite Hc. simpl. rewrite Ep. simpl. auto.
Qed.

Lemma connected_supervisor_can_call_witness :
  healthCheckInterval (server connected) = true
  /\ exists c,
       mcpProcess (server connected) = Some c
       /\ snd (callMcpTool "get_tokens" connected)
          = Issued (increment (requestId (server connected)))
       /\ dataListeners (fst (callMcpTool "get_tokens" connected))
          = dataListeners connected ++ [(pid c, increment (requestId (server connected)))]
       /\ timers (fst (callMcpTool "get_tokens" connected))
          = timers connected ++ [ToolTimeout (increment (requestId (server connected)))]
       /\ promises (fst (callMcpTool "get_tokens" connected)) = promises connected.
Proof.
  apply (connected_supervisor_can_call connected "get_tokens").
  - unfold connected.
    apply (reach_step _ (Stdout 0%nat ready)); [|reflexivity].
    apply (reach_step _ (Boot Spawned)); [apply reach_boot | reflexivity].
  - reflexivity.
Defined.

Lemma settled_app id ps l o :
  settled id ps = Some o -> settled id (ps ++ l) = Some o.
Proof.
  induction ps as [|[j o'] ps IH]; simpl; [discriminate|].
  destruct (id =? j); [auto | exact IH].
Qed.

Lemma settle_keeps id o r : keeps_settlements (promises r) (promises (settle id o r)).
Proof.
  unfold keeps_settlements, settle. intros i o' H.
  destruct (settled id (promises r)); simpl; [exact H | apply settled_app, H].
Qed.

Lemma keeps_settlements_trans ps1 ps2 ps3 :
  keeps_settlements ps1 ps2 -> keeps_settlements ps2 ps3 -> keeps_settlements ps1 ps3.
Proof. unfold keeps_settlements. auto. Qed.

Lemma keeps_settlements_refl ps : keeps_settlements ps ps.
Proof. unfold keeps_settlements. auto. Qed.

Lemma onData_keeps_settlements rid c r :
  keeps_settlements (promises r) (promises (onData rid c r)).
Proof.
  unfold onData.
  destruct (parsed c) as [[id err]|]; [|apply keeps_settlements_refl].
  destruct (id =? rid); [|apply keeps_settlements_refl].
  set (r1 := clearTimeout (ToolTimeout rid) r).
  set (r2 := match mcpProcess (server r1) with
             | Some cur => set_dataListeners
                             (remove_listener (pid cur, rid) (dataListeners r1)) r1
             | None => r1
             end).
  assert (E : promises r2 = promises r).
  { unfold r2, r1, clearTimeout. destruct (mcpProcess _); reflexivity. }
  rewrite <- E. destruct err; apply settle_keeps.
Qed.

Lemma fold_onData_keeps_settlements c ids : forall r,
  keeps_settlements (promises r)
    (promises (fold_left (fun r rid => onData rid c r) ids r)).
Proof.
  induction ids as [|i ids IH]; intro r; simpl; [apply keeps_settlements_refl|].
  eapply keeps_settlements_trans; [apply onData_keeps_settlements | apply IH].
Qed.

(** X2.  The promise of a tool call is settled once: whatever event
    follows (a late response after the timeout, the timeout after the
    response, a restart), the settlement recorded first stays. *)
Theorem settlement_is_final :
  forall r e id o,
    settled id (promises r) = Some o ->
    settled id (promises (step r e)) = Some o.
Proof.
  intros r e id o H.
  assert (K : keeps_settlements (promises r) (promises (step r e))).
  { destruct e; simpl step;
      try (unfold onStdout;
           eapply keeps_settlements_trans; [|apply fold_onData_keeps_settlements]);
      try apply settle_keeps;
      open_methods; case_ifs; simpl;
      try apply keeps_settlements_refl;
      intros i o' Hi; simpl; try exact Hi; try (apply settled_app; exact Hi). }
  apply K, H.
Qed.

Lemma settlement_is_final_witness :
  let timed_out := step (fst (callMcpTool "get_tokens" connected)) (FireToolTimeout 1) in
  let late := step timed_out
                (Stdout 0%nat {| containsReady := false; parsed := Some (1, None) |}) in
  settled 1 (promises late) = Some (Rejected "MCP request timeout").
Proof.
  intros timed_out late.
  apply (settlement_is_final timed_out
           (Stdout 0%nat {| containsReady := false; parsed := Some (1, None) |})
           1 (Rejected "MCP request timeout")).
  reflexivity.
Defined.

Lemma disconnected_step r e :
  isConnected (server r) = false -> no_ready e = true ->
  isConnected (server (step r e)) = false
  /\ issued r e = None
  /\ requestId (server (step r e)) = requestId (server r).
Proof.
  intros Hd Hn.
  destruct e; simpl in Hn; try apply negb_true_iff in Hn;
    try (simpl step; destruct (onStdout_keeps p c r) as (-> & _));
    simpl issued; open_methods; try rewrite Hn; try rewrite Hd; simpl;
    case_ifs; simpl; auto.
Qed.

(** X3.  A disconnected supervisor stays disconnected until a child
    prints the readiness marker: along any events without the marker no
    tool call gets an id and the request counter does not move. *)
Theorem disconnected_supervisor_issues_nothing :
  forall tr r,
    isConnected (server r) = false ->
    forallb no_ready tr = true ->
    isConnected (server (run r tr)) = false
    /\ correlationIds r tr = []
    /\ requestId (server (run r tr)) = requestId (server r).
Proof.
  induction tr as [|e tr IH]; intros r Hd Hn; simpl in *; [auto|].
  apply andb_prop in Hn. destruct Hn as [He Hn].
  destruct (disconnected_step r e Hd He) as (H1 & H2 & H3).
  destruct (IH (step r e) H1 Hn) as (I1 & I2 & I3).
  rewrite H2. repeat split; [exact I1 | exact I2 | congruence].
Qed.

Lemma disconnected_supervisor_issues_nothing_witness :
  let tr := [CallTool "get_tokens"; FireConnectionMonitor;
             CallTool "get_wallet_portfolio"; Close 0%nat; CallTool "get_tokens"] in
  isConnected (server (run (step boot (Boot Spawned)) tr)) = false
  /\ correlationIds (step boot (Boot Spawned)) tr = []
  /\ requestId (server (run (step boot (Boot Spawned)) tr))
     = requestId (server (step boot (Boot Spawned))).
Proof.
  intro tr.
  apply (disconnected_supervisor_issues_nothing tr (step boot (Boot Spawned)));
    reflexivity.
Defined.

Lemma handle_alive_step r e :
  handle_alive r -> spawn_succeeds e = true -> handle_alive (step r e).
Proof.
  unfold handle_alive. intros Ha Hs.
  destruct e; simpl in Hs; try (destruct sp; [|discriminate Hs]);
    try (simpl step; destruct (onStdout_keeps p c r) as (-> & _));
    open_methods; simpl;
    destruct (mcpProcess (server r)) as [c0|] eqn:E0; simpl; rewrite ?E0;
    case_ifs; simpl in *; rewrite ?E0 in *;
    repeat match goal with
    | H : Some _ = Some _ |- _ => inversion H; subst; clear H
    end;
    simpl in *; try congruence; auto.
Qed.

Lemma handle_alive_run tr : forall r,
  handle_alive r -> forallb spawn_succeeds tr = true -> handle_alive (run r tr).
Proof.
  induction tr as [|e tr IH]; intros r Ha Hs; simpl in *; [exact Ha|].
  apply andb_prop in Hs. destruct Hs as [He Hs].
  apply IH; [apply handle_alive_step; assumption | exact Hs].
Qed.

(** X4.  The health check looks at the [killed] flag of the current
    handle, which only [kill()] in [restart()] sets, and [restart()]
    replaces the handle at once when [spawn] succeeds.  So as long as
    [spawn] never throws, the interval callback changes nothing, also
    after the child has exited on its own. *)
Theorem health_check_changes_nothing :
  forall tr sp,
    forallb spawn_succeeds tr = true ->
    step (run boot tr) (HealthTick sp) = run boot tr.
Proof.
  intros tr sp Hs.
  pose proof (handle_alive_run tr boot I Hs) as Ha.
  unfold handle_alive in Ha. simpl step. unfold onHealthCheck.
  destruct (mcpProcess (server (run boot tr))) as [c|]; [|reflexivity].
  rewrite Ha. reflexivity.
Qed.

Lemma health_check_changes_nothing_witness :
  let tr := [Boot Spawned; Stdout 0%nat ready; Restart Spawned;
             Stdout 1%nat ready; Close 1%nat] in
  step (run boot tr) (HealthTick Spawned) = run boot tr.
Proof.
  intro tr. apply (health_check_changes_nothing tr Spawned). reflexivity.
Defined.

Lemma restart_timers_app ts t :
  List.length (filter (Timer_eqb RestartTimer) (ts ++ [t]))
  = (List.length (filter (Timer_eqb RestartTimer) ts)
     + (if Timer_eqb RestartTimer t then 1 else 0))%nat.
Proof.
  rewrite filter_app, length_app. f_equal. simpl.
  destruct t; reflexivity.
Qed.

(** X5.  One exit of the child runs both 'close' handlers: the counter
    moves up by two (by what is left of the budget when less is left),
    every step of the counter schedules exactly one [start()], and
    [start()] itself is not called. *)
Theorem exit_schedules_one_start_per_retry :
  forall r p,
    budget_ok (server r) ->
    retryCount (server (step r (Close p))) = Z.min 3 (retryCount (server r) + 2)
    /\ Z.of_nat (pending_restarts (step r (Close p)))
       = Z.of_nat (pending_restarts r)
         + (retryCount (server (step r (Close p))) - retryCount (server r))
    /\ startCalls (step r (Close p)) = startCalls r.
Proof.
  intros r p [Hrc Hmax]. unfold pending_restarts.
  open_methods. case_ifs; simpl in *; rewrite ?restart_timers_app; simpl;
    repeat split; try lia.
Qed.

Lemma exit_schedules_one_start_per_retry_witness :
  retryCount (server (step connected (Close 0%nat))) = Z.min 3 (retryCount (server connected) + 2)
  /\ Z.of_nat (pending_restarts (step connected (Close 0%nat)))
     = Z.of_nat (pending_restarts connected)
       + (retryCount (server (step connected (Close 0%nat))) - retryCount (server connected))
  /\ startCalls (step connected (Close 0%nat)) = startCalls connected.
Proof.
  apply (exit_schedules_one_start_per_retry connected 0%nat).
  unfold budget_ok. simpl. lia.
Defined.

Lemma restart_timers_remove_other t ts :
  Timer_eqb RestartTimer t = false ->
  filter (Timer_eqb RestartTimer) (remove_timer t ts)
  = filter (Timer_eqb RestartTimer) ts.
Proof.
  intro Ht. induction ts as [|u ts IH]; simpl; [reflexivity|].
  destruct (Timer_eqb t u) eqn:E.
  - destruct t, u; simpl in *; try discriminate; reflexivity.
  - simpl. rewrite IH. reflexivity.
Qed.

Lemma restart_timers_remove ts :
  mem_timer RestartTimer ts = true ->
  S (List.length (filter (Timer_eqb RestartTimer) (remove_timer RestartTimer ts)))
  = List.length (filter (Timer_eqb RestartTimer) ts).
Proof.
  induction ts as [|u ts IH]; [discriminate|].
  destruct u; simpl; [reflexivity | exact IH | exact IH].
Qed.

Lemma onData_keeps_restarts rid c r :
  pending_restarts (onData rid c r) = pending_restarts r.
Proof.
  unfold onData, settle, clearTimeout, pending_restarts.
  case_ifs; simpl; rewrite ?restart_timers_remove_other by reflexivity; reflexivity.
Qed.

Lemma fold_onData_keeps_restarts c ids : forall r,
  pending_restarts (fold_left (fun r rid => onData rid c r) ids r) = pending_restarts r.
Proof.
  induction ids as [|i ids IH]; intro r; simpl; [reflexivity|].
  rewrite IH. apply onData_keeps_restarts.
Qed.

Lemma restart_balance_step r e :
  enabled r e = true -> automatic e = true ->
  restart_balance (step r e) = restart_balance r.
Proof.
  intros He Ha. unfold restart_balance.
  destruct e; simpl in Ha; try discriminate Ha; try apply negb_true_iff in Ha.
  - (* Close *)
    unfold pending_restarts. open_methods.
    case_ifs; simpl in *; rewrite ?restart_timers_app; simpl; lia.
  - (* Stdout *)
    simpl step. destruct (onStdout_keeps p c r) as (-> & _ & ->).
    unfold onStdout. rewrite fold_onData_keeps_restarts.
    unfold onStderr, onReadyOuter, onReadyInner. rewrite Ha. reflexivity.
  - simpl step. unfold onStderr, onReadyOuter, onReadyInner. rewrite Ha. reflexivity.
  - unfold pending_restarts. open_methods. simpl. reflexivity.
  - (* FireRestart *)
    simpl in He. apply restart_timers_remove in He.
    unfold pending_restarts. open_methods.
    destruct sp; fields; rewrite ?restart_timers_app; fields;
      rewrite <- He, ?Nat2Z.inj_succ, ?Nat2Z.inj_add; simpl Z.of_nat; lia.
  - unfold pending_restarts. open_methods.
    case_ifs; simpl; rewrite restart_timers_remove_other by reflexivity; reflexivity.
  - unfold pending_restarts. open_methods.
    case_ifs; simpl; rewrite restart_timers_remove_other by reflexivity; reflexivity.
  - unfold pending_restarts. open_methods. reflexivity.
  - unfold pending_restarts. open_methods.
    case_ifs; simpl; rewrite ?restart_timers_app; simpl;
      repeat rewrite Nat.add_0_r; reflexivity.
Qed.

Lemma budget_step r e : budget_ok (server r) -> budget_ok (server (step r e)).
Proof.
  unfold budget_ok. intros [Hrc Hmax].
  destruct e; try (simpl step; destruct (onStdout_keeps p c r) as (-> & _));
    open_methods; case_ifs; simpl in *; lia.
Qed.

(** X6.  Between two resets of the budget the restarts are bounded.
    Along events that run on their own (exits, timers, errors, calls,
    output without the readiness marker) the [start()] calls made or
    pending, less the retries used, stay the same; so no more than the
    pending ones plus one per retry left are ever made. *)
Theorem automatic_restarts_are_bounded :
  forall tr r,
    budget_ok (server r) ->
    feasible r tr = true ->
    forallb automatic tr = true ->
    restart_balance (run r tr) = restart_balance r
    /\ Z.of_nat (startCalls (run r tr))
       <= Z.of_nat (startCalls r) + Z.of_nat (pending_restarts r)
          + (3 - retryCount (server r)).
Proof.
  induction tr as [|e tr IH]; intros r Hb Hf Ha.
  - split; [reflexivity|]. destruct Hb as [Hrc Hmax]. simpl run. lia.
  - cbn [feasible forallb] in Hf, Ha.
    apply andb_prop in Hf. destruct Hf as [He Hf].
    apply andb_prop in Ha. destruct Ha as [Hae Ha].
    pose proof (restart_balance_step r e He Hae) as Hs.
    destruct (IH (step r e) (budget_step r e Hb) Hf Ha) as [I1 I2].
    change (run r (e :: tr)) with (run (step r e) tr).
    split; [congruence|].
    unfold restart_balance in Hs. lia.
Qed.

Lemma automatic_restarts_are_bounded_witness :
  let tr := [Close 0%nat; FireRestart Spawned; FireRestart Spawned;
             Close 1%nat; Close 2%nat; FireRestart Spawned; Close 3%nat] in
  restart_balance (run (step boot (Boot Spawned)) tr)
  = restart_balance (step boot (Boot Spawned))
  /\ Z.of_nat (startCalls (run (step boot (Boot Spawned)) tr))
     <= Z.of_nat (startCalls (step boot (Boot Spawned)))
        + Z.of_nat (pending_restarts (step boot (Boot Spawned)))
        + (3 - retryCount (server (step boot (Boot Spawned)))).
Proof.
  intro tr.
  apply (automatic_restarts_are_bounded tr (step boot (Boot Spawned))).
  - unfold budget_ok. simpl. lia.
  - reflexivity.
  - reflexivity.
Defined.

Lemma settled_app_other rid id o ps :
  rid <> id -> settled rid (ps ++ [(id, o)]) = settled rid ps.
Proof.
  intro Hne. induction ps as [|[j o'] ps IH]; simpl.
  - destruct (Z.eqb_spec rid id); [contradiction | reflexivity].
  - destruct (rid =? j); [reflexivity | exact IH].
Qed.

Lemma mem_timer_remove_other rid id ts :
  rid <> id ->
  mem_timer (ToolTimeout rid) (remove_timer (ToolTimeout id) ts)
  = mem_timer (ToolTimeout rid) ts.
Proof.
  intro Hne. unfold mem_timer. induction ts as [|u ts IH]; simpl; [reflexivity|].
  destruct u as [| |j]; simpl; try (rewrite IH; reflexivity).
  destruct (Z.eqb_spec id j) as [E|E].
  - subst j. destruct (Z.eqb_spec rid id); [contradiction | reflexivity].
  - simpl. rewrite IH. reflexivity.
Qed.

Lemma In_remove_listener_other q rid cur id ls :
  rid <> id ->
  In (q, rid) (remove_listener (cur, id) ls) <-> In (q, rid) ls.
Proof.
  intro Hne. induction ls as [|[q' j] ls IH]; simpl; [tauto|].
  unfold listener_eqb. simpl.
  destruct (Nat.eqb cur q' && (id =? j)) eqn:E.
  - apply andb_prop in E. destruct E as [_ E]. apply Z.eqb_eq in E. subst j.
    split; [auto|]. intros [H|H]; [inversion H; congruence | exact H].
  - simpl. rewrite IH. tauto.
Qed.

Lemma same_call_refl rid r : same_call rid r r.
Proof. unfold same_call. repeat split; auto. Qed.

Lemma same_call_trans rid r1 r2 r3 :
  same_call rid r1 r2 -> same_call rid r2 r3 -> same_call rid r1 r3.
Proof.
  unfold same_call. intros (A1 & A2 & A3) (B1 & B2 & B3).
  repeat split; try congruence; intro H; [apply A3, B3, H | apply B3, A3, H].
Qed.

Lemma onData_same_call rid rid' c id err r :
  parsed c = Some (id, err) -> rid <> id -> same_call rid r (onData rid' c r).
Proof.
  intros Hp Hne. unfold onData. rewrite Hp.
  destruct (Z.eqb_spec id rid') as [E|E]; [subst rid'|apply same_call_refl].
  unfold same_call, settle, clearTimeout.
  case_ifs; fields;
    rewrite ?settled_app_other by exact Hne;
    rewrite ?mem_timer_remove_other by exact Hne;
    repeat split; try reflexivity;
    try (apply In_remove_listener_other; exact Hne);
    try (intro H; apply (In_remove_listener_other _ _ _ _ _ Hne) in H; exact H);
    auto.
Qed.

Lemma fold_onData_same_call rid c id err ids : forall r,
  parsed c = Some (id, err) -> rid <> id ->
  same_call rid r (fold_left (fun r rid' => onData rid' c r) ids r).
Proof.
  induction ids as [|i ids IH]; intros r Hp Hne; simpl; [apply same_call_refl|].
  eapply same_call_trans; [apply (onData_same_call rid i c id err r Hp Hne)|].
  apply IH; assumption.
Qed.

(** X7.  A response is matched by its id only: a chunk of output that
    parses to a response for [id] leaves every other call as it was, its
    promise, its timeout and its listener. *)
Theorem response_touches_only_its_call :
  forall r p c id err rid,
    parsed c = Some (id, err) ->
    rid <> id ->
    same_call rid r (step r (Stdout p c)).
Proof.
  intros r p c id err rid Hp Hne. simpl step. unfold onStdout.
  eapply same_call_trans; [|apply (fold_onData_same_call rid c id err _ _ Hp Hne)].
  unfold same_call, onReadyOuter, onReadyInner, startHealthCheck, stopHealthCheck.
  destruct (containsReady c); fields; repeat split; auto.
Qed.

Lemma response_touches_only_its_call_witness :
  let two_calls := fst (callMcpTool "get_wallet_portfolio"
                          (fst (callMcpTool "get_tokens" connected))) in
  same_call 2 two_calls
    (step two_calls (Stdout 0%nat {| containsReady := false; parsed := Some (1, None) |})).
Proof.
  intro two_calls.
  apply (response_touches_only_its_call two_calls 0%nat
           {| containsReady := false; parsed := Some (1, None) |} 1 None 2).
  - reflexivity.
  - discriminate.
Defined.

Lemma fold_onData_unparsed c ids : forall r,
  parsed c = None -> fold_left (fun r rid => onData rid c r) ids r = r.
Proof.
  induction ids as [|i ids IH]; intros r Hp; simpl; [reflexivity|].
  unfold onData at 2. rewrite Hp. apply IH, Hp.
Qed.

(** X8.  Diagnostic output of the child is ignored: a chunk that is not
    JSON and does not contain the readiness marker changes nothing,
    however many calls are waiting, on stdout as on stderr. *)
Theorem diagnostic_output_is_ignored :
  forall r p c,
    containsReady c = false ->
    parsed c = None ->
    step r (Stdout p c) = r /\ step r (Stderr p c) = r.
Proof.
  intros r p c Hr Hp. simpl step.
  unfold onStdout, onStderr, onReadyOuter, onReadyInner. rewrite Hr.
  split; [apply fold_onData_unparsed, Hp | reflexivity].
Qed.

Lemma diagnostic_output_is_ignored_witness :
  let waiting := fst (callMcpTool "get_tokens" connected) in
  let line := {| containsReady := false; parsed := None |} in
  step waiting (Stdout 0%nat line) = waiting
  /\ step waiting (Stderr 0%nat line) = waiting.
Proof.
  intros waiting line.
  apply (diagnostic_output_is_ignored waiting 0%nat line); reflexivity.
Defined.

End SupervisorInvariants.

(* ================================================================== *)
(** * Properties of the dispatch                                       *)
(* ================================================================== *)

Section DispatchProperties.
Import JSString Classifier Supervisor Dispatch Traces.

Lemma getAIResponse_disconnected message r :
  isConnected (server r) = false ->
  exists call,
    snd (getAIResponse message r) = Answered (FromFallback call)
    /\ fallbackMode (server (fst (getAIResponse message r))) = true
    /\ isConnected (server (fst (getAIResponse message r))) = false
    /\ requestId (server (fst (getAIResponse message r))) = requestId (server r)
    /\ timers (fst (getAIResponse message r)) = timers r
    /\ dataListeners (fst (getAIResponse message r)) = dataListeners r
    /\ promises (fst (getAIResponse message r)) = promises r
    /\ (needsData (getBlockchainContext message) = true ->
        call = getFallbackResponse message (fromClassifier (getBlockchainContext message))
        /\ lastError (server (fst (getAIResponse message r)))
           = Some "MCP tool error: MCP server not connected")
    /\ (needsData (getBlockchainContext message) = false -> call = General message).
Proof.
  intro Hd. unfold getAIResponse. rewrite Hd. simpl negb. simpl andb.
  set (r1 := if negb (fallbackMode (server r))
             then enableFallbackMode "Auto-enable fallback due to MCP unavailability" r
             else r).
  assert (H1 : isConnected (server r1) = false
               /\ fallbackMode (server r1) = true
               /\ requestId (server r1) = requestId (server r)
               /\ timers r1 = timers r /\ dataListeners r1 = dataListeners r
               /\ promises r1 = promises r).
  { unfold r1, enableFallbackMode.
    destruct (fallbackMode (server r)) eqn:Ef; simpl; auto 10. }
  destruct H1 as (C1 & F1 & Q1 & T1 & L1 & P1).
  destruct (needsData (getBlockchainContext message)) eqn:En.
  - unfold callMcpTool. rewrite C1. simpl.
    eexists. split; [reflexivity|].
    repeat split; auto; try (intros; congruence).
  - rewrite C1. eexists. split; [reflexivity|]. simpl.
    repeat split; auto; try (intros; congruence).
Qed.

(** X9.  While the supervisor is not connected, a chat message is
    answered by the fallback responder without any traffic to the
    child: no id is used, no timer and no listener is registered, and the
    supervisor is in fallback mode afterwards.  A query that needs data
    goes to the call [getFallbackResponse] picks, any other to the
    general text. *)
Theorem disconnected_message_goes_to_fallback :
  forall message r,
    isConnected (server r) = false ->
    exists call,
      snd (getAIResponse message r) = Answered (FromFallback call)
      /\ fallbackMode (server (fst (getAIResponse message r))) = true
      /\ isConnected (server (fst (getAIResponse message r))) = false
      /\ requestId (server (fst (getAIResponse message r))) = requestId (server r)
      /\ timers (fst (getAIResponse message r)) = timers r
      /\ dataListeners (fst (getAIResponse message r)) = dataListeners r
      /\ (needsData (getBlockchainContext message) = true ->
          call = getFallbackResponse message (fromClassifier (getBlockchainContext message)))
      /\ (needsData (getBlockchainContext message) = false -> call = General message).
Proof.
  intros message r Hd.
  destruct (getAIResponse_disconnected message r Hd)
    as (call & H1 & H2 & H3 & H4 & H5 & H6 & _ & H8 & H9).
  exists call. repeat split; auto. intro Hn. apply (H8 Hn).
Qed.

Lemma disconnected_message_goes_to_fallback_witness :
  exists call,
    snd (getAIResponse "gas fees" boot) = Answered (FromFallback call)
    /\ fallbackMode (server (fst (getAIResponse "gas fees" boot))) = true
    /\ isConnected (server (fst (getAIResponse "gas fees" boot))) = false
    /\ requestId (server (fst (getAIResponse "gas fees" boot))) = requestId (server boot)
    /\ timers (fst (getAIResponse "gas fees" boot)) = timers boot
    /\ dataListeners (fst (getAIResponse "gas fees" boot)) = dataListeners boot
    /\ (needsData (getBlockchainContext "gas fees") = true ->
        call = getFallbackResponse "gas fees" (fromClassifier (getBlockchainContext "gas fees")))
    /\ (needsData (getBlockchainContext "gas fees") = false -> call = General "gas fees").
Proof.
  apply (disconnected_message_goes_to_fallback "gas fees" boot). reflexivity.
Defined.

Lemma session_disconnected acts : forall r,
  isConnected (server r) = false ->
  without_ready acts = true ->
  Forall (fun p => exists call, p = Answered (FromFallback call)) (snd (session r acts))
  /\ isConnected (server (fst (session r acts))) = false
  /\ requestId (server (fst (session r acts))) = requestId (server r).
Proof.
  induction acts as [|a acts IH]; intros r Hd Hq.
  - simpl. repeat split; [constructor | exact Hd].
  - unfold without_ready in Hq. cbn [forallb] in Hq.
    apply andb_prop in Hq. destruct Hq as [Ha Hq].
    destruct a as [e|message]; cbn [session].
    + destruct (disconnected_step r e Hd Ha) as (Hd' & _ & Hid).
      destruct (IH (step r e) Hd' Hq) as (H1 & H2 & H3).
      repeat split; [exact H1 | exact H2 | congruence].
    + destruct (getAIResponse_disconnected message r Hd)
        as (call & Hp & _ & Hd' & Hid & _).
      destruct (getAIResponse message r) as [r1 progress]. cbn [fst snd] in *.
      destruct (IH r1 Hd' Hq) as (H1 & H2 & H3).
      destruct (session r1 acts) as [r2 rest]. cbn [fst snd] in *.
      repeat split; [|exact H2 | congruence].
      constructor; [exists call; exact Hp | exact H1].
Qed.

(** X10.  A tool call that fails, by timeout or by an error response,
    switches the supervisor to fallback mode with the failure as
    [lastError], and the message is answered by the fallback responder.
    From then on, as long as no output of a child carries the readiness
    marker, whatever events and messages follow, every message is
    answered by the fallback responder, no request id is used and the
    supervisor stays disconnected. *)
Theorem failed_tool_call_disables_the_tool :
  forall message error r acts,
    without_ready acts = true ->
    let r1 := fst (getAIResponse_settled message (Rejected error) r) in
    (exists call, snd (getAIResponse_settled message (Rejected error) r) = FromFallback call)
    /\ fallbackMode (server r1) = true
    /\ isConnected (server r1) = false
    /\ lastError (server r1)
       = Some ((if needsData (getBlockchainContext message)
                then "MCP tool error: " else "MCP general error: ") ++ error)%string
    /\ Forall (fun p => exists call, p = Answered (FromFallback call))
              (snd (session r1 acts))
    /\ isConnected (server (fst (session r1 acts))) = false
    /\ requestId (server (fst (session r1 acts))) = requestId (server r).
Proof.
  intros message error r acts Hq r1.
  assert (H : (exists call, snd (getAIResponse_settled message (Rejected error) r)
                            = FromFallback call)
              /\ fallbackMode (server r1) = true /\ isConnected (server r1) = false
              /\ lastError (server r1)
                 = Some ((if needsData (getBlockchainContext message)
                          then "MCP tool error: " else "MCP general error: ")
                         ++ error)%string
              /\ requestId (server r1) = requestId (server r)).
  { unfold r1, getAIResponse_settled, enableFallbackMode.
    destruct (needsData (getBlockchainContext message)); simpl;
      (split; [eexists; reflexivity|]); repeat split; eauto. }
  destruct H as (A & F & C & E & Q).
  destruct (session_disconnected acts r1 C Hq) as (H1 & H2 & H3).
  repeat split; try assumption. congruence.
Qed.

Lemma failed_tool_call_disables_the_tool_witness :
  let waiting := fst (callMcpTool "get_wallet_portfolio" connected) in
  let acts := [Asks "gas fees";
               Happens (Stdout 0%nat {| containsReady := false; parsed := None |});
               Happens (Close 0%nat);
               Asks "Analyze wallet 0x00000000219ab540356cbb839cbe05303d7705fa";
               Happens (CallTool "get_tokens");
               Asks "help"] in
  let r1 := fst (getAIResponse_settled "portfolio" (Rejected "MCP request timeout")
                   waiting) in
  lastError (server r1) = Some "MCP tool error: MCP request timeout"
  /\ Forall (fun p => exists call, p = Answered (FromFallback call))
            (snd (session r1 acts))
  /\ isConnected (server (fst (session r1 acts))) = false
  /\ requestId (server (fst (session r1 acts))) = requestId (server waiting).
Proof.
  intros waiting acts r1.
  destruct (failed_tool_call_disables_the_tool
              "portfolio" "MCP request timeout" waiting acts eq_refl)
    as (_ & _ & _ & H4 & H5 & H6 & H7).
  split; [exact H4|]. split; [exact H5|]. split; [exact H6 | exact H7].
Defined.

Lemma address_nonempty a : is_address a = true -> String.eqb a "" = false.
Proof. destruct a; [discriminate | reflexivity]. Qed.

Lemma matched_address_is_valid s a : match_address s = Some a -> is_address a = true.
Proof.
  revert a. induction s as [|c s IH]; intros a H.
  - simpl in H. discriminate.
  - change (match_address (String c s))
      with (match address_here (String c s) with
            | Some b => Some b
            | None => match_address s
            end) in H.
    destruct (address_here (String c s)) as [b|] eqn:Hb; [|apply IH, H].
    inversion H; subst b. clear H IH.
    unfold address_here in Hb.
    destruct c as [[] [] [] [] [] [] [] []]; try discriminate.
    destruct s as [|c1 s]; [discriminate|].
    destruct c1 as [[] [] [] [] [] [] [] []]; try discriminate.
    destruct (take_hex 40 s) as [h|] eqn:Ht; [|discriminate].
    inversion Hb; subst a.
    assert (G : forall n s h, take_hex n s = Some h ->
                String.length h = n /\ all_hex h = true).
    { clear. induction n as [|n IHn]; intros s h H; simpl in H.
      - inversion H. split; reflexivity.
      - destruct s as [|c s]; [discriminate|].
        destruct (hex_digit c) eqn:Hc; [|discriminate].
        destruct (take_hex n s) as [h'|] eqn:Ht; [|discriminate].
        inversion H; subst h. destruct (IHn s h' Ht) as [Hl Ha].
        simpl. rewrite Hl, Hc, Ha. split; reflexivity. }
    destruct (G 40%nat s h Ht) as [Hl Ha].
    simpl. rewrite Hl, Ha. reflexivity.
Qed.

Lemma is_address_inv a :
  is_address a = true ->
  exists h, a = String "0" (String "x" h)
            /\ String.length h = 40%nat /\ all_hex h = true.
Proof.
  unfold is_address.
  destruct a as [|c0 a]; [discriminate|].
  destruct c0 as [[] [] [] [] [] [] [] []]; try discriminate.
  destruct a as [|c1 h]; [discriminate|].
  destruct c1 as [[] [] [] [] [] [] [] []]; try discriminate.
  intro H. apply andb_prop in H. destruct H as [Hl Hh].
  apply Nat.eqb_eq in Hl. exists h. auto.
Qed.

Lemma all_hex_lower h : all_hex h = true -> all_hex (toLowerCase h) = true.
Proof.
  induction h as [|c h IH]; simpl; [reflexivity|].
  intro H. apply andb_prop in H. destruct H as [Hc Hh].
  rewrite IH by exact Hh.
  assert (Hc' : hex_digit (lower_char c) = true).
  { revert Hc. destruct c as [[] [] [] [] [] [] [] []]; vm_compute; congruence. }
  rewrite Hc'. reflexivity.
Qed.

Lemma length_lower h : String.length (toLowerCase h) = String.length h.
Proof. induction h as [|c h IH]; simpl; [reflexivity | rewrite IH; reflexivity]. Qed.

Lemma take_hex_all s : all_hex s = true -> take_hex (String.length s) s = Some s.
Proof.
  induction s as [|c s IH]; simpl; [reflexivity|].
  intro H. apply andb_prop in H. destruct H as [Hc Hs].
  rewrite Hc, (IH Hs). reflexivity.
Qed.

Lemma prefix_all_hex sub : forall s,
  prefix sub s = true -> all_hex s = true -> all_hex sub = true.
Proof.
  induction sub as [|c sub IH]; intros s Hp Hs; [reflexivity|].
  destruct s as [|d s]; simpl in Hp; [discriminate|].
  destruct (ascii_dec c d) as [E|E]; [subst d | discriminate].
  simpl in Hs. apply andb_prop in Hs. destruct Hs as [Hc Hs].
  simpl. rewrite Hc. apply (IH s Hp Hs).
Qed.

(** A string of hexadecimal digits contains no text with another
    character in it. *)
Lemma includes_hex_only s sub :
  all_hex s = true -> all_hex sub = false -> includes s sub = false.
Proof.
  intros Hs Hsub. induction s as [|c s IH].
  - change (includes "" sub) with (if prefix sub "" then true else false).
    destruct (prefix sub "") eqn:Hp; [|reflexivity].
    rewrite (prefix_all_hex sub "" Hp eq_refl) in Hsub. discriminate.
  - change (includes (String c s) sub)
      with (if prefix sub (String c s) then true else includes s sub).
    destruct (prefix sub (String c s)) eqn:Hp.
    + rewrite (prefix_all_hex sub _ Hp Hs) in Hsub. discriminate.
    + simpl in Hs. apply andb_prop in Hs. apply IH, Hs.
Qed.

Lemma match_address_after_words pre lh :
  all_hex lh = true -> String.length lh = 40%nat ->
  (forall k, (k < String.length pre)%nat ->
     address_here (drop k (pre ++ String "0" (String "x" lh))%string) = None) ->
  match_address (pre ++ String "0" (String "x" lh))%string
  = Some (String "0" (String "x" lh)).
Proof.
  intros Hh Hl Hk.
  assert (Hhere : address_here (String "0" (String "x" lh))
                  = Some (String "0" (String "x" lh))).
  { change (address_here (String "0" (String "x" lh)))
      with (match take_hex 40 lh with
            | Some h' => Some (String "0" (String "x" h'))
            | None => None
            end).
    rewrite <- Hl, (take_hex_all lh Hh). reflexivity. }
  revert Hk. induction pre as [|c pre IH]; intro Hk.
  - simpl append. apply match_address_here, Hhere.
  - simpl append.
    change (match_address (String c (pre ++ String "0" (String "x" lh))))
      with (match address_here (String c (pre ++ String "0" (String "x" lh))) with
            | Some b => Some b
            | None => match_address (pre ++ String "0" (String "x" lh))%string
            end).
    pose proof (Hk O ltac:(simpl; lia)) as H0. simpl drop in H0. simpl append in H0.
    rewrite H0.
    apply IH. intros k Hlt. apply (Hk (S k)). simpl. lia.
Qed.

Ltac no_keyword H :=
  repeat match goal with
  | |- context [includes ?s ?kw] =>
      lazymatch s with
      | toLowerCase _ => rewrite (includes_hex_only s kw H eq_refl)
      end
  end.

(** X12.  The Telegram commands and the classifier together.  For every
    address the commands accept, the chat messages of [/analyze],
    [/portfolio] and [/nft] are classified as wallet, portfolio and nft
    with the address in lower case and [multiChain] set, so that in
    fallback mode each of them is answered by the multi-chain analysis,
    also the single-chain command [/analyze]. *)
Theorem telegram_commands_run_multichain :
  forall a,
    isValidAddress a = true ->
    (getBlockchainContext (analyzeCommand a)
     = mkContext true (Some "ethereum") wallet (Some (toLowerCase a)) (Some true)
     /\ getFallbackResponse (analyzeCommand a)
          (fromClassifier (getBlockchainContext (analyzeCommand a)))
        = MultiChainWallet (toLowerCase a))
    /\ (getBlockchainContext (portfolioCommand a)
        = mkContext true (Some "ethereum") portfolio (Some (toLowerCase a)) (Some true)
        /\ getFallbackResponse (portfolioCommand a)
             (fromClassifier (getBlockchainContext (portfolioCommand a)))
           = MultiChainPortfolio (toLowerCase a))
    /\ (getBlockchainContext (nftCommand a)
        = mkContext true (Some "ethereum") nft (Some (toLowerCase a)) (Some true)
        /\ getFallbackResponse (nftCommand a)
             (fromClassifier (getBlockchainContext (nftCommand a)))
           = MultiChainNFT (toLowerCase a)).
Proof.
  intros a Ha. unfold isValidAddress in Ha.
  destruct (is_address_inv a Ha) as (h & -> & Hl & Hh).
  pose proof (all_hex_lower h Hh) as Hlh.
  pose proof (length_lower h) as Hll. rewrite Hl in Hll.
  assert (Hw : getBlockchainContext (analyzeCommand (String "0" (String "x" h)))
               = mkContext true (Some "ethereum") wallet
                   (Some (toLowerCase (String "0" (String "x" h)))) (Some true)).
  { unfold analyzeCommand, getBlockchainContext.
    change (toLowerCase ("Analyze wallet " ++ String "0" (String "x" h)))
      with ("analyze wallet " ++ String "0" (String "x" (toLowerCase h)))%string.
    rewrite (match_address_after_words "analyze wallet " (toLowerCase h) Hlh Hll)
      by (intros k Hk; do 15 (destruct k as [|k]; [reflexivity|]); simpl in Hk; lia).
    simpl. no_keyword Hlh. reflexivity. }
  assert (Hp : getBlockchainContext (portfolioCommand (String "0" (String "x" h)))
               = mkContext true (Some "ethereum") portfolio
                   (Some (toLowerCase (String "0" (String "x" h)))) (Some true)).
  { unfold portfolioCommand, getBlockchainContext.
    change (toLowerCase ("Portfolio analysis " ++ String "0" (String "x" h)))
      with ("portfolio analysis " ++ String "0" (String "x" (toLowerCase h)))%string.
    rewrite (match_address_after_words "portfolio analysis " (toLowerCase h) Hlh Hll)
      by (intros k Hk; do 19 (destruct k as [|k]; [reflexivity|]); simpl in Hk; lia).
    simpl. no_keyword Hlh. reflexivity. }
  assert (Hn : getBlockchainContext (nftCommand (String "0" (String "x" h)))
               = mkContext true (Some "ethereum") nft
                   (Some (toLowerCase (String "0" (String "x" h)))) (Some true)).
  { unfold nftCommand, getBlockchainContext.
    change (toLowerCase ("NFT analysis " ++ String "0" (String "x" h)))
      with ("nft analysis " ++ String "0" (String "x" (toLowerCase h)))%string.
    rewrite (match_address_after_words "nft analysis " (toLowerCase h) Hlh Hll)
      by (intros k Hk; do 13 (destruct k as [|k]; [reflexivity|]); simpl in Hk; lia).
    simpl. no_keyword Hlh. reflexivity. }
  rewrite Hw, Hp, Hn.
  repeat split; reflexivity.
Qed.

Lemma telegram_commands_run_multichain_witness :
  getFallbackResponse (analyzeCommand "0xd8dA6BF26964aF9D7eEd9e03E53415D37aA96045")
    (fromClassifier
       (getBlockchainContext (analyzeCommand "0xd8dA6BF26964aF9D7eEd9e03E53415D37aA96045")))
  = MultiChainWallet (toLowerCase "0xd8dA6BF26964aF9D7eEd9e03E53415D37aA96045").
Proof.
  apply (telegram_commands_run_multichain "0xd8dA6BF26964aF9D7eEd9e03E53415D37aA96045").
  reflexivity.
Defined.

(** X11.  Where the fallback responder sends a classified message.  A
    message with an address goes to one of the five wallet, portfolio and
    NFT analyses, with the matched address; an NFT context always goes to
    the multi-chain NFT analysis; [getNFTDataFallback] is never called.
    A message without an address never reaches a call that takes an
    address: it goes to the chain data, the chain catalogue, the gas data
    or the general text. *)
Theorem fallback_routing_of_classified_message :
  forall message,
    let context := getBlockchainContext message in
    let call := getFallbackResponse message (fromClassifier context) in
    (forall t ids c, call <> NFTData t ids c)
    /\ (match_address (toLowerCase message) = None ->
        call = General message \/ call = ChainInfo \/ call = GasData "ethereum"
        \/ exists c, call = ChainData c)
    /\ (forall a, match_address (toLowerCase message) = Some a ->
        call = MultiChainWallet a \/ call = WalletData a "ethereum"
        \/ call = MultiChainPortfolio a \/ call = PortfolioData a "ethereum"
        \/ call = MultiChainNFT a)
    /\ (forall a, match_address (toLowerCase message) = Some a ->
        type context = nft -> call = MultiChainNFT a).
Proof.
  intros message context call. unfold call, context.
  unfold getBlockchainContext, getFallbackResponse, fromClassifier.
  destruct (match_address (toLowerCase message)) as [a|] eqn:Em.
  - pose proof (address_nonempty a (matched_address_is_valid _ _ Em)) as Hne.
    repeat match goal with
    | |- context [if ?b then _ else _] =>
        lazymatch b with
        | context [is_type] => fail
        | context [truthy] => fail
        | context [Dispatch.set] => fail
        | _ => destruct b
        end
    end;
      cbn [base type address multiChain ctx_chain tokenAddress tokenIds is_type
           truthy text andb orb orEthereum set]; rewrite ?Hne;
      simpl;
      repeat (match goal with
              | |- context [if ?b then _ else _] => destruct b
              end; simpl);
      (split; [intros t ids c0 Hc; discriminate Hc|]);
      (split; [intro Hn; discriminate Hn|]);
      (split; [intros a' Ha'; inversion Ha'; subst a'; tauto|]);
      intros a' Ha' Ht; inversion Ha'; subst a'; try discriminate Ht; reflexivity.
  - repeat match goal with
    | |- context [if ?b then _ else _] =>
        lazymatch b with
        | context [is_type] => fail
        | context [truthy] => fail
        | context [Dispatch.set] => fail
        | _ => destruct b
        end
    end;
      cbn [base type address multiChain ctx_chain tokenAddress tokenIds is_type
           truthy text andb orb orEthereum set];
      (split; [intros t ids c0 Hc; discriminate Hc|]);
      (split; [intros _; eauto 6|]);
      (split; intros a' Ha'; discriminate Ha').
Qed.

End DispatchProperties.

(* ================================================================== *)
(** * Further properties of the fallback responder                     *)
(* ================================================================== *)

Section ResponderProperties.
Import Fallback Responder.

Lemma walletChain_sent src address chain f :
  sent (snd (walletChain src address chain f))
  = sent f ++ [Get_account_balance chain address;
               Get_wallet_balances (chainMapping chain) address].
Proof.
  unfold walletChain. rewrite chainEndpoint_is_chain.
  unfold catch, send, chainError, countActive.
  destruct (account_balance src chain address) as [[data|]|m1];
    destruct (wallet_balances src (chainMapping chain) address) as [tokens|m2];
    cbn [fst snd sent activeChains apiErrors ab_usdValue];
    try destruct (ab_usdValue data) as [value| |greater];
    cbn [fst snd sent activeChains apiErrors];
    repeat match goal with
    | |- context [if ?b then _ else _] => destruct b
    end;
    cbn [fst snd sent activeChains apiErrors];
    rewrite <- app_assoc; reflexivity.
Qed.

Lemma walletChains_sent src address cs : forall f,
  sent (snd (walletChains src address cs f))
  = sent f ++ flat_map (fun chain => [Get_account_balance chain address;
                                      Get_wallet_balances (chainMapping chain) address]) cs.
Proof.
  induction cs as [|c cs IH]; intro f.
  - simpl. rewrite app_nil_r. reflexivity.
  - simpl walletChains.
    pose proof (walletChain_sent src address c f) as Hc.
    destruct (walletChain src address c f) as [r f1]. simpl in Hc.
    specialize (IH f1).
    destruct (walletChains src address cs f1) as [rs f2]. simpl in IH.
    simpl snd. rewrite IH, Hc. simpl flat_map. rewrite <- app_assoc. reflexivity.
Qed.

(** X13.  With an API key configured the wallet fan-out sends all twelve
    requests, two for each chain in the order of the chain list,
    whatever the External Data Source answers: a request that fails
    cancels no other. *)
Theorem wallet_fanout_sends_every_request :
  forall key src address,
    apiKeyMissing key = false ->
    snd (getMultiChainWalletFallback key src address) = walletRequests address
    /\ List.length (snd (getMultiChainWalletFallback key src address)) = 12%nat.
Proof.
  intros key src address Hkey.
  assert (E : snd (getMultiChainWalletFallback key src address) = walletRequests address).
  { unfold getMultiChainWalletFallback. rewrite Hkey. unfold analyseWallet.
    pose proof (walletChains_sent src address chains (mkFanout 0 0 [])) as H.
    destruct (walletChains src address chains (mkFanout 0 0 [])) as [rs f].
    simpl in H.
    match goal with
    | |- context [if ?b then _ else _] => destruct b
    end; simpl snd; exact H. }
  split; [exact E | rewrite E; reflexivity].
Qed.

Lemma wallet_fanout_sends_every_request_witness :
  snd (getMultiChainWalletFallback (Some "t-0123456789") ethereumDown sampleAddress)
  = walletRequests sampleAddress
  /\ List.length (snd (getMultiChainWalletFallback (Some "t-0123456789") ethereumDown
                         sampleAddress)) = 12%nat.
Proof.
  apply (wallet_fanout_sends_every_request (Some "t-0123456789") ethereumDown sampleAddress).
  reflexivity.
Defined.

Lemma walletChain_counters src address chain f :
  let r := fst (walletChain src address chain f) in
  let f' := snd (walletChain src address chain f) in
  (wc_tokenValue r == 0 /\ wc_totalValue r == nativeNumber (wc_nativeValue r))%Q
  /\ (0 <= apiErrors f' - apiErrors f <= 1)%Z
  /\ (0 <= activeChains f' - activeChains f <= 1)%Z
  /\ ((if walletChainActive r then 1 else 0) <= activeChains f' - activeChains f)%Z
  /\ (apiErrors f' = apiErrors f ->
      activeChains f' - activeChains f = if walletChainActive r then 1 else 0)%Z.
Proof.
  unfold walletChain. rewrite chainEndpoint_is_chain.
  unfold catch, send, chainError, countActive, walletChainActive.
  destruct (account_balance src chain address) as [[data|]|m1];
    destruct (wallet_balances src (chainMapping chain) address) as [tokens|m2];
    cbn [fst snd sent activeChains apiErrors ab_usdValue];
    try destruct (ab_usdValue data) as [value| |greater];
    cbn [fst snd sent activeChains apiErrors wc_tokenValue wc_totalValue
         wc_nativeValue wc_tokens nativeNumber];
    try change (positive 0%Q || (0 <? Z.of_nat (List.length (@nil WalletToken)))%Z)
      with false;
    cbv iota;
    repeat match goal with
    | |- context [if ?b then _ else _] => destruct b
    end;
    cbn [fst snd sent activeChains apiErrors];
    repeat split; try lia; try reflexivity; try (ring_simplify; reflexivity).
Qed.

Lemma fold_sum_values {A} (g : A -> Q) l : forall x,
  (fold_left (fun total r => total + g r) l x == x + sumQ (map g l))%Q.
Proof.
  induction l as [|r l IH]; intro x; simpl.
  - ring.
  - rewrite IH. ring.
Qed.

Lemma fold_sum_lengths {A B} (g : A -> list B) l : forall n,
  fold_left (fun total r => (total + Z.of_nat (List.length (g r)))%Z) l n
  = (n + Z.of_nat (List.length (flat_map g l)))%Z.
Proof.
  induction l as [|r l IH]; intro n; simpl.
  - lia.
  - rewrite IH, length_app. lia.
Qed.

Lemma walletChains_counters src address cs : forall f,
  let rs := fst (walletChains src address cs f) in
  let f' := snd (walletChains src address cs f) in
  let listed := Z.of_nat (List.length (filter walletChainActive rs)) in
  Forall (fun r => wc_tokenValue r == 0
                   /\ wc_totalValue r == nativeNumber (wc_nativeValue r))%Q rs
  /\ (0 <= apiErrors f' - apiErrors f <= Z.of_nat (List.length cs))%Z
  /\ (0 <= activeChains f' - activeChains f <= Z.of_nat (List.length cs))%Z
  /\ (listed <= activeChains f' - activeChains f)%Z
  /\ (apiErrors f' = apiErrors f -> activeChains f' - activeChains f = listed)%Z.
Proof.
  induction cs as [|c cs IH]; intro f.
  - simpl. repeat split; try lia. constructor.
  - simpl walletChains.
    pose proof (walletChain_counters src address c f) as Hc.
    destruct (walletChain src address c f) as [r f1]. cbn [fst snd] in Hc.
    destruct Hc as (Hv & He & Ha & Hl & Hq).
    specialize (IH f1).
    destruct (walletChains src address cs f1) as [rs f2]. cbn [fst snd] in IH.
    destruct IH as (IF & Ie & Ia & Il & Iq).
    cbn [fst snd]. split; [constructor; assumption|].
    rewrite length_cons, Nat2Z.inj_succ.
    assert (Hlen : Z.of_nat (List.length (filter walletChainActive (r :: rs)))
                   = ((if walletChainActive r then 1 else 0)
                      + Z.of_nat (List.length (filter walletChainActive rs)))%Z).
    { simpl filter. destruct (walletChainActive r); simpl List.length; lia. }
    rewrite Hlen.
    split; [lia|]. split; [lia|]. split; [lia|].
    intro E.
    assert (E1 : apiErrors f1 = apiErrors f) by lia.
    assert (E2 : apiErrors f2 = apiErrors f1) by lia.
    specialize (Hq E1). specialize (Iq E2). lia.
Qed.

(** X14.  What the multi-chain wallet analysis adds up.  Tokens are never
    priced: the value of every chain is its native USD value, and the
    total portfolio value is the sum of the native values.  The token
    count is the number of tokens of all chains.  The counter of API
    errors and the counter of active chains are each between 0 and 6;
    the active counter is at least the number of chains the breakdown
    lists and equal to it when no API error was counted; the 'API
    Errors' note is written exactly when the error counter is not 0. *)
Theorem wallet_totals_count_native_values :
  forall src address,
    let a := fst (analyseWallet src address) in
    let listed := Z.of_nat (List.length (filter walletChainActive (wa_results a))) in
    Forall (fun r => wc_tokenValue r == 0
                     /\ wc_totalValue r == nativeNumber (wc_nativeValue r))%Q
           (wa_results a)
    /\ (wa_totalPortfolioValue a
        == sumQ (map (fun r => nativeNumber (wc_nativeValue r)) (wa_results a)))%Q
    /\ wa_totalTokens a = Z.of_nat (List.length (flat_map wc_tokens (wa_results a)))
    /\ (0 <= wa_apiErrors a <= 6)%Z
    /\ (0 <= wa_activeChains a <= 6)%Z
    /\ (listed <= wa_activeChains a)%Z
    /\ (wa_apiErrors a = 0%Z -> wa_activeChains a = listed)
    /\ (apiErrorsNote a = None <-> wa_apiErrors a = 0%Z).
Proof.
  intros src address a listed. unfold listed, a, analyseWallet.
  pose proof (walletChains_counters src address chains (mkFanout 0 0 [])) as H.
  destruct (walletChains src address chains (mkFanout 0 0 [])) as [rs f].
  cbn [fst snd activeChains apiErrors] in H.
  destruct H as (HF & He & Ha & Hl & Hq).
  change (Z.of_nat (List.length chains)) with 6%Z in He, Ha.
  cbn [fst wa_results wa_totalPortfolioValue wa_totalTokens wa_apiErrors wa_activeChains].
  split; [exact HF|].
  split.
  { rewrite fold_sum_values.
    assert (E : forall l, Forall (fun r => wc_tokenValue r == 0
                                    /\ wc_totalValue r == nativeNumber (wc_nativeValue r))%Q l ->
                (sumQ (map wc_totalValue l)
                 == sumQ (map (fun r => nativeNumber (wc_nativeValue r)) l))%Q).
    { induction 1 as [|r l [_ Hr] _ IH]; simpl; [reflexivity|]. rewrite Hr, IH. reflexivity. }
    rewrite (E rs HF). ring. }
  split; [rewrite fold_sum_lengths; lia|].
  split; [lia|]. split; [lia|]. split; [lia|].
  split; [intro E; specialize (Hq ltac:(lia)); lia|].
  split.
  - unfold apiErrorsNote. cbn [wa_apiErrors].
    destruct (Z.ltb_spec 0 (apiErrors f)); [discriminate | lia].
  - intro E. unfold apiErrorsNote. cbn [wa_apiErrors]. rewrite E. reflexivity.
Qed.

End ResponderProperties.

(* ================================================================== *)
(** * Bounds of the risk scores, recommendations, gas tiers            *)
(* ================================================================== *)

Section RiskBounds.
Import Fallback Responder.
Local Open Scope Q_scope.

Lemma Math_max_within_sum l : Forall (fun v => 0 <= v) l ->
  forall m, Math_max l = Some m -> 0 <= m /\ m <= sumQ l.
Proof.
  induction 1 as [|v l Hv Hl IH]; intros m Hm; simpl in Hm; [discriminate|].
  assert (Hs : 0 <= sumQ l).
  { clear -Hl. induction Hl as [|x l Hx _ IH]; simpl; lra. }
  destruct (Math_max l) as [m'|]; inversion Hm; subst m; simpl.
  - destruct (IH m' eq_refl) as [H0 H1].
    split.
    + apply Qle_trans with v; [exact Hv | apply Q.le_max_l].
    + apply Q.max_lub; lra.
  - split; lra.
Qed.

Lemma portfolio_consistent src address :
  consistent (fold_left (fun pd chain => portfolioChain src address chain pd)
                chains emptyPortfolio)
  /\ (List.length (pd_chains
        (fold_left (fun pd chain => portfolioChain src address chain pd)
           chains emptyPortfolio)) <= 6)%nat.
Proof.
  assert (Hc0 : consistent emptyPortfolio).
  { unfold consistent, chainValues; simpl. repeat split; first [lia | lra]. }
  destruct (portfolio_fold_consistent src address chains emptyPortfolio Hc0) as [H1 H2].
  split; [exact H1|].
  change (List.length chains + List.length (pd_chains emptyPortfolio))%nat
    with 6%nat in H2.
  exact H2.
Qed.

(** X15.  When no chain has a negative value, the three risk scores of
    the portfolio analysis are percentages: concentration,
    diversification and stability all lie between 0 and 100. *)
Theorem risk_scores_are_percentages :
  forall src address,
    let pd := analysePortfolio src address in
    Forall (fun v => 0 <= v) (chainValues pd) ->
    (0 <= concentration (riskAnalysis pd) /\ concentration (riskAnalysis pd) <= 100)
    /\ (0 <= diversification (riskAnalysis pd)
        /\ diversification (riskAnalysis pd) <= 100)
    /\ (0 <= stability (riskAnalysis pd) /\ stability (riskAnalysis pd) <= 100).
Proof.
  intros src address pd Hnn.
  set (pd0 := fold_left (fun pd chain => portfolioChain src address chain pd)
                        chains emptyPortfolio).
  destruct (portfolio_consistent src address) as [(Ht & Ha & Hn) Hlen].
  fold pd0 in Ht, Ha, Hn, Hlen.
  change (chainValues pd) with (chainValues pd0) in Hnn.
  change (riskAnalysis pd) with (assessRisk pd0).
  unfold assessRisk; cbn [concentration diversification stability].
  fold (chainValues pd0).
  split; [|split].
  - destruct (positive (totalValue pd0)) eqn:Hp; [|split; lra].
    apply positive_spec in Hp.
    destruct (Math_max (chainValues pd0)) as [m|] eqn:Em; [|split; lra].
    destruct (Math_max_within_sum _ Hnn m Em) as [H0 H1].
    rewrite <- Ht in H1.
    assert (Hq0 : 0 <= m / totalValue pd0).
    { apply Qle_shift_div_l; [exact Hp | lra]. }
    assert (Hq1 : m / totalValue pd0 <= 1).
    { apply Qle_shift_div_r; [exact Hp | lra]. }
    revert Hq0 Hq1. generalize (m / totalValue pd0). intros q Hq0 Hq1.
    split; lra.
  - assert (Hb : (0 <= pd_activeChains pd0 <= 6)%Z).
    { rewrite Ha. pose proof (filter_length_le positive (chainValues pd0)) as Hf.
      unfold chainValues in Hf at 2. rewrite length_map in Hf. lia. }
    destruct Hb as [Hb0 Hb6]. rewrite Zle_Qle in Hb0, Hb6.
    unfold Qdiv. change (/ inject_Z (Z.of_nat (List.length chains))) with (1 # 6).
    change (inject_Z 0) with 0 in Hb0. change (inject_Z 6) with 6 in Hb6.
    revert Hb0 Hb6. generalize (inject_Z (pd_activeChains pd0)). intros x Hb0 Hb6.
    split; lra.
  - destruct (Z.ltb_spec 0 (totalTokens pd0)) as [Hlt|Hge]; [|split; lra].
    split; [|apply Q.le_min_l].
    apply Q.min_glb; [lra|].
    assert (Hx : 0 <= inject_Z (totalTokens pd0)).
    { change 0 with (inject_Z 0). rewrite <- Zle_Qle. lia. }
    unfold Qdiv. change (/ 10) with (1 # 10).
    revert Hx. generalize (inject_Z (totalTokens pd0)). intros x Hx. lra.
Qed.

Lemma risk_scores_are_percentages_witness :
  let pd := analysePortfolio onlyEthereum sampleAddress in
  (0 <= concentration (riskAnalysis pd) /\ concentration (riskAnalysis pd) <= 100)
  /\ (0 <= diversification (riskAnalysis pd)
      /\ diversification (riskAnalysis pd) <= 100)
  /\ (0 <= stability (riskAnalysis pd) /\ stability (riskAnalysis pd) <= 100).
Proof.
  apply (risk_scores_are_percentages onlyEthereum sampleAddress).
  repeat constructor; discriminate.
Defined.

End RiskBounds.

Section RecommendationProperties.
Import Fallback Responder.
Local Open Scope Q_scope.

Lemma diversification_below_half a :
  positive (50 - inject_Z a / inject_Z (Z.of_nat (List.length chains)) * 100) = true
  <-> (a <= 2)%Z.
Proof.
  rewrite positive_spec.
  unfold Qdiv. change (/ inject_Z (Z.of_nat (List.length chains))) with (1 # 6).
  split; intro H.
  - assert (Hq : inject_Z a < inject_Z 3) by (change (inject_Z 3) with 3; lra).
    rewrite <- Zlt_Qlt in Hq. lia.
  - assert (Hq : inject_Z a < inject_Z 3) by (rewrite <- Zlt_Qlt; lia).
    change (inject_Z 3) with 3 in Hq. lra.
Qed.

(** X16.  The chain recommendations of the portfolio report follow the
    number of active chains: "diversify across more chains" is given
    exactly with at most two active chains, "good multi-chain
    diversification" exactly with four or more, so never both and with
    three neither; "add more tokens" is given exactly with fewer than
    five tokens, and "rebalance" only for a portfolio of positive value. *)
Theorem recommendations_follow_active_chains :
  forall src address,
    let pd := analysePortfolio src address in
    let recs := recommendations pd in
    (In DiversifyChains recs <-> (pd_activeChains pd <= 2)%Z)
    /\ (In GoodDiversification recs <-> (4 <= pd_activeChains pd)%Z)
    /\ ~ (In DiversifyChains recs /\ In GoodDiversification recs)
    /\ (In AddTokens recs <-> (totalTokens pd < 5)%Z)
    /\ (In Rebalance recs -> 0 < totalValue pd).
Proof.
  intros src address pd recs.
  set (pd0 := fold_left (fun pd chain => portfolioChain src address chain pd)
                        chains emptyPortfolio).
  assert (Hd : In DiversifyChains recs <-> (pd_activeChains pd <= 2)%Z).
  { rewrite <- diversification_below_half.
    unfold recs, recommendations.
    change (diversification (riskAnalysis pd))
      with (inject_Z (pd_activeChains pd) / inject_Z (Z.of_nat (List.length chains)) * 100).
    destruct (positive (50 - _)); destruct (positive (_ - 70));
      destruct (totalTokens pd <? 5)%Z; destruct (4 <=? pd_activeChains pd)%Z;
      simpl; split; intro H; try reflexivity; try discriminate; auto;
      repeat (destruct H as [H|H]; try discriminate H); contradiction. }
  assert (Hg : In GoodDiversification recs <-> (4 <= pd_activeChains pd)%Z).
  { rewrite <- Z.leb_le.
    unfold recs, recommendations.
    destruct (positive (50 - _)); destruct (positive (_ - 70));
      destruct (totalTokens pd <? 5)%Z; destruct (4 <=? pd_activeChains pd)%Z;
      simpl; split; intro H; try reflexivity; try discriminate; auto 6;
      repeat (destruct H as [H|H]; try discriminate H); contradiction. }
  assert (Ha : In AddTokens recs <-> (totalTokens pd < 5)%Z).
  { rewrite <- Z.ltb_lt.
    unfold recs, recommendations.
    destruct (positive (50 - _)); destruct (positive (_ - 70));
      destruct (totalTokens pd <? 5)%Z; destruct (4 <=? pd_activeChains pd)%Z;
      simpl; split; intro H; try reflexivity; try discriminate; auto 6;
      repeat (destruct H as [H|H]; try discriminate H); contradiction. }
  split; [exact Hd|]. split; [exact Hg|].
  split; [rewrite Hd, Hg; lia|]. split; [exact Ha|].
  intro Hr.
  assert (Hc : 70 < concentration (riskAnalysis pd)).
  { destruct (positive (concentration (riskAnalysis pd) - 70)) eqn:Hp.
    - apply positive_spec in Hp. lra.
    - exfalso. unfold recs, recommendations in Hr. rewrite Hp in Hr.
      destruct (positive (50 - _)); destruct (totalTokens pd <? 5)%Z;
        destruct (4 <=? pd_activeChains pd)%Z; simpl in Hr;
        repeat (destruct Hr as [Hr|Hr]; try discriminate Hr); contradiction. }
  change (riskAnalysis pd) with (assessRisk pd0) in Hc.
  change (totalValue pd) with (totalValue pd0).
  unfold assessRisk in Hc; cbn [concentration] in Hc.
  destruct (positive (totalValue pd0)) eqn:Hp; [|lra].
  apply positive_spec in Hp. exact Hp.
Qed.

Lemma Math_round_monotone x y : x <= y -> (Math_round x <= Math_round y)%Z.
Proof.
  intro H. unfold Math_round. apply Qfloor_resp_le. lra.
Qed.

(** X17.  For a gas price that is not negative the tiers of the gas
    route are ordered: 0 <= slow <= baseFee <= standard <= fast. *)
Theorem gas_tiers_are_ordered :
  forall g, 0 <= g ->
    let p := gasRoute g in
    (0 <= slow p)%Z /\ (slow p <= baseFee p)%Z /\ (baseFee p <= standard p)%Z
    /\ (standard p <= fast p)%Z.
Proof.
  intros g Hg p. unfold p, gasRoute; cbn [slow baseFee standard fast].
  repeat split.
  - change 0%Z with (Math_round 0). apply Math_round_monotone. lra.
  - apply Math_round_monotone. lra.
  - apply Math_round_monotone. lra.
  - apply Math_round_monotone. lra.
Qed.

Lemma gas_tiers_are_ordered_witness :
  0 <= 25 /\
  let p := gasRoute 25 in
  (0 <= slow p)%Z /\ (slow p <= baseFee p)%Z /\ (baseFee p <= standard p)%Z
  /\ (standard p <= fast p)%Z.
Proof.
  split; [discriminate | apply (gas_tiers_are_ordered 25); discriminate].
Defined.

End RecommendationProperties.

(* ================================================================== *)
(** * The multi-chain NFT analysis                                     *)
(* ================================================================== *)

Section NftProperties.
Import Fallback Responder.

Variable nft_balance : string -> string -> Completion NftBody.
Variable address : string.

Lemma set_add_In key s x : In x (set_add key s) <-> x = key \/ In x s.
Proof.
  unfold set_add. destruct (existsb (String.eqb key) s) eqn:E.
  - apply existsb_exists in E. destruct E as (y & Hy & Hk).
    apply String.eqb_eq in Hk. subst y.
    split; [auto | intros [->|H]; assumption].
  - rewrite in_app_iff. simpl. intuition.
Qed.

Lemma set_add_NoDup key s : NoDup s -> NoDup (set_add key s).
Proof.
  intro H. unfold set_add. destruct (existsb (String.eqb key) s) eqn:E; [exact H|].
  apply NoDup_app; [exact H | repeat constructor; intros [] |].
  intros x Hx [Hk|[]]. subst x.
  assert (Ht : existsb (String.eqb key) s = true).
  { apply existsb_exists. exists key. split; [exact Hx | apply String.eqb_refl]. }
  congruence.
Qed.

Lemma collections_fold l : forall s,
  NoDup s ->
  NoDup (fold_left (fun s nft => set_add (collectionKey nft) s) l s)
  /\ forall k, In k (fold_left (fun s nft => set_add (collectionKey nft) s) l s)
               <-> In k s \/ In k (map collectionKey l).
Proof.
  induction l as [|n l IH]; intros s Hs; simpl.
  - split; [exact Hs | intuition].
  - destruct (IH _ (set_add_NoDup (collectionKey n) s Hs)) as [H1 H2].
    split; [exact H1|].
    intro k. rewrite H2, set_add_In. intuition.
Qed.

Lemma nftChain_invariant chain d :
  nft_invariant d ->
  nft_invariant (nftChain nft_balance address chain d)
  /\ (nft_activeChains (nftChain nft_balance address chain d)
      <= nft_activeChains d + 1)%Z.
Proof.
  intros (Ht & Ha & Hz & Hc & Hn & Hk).
  unfold nftChain, nft_invariant, listedChains in *.
  destruct (catch (nft_balance chain address) (fun _ => NftList [])) as [nfts|nonEmpty];
    cbn [totalNFTs nft_activeChains nft_chains allNFTs collections].
  - set (chainNFTs := map _ nfts).
    assert (Hl : List.length chainNFTs = List.length nfts) by apply length_map.
    destruct (collections_fold chainNFTs (collections d) Hn) as [Hn' Hk'].
    rewrite filter_app, !length_app, Hl. cbn [filter snd]. rewrite Hl.
    split; [|destruct (0 <? Z.of_nat (List.length nfts))%Z; lia].
    repeat split.
    + lia.
    + destruct (0 <? Z.of_nat (List.length nfts))%Z; lia.
    + destruct (Z.ltb_spec 0 (Z.of_nat (List.length nfts))); lia.
    + destruct (0 <? Z.of_nat (List.length nfts))%Z; simpl List.length; lia.
    + exact Hn'.
    + intro H. apply Hk' in H. rewrite map_app, in_app_iff, <- Hk. exact H.
    + intro H. apply Hk'. rewrite map_app, in_app_iff, <- Hk in H. exact H.
  - split; [|destruct nonEmpty; lia].
    repeat split; try assumption; try (destruct nonEmpty; lia); apply Hk.
Qed.

Lemma nft_fold_invariant order : forall d,
  nft_invariant d ->
  nft_invariant (fold_left (fun d chain => nftChain nft_balance address chain d) order d)
  /\ (nft_activeChains
        (fold_left (fun d chain => nftChain nft_balance address chain d) order d)
      <= nft_activeChains d + Z.of_nat (List.length order))%Z.
Proof.
  induction order as [|c order IH]; intros d Hd.
  - simpl. split; [exact Hd | lia].
  - destruct (nftChain_invariant c d Hd) as [Hi Hb].
    destruct (IH _ Hi) as [H1 H2].
    cbn [fold_left]. split; [exact H1|].
    rewrite length_cons, Nat2Z.inj_succ. lia.
Qed.

Lemma nft_invariant_empty : nft_invariant emptyNftData.
Proof.
  unfold nft_invariant; simpl.
  repeat split; try lia; try constructor; intros [].
Qed.


End NftProperties.


(* ================================================================== *)
(** * The single-chain wallet analysis                                 *)
(* ================================================================== *)

Section SingleChainWallet.
Import Fallback Responder.

Lemma usd_total_is_zero (tokens : list WalletToken) :
  fold_left (fun total _ => (total + 0)%Q) tokens 0%Q = 0%Q.
Proof.
  induction tokens as [|t tokens IH]; [reflexivity | exact IH].
Qed.

(** X19.  The single-chain wallet analysis asks for the native balance
    first and for the tokens only when that request succeeded: a failed
    balance request gives the 'Fallback Error' with its message after
    one request.  A report it does give is for the address and chain
    asked for, has one holding per token of the response, and prints a
    total exactly when there are holdings; that total is always 0.00. *)
Theorem single_chain_wallet_report :
  forall src address chain,
    let reply := fst (getWalletDataFallback src address chain) in
    let requests := snd (getWalletDataFallback src address chain) in
    hd_error requests = Some (Get_account_balance chain address)
    /\ (forall m, account_balance src chain address = Throw m ->
          reply = FallbackError m
          /\ requests = [Get_account_balance chain address])
    /\ (forall a c n holdings total,
          reply = WalletReport a c n holdings total ->
          a = address /\ c = chain
          /\ requests = [Get_account_balance chain address;
                         Get_wallet_balances (chainMapping chain) address]
          /\ (exists tokens,
                wallet_balances src (chainMapping chain) address = Normal tokens
                /\ holdings = map holding tokens)
          /\ (total = None <-> holdings = [])
          /\ (forall v, total = Some v -> v = "0.00")).
Proof.
  intros src address chain reply requests.
  unfold reply, requests, getWalletDataFallback.
  rewrite chainEndpoint_is_chain.
  destruct (account_balance src chain address) as [nativeBalance|message] eqn:Eb.
  - destruct (wallet_balances src (chainMapping chain) address)
      as [tokens|message] eqn:Et.
    + destruct nativeBalance as [data|]; cbn [fst snd hd_error].
      * split; [reflexivity|]. split; [intros m Hm; discriminate Hm|].
        intros a c n holdings total Hr. inversion Hr; subst; clear Hr.
        split; [reflexivity|]. split; [reflexivity|]. split; [reflexivity|].
        split; [exists tokens; split; reflexivity|].
        rewrite usd_total_is_zero.
        destruct tokens as [|t tokens]; simpl.
        -- split; [tauto | intros v Hv; discriminate Hv].
        -- split; [split; intro H; discriminate H|].
           intros v Hv. inversion Hv. reflexivity.
      * split; [reflexivity|]. split; [intros m Hm; discriminate Hm|].
        intros a c n holdings total Hr. discriminate Hr.
    + cbn [fst snd hd_error].
      split; [reflexivity|]. split; [intros m Hm; discriminate Hm|].
      intros a c n holdings total Hr. discriminate Hr.
  - cbn [fst snd hd_error].
    split; [reflexivity|].
    split; [intros m Hm; inversion Hm; subst; split; reflexivity|].
    intros a c n holdings total Hr. discriminate Hr.
Qed.

End SingleChainWallet.

(* ================================================================== *)
(** * The address pattern in the bot and in the classifier             *)
(* ================================================================== *)

Section ExtractorProperties.
Import JSString Classifier Dispatch.

Lemma hex_digit_lower_char c : hex_digit (lower_char c) = hex_digit c.
Proof. destruct c as [[] [] [] [] [] [] [] []]; reflexivity. Qed.

Lemma lower_char_zero c : Ascii.eqb (lower_char c) "0" = Ascii.eqb c "0".
Proof. destruct c as [[] [] [] [] [] [] [] []]; reflexivity. Qed.

Lemma lower_char_x c :
  Ascii.eqb (lower_char c) "x" = Ascii.eqb c "x" || Ascii.eqb c "X".
Proof. destruct c as [[] [] [] [] [] [] [] []]; reflexivity. Qed.

Lemma take_hex_toLowerCase n : forall s,
  take_hex n (toLowerCase s) = option_map toLowerCase (take_hex n s).
Proof.
  induction n as [|n IH]; intros s; [reflexivity|].
  destruct s as [|c s]; [reflexivity|].
  simpl. rewrite hex_digit_lower_char, IH.
  destruct (hex_digit c); [|reflexivity].
  destruct (take_hex n s); reflexivity.
Qed.

Lemma take_hex_length n : forall s h, take_hex n s = Some h -> (n <= String.length s)%nat.
Proof.
  induction n as [|n IH]; intros s h H; [lia|].
  destruct s as [|c s]; [discriminate H|].
  simpl in H. destruct (hex_digit c); [|discriminate H].
  destruct (take_hex n s) as [h'|] eqn:E; [|discriminate H].
  apply IH in E. simpl. lia.
Qed.

Lemma address_here_spec c0 c1 s :
  address_here (String c0 (String c1 s))
  = if Ascii.eqb c0 "0" && Ascii.eqb c1 "x"
    then option_map (fun h => String "0" (String "x" h)) (take_hex 40 s)
    else None.
Proof.
  destruct (Ascii.eqb_spec c0 "0") as [->|H0].
  - destruct (Ascii.eqb_spec c1 "x") as [->|H1].
    + unfold address_here. destruct (take_hex 40 s); reflexivity.
    + destruct c1 as [[] [] [] [] [] [] [] []]; try reflexivity.
      contradiction H1; reflexivity.
  - destruct c0 as [[] [] [] [] [] [] [] []]; try reflexivity.
    contradiction H0; reflexivity.
Qed.

Lemma address_here_short s : (String.length s < 42)%nat -> address_here s = None.
Proof.
  intro H.
  destruct s as [|c0 s]; [reflexivity|].
  destruct s as [|c1 s].
  - destruct c0 as [[] [] [] [] [] [] [] []]; reflexivity.
  - rewrite address_here_spec.
    destruct (Ascii.eqb c0 "0" && Ascii.eqb c1 "x"); [|reflexivity].
    destruct (take_hex 40 s) as [h|] eqn:E; [|reflexivity].
    apply take_hex_length in E. simpl in H. lia.
Qed.

Lemma match_address_short s : (String.length s < 42)%nat -> match_address s = None.
Proof.
  induction s as [|c s IH]; intro H; [reflexivity|].
  rewrite match_address_unfold, (address_here_short _ H).
  apply IH. simpl in H. lia.
Qed.

Lemma address_here_toLowerCase s :
  prefix "0X" s = false ->
  address_here (toLowerCase s) = option_map toLowerCase (address_here s).
Proof.
  intro Hp.
  destruct s as [|c0 s]; [reflexivity|].
  destruct s as [|c1 s].
  - rewrite (address_here_short (String c0 "")) by (simpl; lia).
    apply address_here_short. simpl. lia.
  - cbn [toLowerCase]. rewrite !address_here_spec.
    rewrite lower_char_zero, lower_char_x, take_hex_toLowerCase.
    destruct (Ascii.eqb_spec c0 "0") as [->|H0]; [|reflexivity].
    destruct (Ascii.eqb_spec c1 "x") as [->|H1].
    + cbn [andb orb option_map]. destruct (take_hex 40 s); reflexivity.
    + destruct (Ascii.eqb_spec c1 "X") as [->|H2]; [|reflexivity].
      assert (Ht : prefix "0X" (String "0" (String "X" s)) = true)
        by (destruct s; reflexivity).
      congruence.
Qed.

Lemma includes_false_cons c s sub :
  includes (String c s) sub = false ->
  prefix sub (String c s) = false /\ includes s sub = false.
Proof.
  change (includes (String c s) sub)
    with (if prefix sub (String c s) then true else includes s sub).
  destruct (prefix sub (String c s)); [discriminate | auto].
Qed.

Lemma match_address_toLowerCase s :
  includes s "0X" = false ->
  match_address (toLowerCase s) = option_map toLowerCase (match_address s).
Proof.
  induction s as [|c s IH]; intro H; [reflexivity|].
  apply includes_false_cons in H. destruct H as [Hp Hs].
  change (toLowerCase (String c s)) with (String (lower_char c) (toLowerCase s)).
  rewrite !match_address_unfold.
  change (String (lower_char c) (toLowerCase s)) with (toLowerCase (String c s)).
  rewrite (address_here_toLowerCase _ Hp).
  destruct (address_here (String c s)); [reflexivity|].
  apply IH, Hs.
Qed.

Lemma address_of_context message :
  address (getBlockchainContext message) = match_address (toLowerCase message).
Proof.
  destruct (match_address (toLowerCase message)) as [a|] eqn:E.
  - apply context_of_match, E.
  - unfold getBlockchainContext. rewrite E.
    repeat match goal with
    | |- context [if ?b then _ else _] => destruct b
    end; reflexivity.
Qed.

(** X20.  On a message without the two characters 0X the classifier of
    the server and [extractWalletAddress] of the Telegram bot find the
    same address, the classifier in lower case; in particular the
    classifier finds none exactly when the bot finds none. *)
Theorem classifier_lowers_the_extracted_address :
  forall message,
    includes message "0X" = false ->
    address (getBlockchainContext message)
    = option_map toLowerCase (extractWalletAddress message).
Proof.
  intros message H.
  rewrite address_of_context. unfold extractWalletAddress.
  apply match_address_toLowerCase, H.
Qed.

Lemma classifier_lowers_the_extracted_address_witness :
  let message := "check 0x52908400098527886E0F7030069857D2E4169EE7 please" in
  includes message "0X" = false
  /\ extractWalletAddress message
     = Some "0x52908400098527886E0F7030069857D2E4169EE7"
  /\ address (getBlockchainContext message)
     = option_map toLowerCase (extractWalletAddress message).
Proof.
  split; [reflexivity|]. split; [reflexivity|].
  apply (classifier_lowers_the_extracted_address
           "check 0x52908400098527886E0F7030069857D2E4169EE7 please").
  reflexivity.
Defined.

(** X21.  An address written with the prefix 0X and forty hexadecimal
    digits is rejected by the address check of the bot and of the web
    page and is not found by [extractWalletAddress], yet the classifier
    takes it for an address: it reads it in lower case, with 0x. *)
Theorem classifier_accepts_upper_case_prefix :
  forall h,
    String.length h = 40%nat -> all_hex h = true ->
    let message := String "0" (String "X" h) in
    isValidAddress message = false
    /\ extractWalletAddress message = None
    /\ address (getBlockchainContext message)
       = Some (String "0" (String "x" (toLowerCase h)))
    /\ isValidAddress (String "0" (String "x" (toLowerCase h))) = true.
Proof.
  intros h Hl Hh message.
  split; [reflexivity|].
  split.
  - unfold extractWalletAddress, message.
    rewrite match_address_unfold, address_here_spec.
    change (Ascii.eqb "0" "0" && Ascii.eqb "X" "x") with false. cbv iota.
    apply match_address_short. cbn [String.length]. rewrite Hl. lia.
  - assert (Ha : address_here (toLowerCase message)
                 = Some (String "0" (String "x" (toLowerCase h)))).
    { unfold message. cbn [toLowerCase].
      change (lower_char "0") with "0"%char. change (lower_char "X") with "x"%char.
      rewrite address_here_spec.
      change (Ascii.eqb "0" "0" && Ascii.eqb "x" "x") with true. cbv iota.
      rewrite take_hex_toLowerCase.
      assert (Ht : take_hex 40 h = Some h).
      { rewrite <- Hl. clear Hl. induction h as [|c h IH]; [reflexivity|].
        simpl in Hh. apply andb_prop in Hh. destruct Hh as [Hc Hh].
        simpl. rewrite Hc, (IH Hh). reflexivity. }
      rewrite Ht. reflexivity. }
    split.
    + rewrite address_of_context. apply match_address_here, Ha.
    + apply address_here_sound in Ha. apply Ha.
Qed.

Lemma classifier_accepts_upper_case_prefix_witness :
  let message := "0X52908400098527886E0F7030069857D2E4169EE7" in
  isValidAddress message = false
  /\ extractWalletAddress message = None
  /\ address (getBlockchainContext message)
     = Some "0x52908400098527886e0f7030069857d2e4169ee7".
Proof.
  intro message.
  destruct (classifier_accepts_upper_case_prefix
              "52908400098527886E0F7030069857D2E4169EE7" eq_refl eq_refl)
    as (H1 & H2 & H3 & _).
  split; [exact H1|]. split; [exact H2 | exact H3].
Defined.

End ExtractorProperties.

(* ================================================================== *)
(** * The single-chain portfolio report                                *)
(* ================================================================== *)

Section SingleChainPortfolio.
Import Fallback Responder.
Local Open Scope Q_scope.

Lemma insertByValue_permutation token sorted :
  Permutation (insertByValue token sorted) (token :: sorted).
Proof.
  induction sorted as [|other rest IH]; simpl; [apply Permutation_refl|].
  destruct (positive (pt_usdValue other - pt_usdValue token)).
  - apply Permutation_trans with (other :: token :: rest).
    + apply perm_skip, IH.
    + apply perm_swap.
  - apply Permutation_refl.
Qed.

Lemma sortByValue_permutation tokens : Permutation (sortByValue tokens) tokens.
Proof.
  induction tokens as [|t tokens IH]; simpl; [apply perm_nil|].
  apply Permutation_trans with (t :: sortByValue tokens).
  - apply insertByValue_permutation.
  - apply perm_skip, IH.
Qed.

Lemma insertByValue_sorted token sorted :
  largest_first sorted -> largest_first (insertByValue token sorted).
Proof.
  unfold largest_first.
  induction 1 as [|other rest Hs IH Hall]; simpl.
  - constructor; constructor.
  - destruct (positive (pt_usdValue other - pt_usdValue token)) eqn:E.
    + apply positive_spec in E.
      constructor; [exact IH|].
      refine (Permutation_Forall
                (Permutation_sym (insertByValue_permutation token rest)) _).
      constructor; [lra | exact Hall].
    + assert (Hle : pt_usdValue other <= pt_usdValue token).
      { destruct (Qlt_le_dec (pt_usdValue token) (pt_usdValue other)) as [Hlt|Hle];
          [|exact Hle].
        assert (Hp : positive (pt_usdValue other - pt_usdValue token) = true)
          by (apply positive_spec; lra).
        congruence. }
      constructor; [constructor; assumption|].
      constructor; [exact Hle|].
      eapply Forall_impl; [|exact Hall].
      intros a Ha. simpl in Ha. lra.
Qed.

Lemma sortByValue_sorted tokens : largest_first (sortByValue tokens).
Proof.
  induction tokens as [|t tokens IH]; simpl; [constructor|].
  apply insertByValue_sorted, IH.
Qed.

Lemma portfolioLines_spec whole sorted : forall lines total,
  0 <= total ->
  Forall (fun t => 0 <= pt_usdValue t) sorted ->
  total + sumQ (map pt_usdValue sorted) <= whole ->
  Forall (overstated whole) lines ->
  let result := fold_left portfolioLine sorted (lines, total) in
  map pl_token (fst result) = map pl_token lines ++ sorted
  /\ snd result == total + sumQ (map pt_usdValue sorted)
  /\ Forall (overstated whole) (fst result).
Proof.
  induction sorted as [|t sorted IH]; intros lines total Ht Hnn Hw Hl; simpl.
  - split; [symmetry; apply app_nil_r|]. split; [lra | exact Hl].
  - inversion Hnn as [|t' s' Hv Hnn']; subst.
    simpl in Hw.
    assert (Hs : 0 <= sumQ (map pt_usdValue sorted)).
    { clear -Hnn'. induction Hnn' as [|x l Hx _ IH]; simpl; lra. }
    unfold portfolioLine at 2 3 4. cbn [fst snd].
    set (total' := total + pt_usdValue t).
    set (line := mkPortfolioLine t _).
    assert (Hline : overstated whole line).
    { unfold overstated, line; cbn [percentage pl_token].
      destruct (positive total') eqn:Hp.
      - apply positive_spec in Hp.
        exists (pt_usdValue t / total' * 100). split; [reflexivity|].
        assert (Hq0 : 0 <= pt_usdValue t / total').
        { apply Qle_shift_div_l; [exact Hp | lra]. }
        assert (Hq1 : pt_usdValue t / total' <= 1).
        { apply Qle_shift_div_r; [exact Hp | unfold total'; lra]. }
        assert (Hqe : pt_usdValue t / total' * total' == pt_usdValue t).
        { rewrite Qmult_comm. apply Qmult_div_r.
          apply Qnot_eq_sym, Qlt_not_eq, Hp. }
        assert (Hm : 0 <= pt_usdValue t / total' * (whole - total')).
        { apply Qmult_le_0_compat; [exact Hq0 | unfold total'; lra]. }
        revert Hq0 Hq1 Hqe Hm. generalize (pt_usdValue t / total'). intros q Hq0 Hq1 Hqe Hm.
        split; [lra|]. split; [lra|]. nra.
      - assert (Hn : ~ 0 < total').
        { intro H. apply positive_spec in H. congruence. }
        unfold total' in Hn.
        exists 0. split; [reflexivity|].
        split; [lra|]. split; [lra|]. lra. }
    destruct (IH (lines ++ [line]) total') as (H1 & H2 & H3).
    + unfold total'. lra.
    + exact Hnn'.
    + unfold total'. lra.
    + apply Forall_app. split; [exact Hl | constructor; [exact Hline | constructor]].
    + split; [|split].
      * rewrite H1, map_app, <- app_assoc. reflexivity.
      * rewrite H2. unfold total'. lra.
      * exact H3.
Qed.



End SingleChainPortfolio.
